(** * ScamNest: rule scorer, session aggregation, intelligence extraction
      and callback gate, verified against the specification

    A shallow embedding of the decision core of the ScamNest honeypot
    ([app/services/scam_detector_hybrid.py], [intelligence_extractor.py],
    [session_service.py], [callback_service.py], [review_queue.py],
    [feedback_loop.py], [config.py]).
    The schema classes ([app/models/schemas.py]) are not among the
    sources; what is needed of them is modelled from the
    specification, and every such definition says so. The risk
    aggregator ([app/services/risk_aggregator.py]) and the intent
    scorer ([app/services/intent_scorer.py]) are not among the sources
    either and are not modelled.

    Conventions of the embedding:
    - Python [float] scores are exact rationals ([Q]) where a property
      is about which patterns, families and keywords contribute and
      about bounds that hold for the exact values; comparisons and
      [min]/[max] are then those of [Q], equality of scores is [==].
    - Where the value that the program compares with a threshold
      matters, that is, for the session score and its flags, scores
      are binary64 floats ([Float], [FloatDetector]) and every
      operation rounds as CPython's does.
    - Python [str] is [string] (a sequence of 8-bit characters); the
      character classes of [re] ([\d], [\s], [\w], [\b]) and
      [str.lower]/[str.isdigit] are the ASCII ones.
    - [re] is embedded as a backtracking matcher over the pattern
      syntax that the repository's pattern tables use, so that every
      scorer runs on concrete text.
    - Exceptions are an explicit [Result]; the module-level session dict
      is a [gmap] threaded through the session service. *)

From Stdlib Require Import QArith Qminmax Lqa Ascii String.
From Stdlib Require SpecFloat.
From stdpp Require Import gmap strings list pretty.

Set Default Proof Using "Type".
Local Open Scope string_scope.

(** ** Exceptions *)

Inductive Result (A : Type) : Type :=
| Ok (a : A)
| Raise (exn : string).
Arguments Ok {A} a.
Arguments Raise {A} exn.

Definition bind {A B} (r : Result A) (k : A → Result B) : Result B :=
  match r with
  | Ok a => k a
  | Raise e => Raise e
  end.

Notation "'let*' x ':=' r 'in' k" := (bind r (fun x => k))
  (at level 10, x name, r at level 100, k at level 200, only parsing).

(** [try: r except Exception: d] *)
Definition try_except {A} (r : Result A) (d : A) : A :=
  match r with
  | Ok a => a
  | Raise _ => d
  end.

Definition raises {A} (r : Result A) : Prop :=
  match r with Ok _ => False | Raise _ => True end.

(** ** Characters and strings *)

Module Str.

Definition code (c : ascii) : nat := nat_of_ascii c.

Definition between (lo hi : nat) (c : ascii) : bool :=
  (lo <=? code c)%nat && (code c <=? hi)%nat.

Definition is_digit (c : ascii) : bool := between 48 57 c.
Definition is_upper (c : ascii) : bool := between 65 90 c.
Definition is_lower (c : ascii) : bool := between 97 122 c.

(** [\s] on [str] patterns: TAB..CR, FS..US and SPACE. *)
Definition is_space (c : ascii) : bool :=
  between 9 13 c || between 28 32 c.

(** [\w]: letters, digits and the underscore. *)
Definition is_word (c : ascii) : bool :=
  is_digit c || is_upper c || is_lower c || (code c =? 95)%nat.

Definition lower_char (c : ascii) : ascii :=
  if is_upper c then ascii_of_nat (code c + 32) else c.

Definition upper_char (c : ascii) : ascii :=
  if is_lower c then ascii_of_nat (code c - 32) else c.

Definition chars (s : string) : list ascii := list_ascii_of_string s.
Definition of_chars (l : list ascii) : string := string_of_list_ascii l.

(** [s.lower()] *)
Definition lower (s : string) : string := of_chars (map lower_char (chars s)).

(** [s.isdigit()]: non-empty and every character a digit. *)
Definition isdigit (s : string) : bool :=
  match chars s with
  | [] => false
  | l => forallb is_digit l
  end.

Definition len (s : string) : nat := length (chars s).

(** [s[-n:]] *)
Definition suffix (n : nat) (s : string) : string :=
  of_chars (skipn (length (chars s) - n) (chars s)).

Fixpoint prefix_of (p l : list ascii) : bool :=
  match p, l with
  | [], _ => true
  | a :: p', b :: l' => if decide (a = b) then prefix_of p' l' else false
  | _ :: _, [] => false
  end.

Definition startswith (s p : string) : bool := prefix_of (chars p) (chars s).

Fixpoint infix_of (p l : list ascii) : bool :=
  prefix_of p l ||
  match l with
  | [] => false
  | _ :: l' => infix_of p l'
  end.

(** [sub in s] *)
Definition contains (sub s : string) : bool := infix_of (chars sub) (chars s).

Definition eqb (a b : string) : bool := bool_decide (a = b).

(** [s in l] for a list of strings *)
Definition mem (s : string) (l : list string) : bool := bool_decide (s ∈ l).

(** The double-quote character, for patterns that mention it. *)
Definition dquote : string := String (ascii_of_nat 34) EmptyString.

End Str.

(** ** The pattern language of [re] used by the pattern tables *)

Module Re.

Inductive class_item : Type :=
| CChar (c : ascii)
| CRange (lo hi : ascii)
| CDigit
| CSpace
| CWord.

Inductive regex : Type :=
| Eps
| Chr (c : ascii)
| Dot
| Class (negated : bool) (items : list class_item)
| WordB
| Seq (r1 r2 : regex)
| Alt (r1 r2 : regex)
| Star (r : regex).

Definition Opt (r : regex) : regex := Alt r Eps.
Definition Plus (r : regex) : regex := Seq r (Star r).

Fixpoint power (n : nat) (r : regex) : regex :=
  match n with
  | O => Eps
  | S n' => Seq r (power n' r)
  end.

Fixpoint upto (n : nat) (r : regex) : regex :=
  match n with
  | O => Eps
  | S n' => Opt (Seq r (upto n' r))
  end.

(** [r{m,n}], greedy *)
Definition Repeat (m n : nat) (r : regex) : regex :=
  Seq (power m r) (upto (n - m) r).

(** *** Parsing a pattern source *)

Definition escape (c : ascii) : regex :=
  match c with
  | "b"%char => WordB
  | "d"%char => Class false [CDigit]
  | "s"%char => Class false [CSpace]
  | "w"%char => Class false [CWord]
  | _ => Chr c
  end.

Definition class_escape (c : ascii) : class_item :=
  match c with
  | "d"%char => CDigit
  | "s"%char => CSpace
  | "w"%char => CWord
  | _ => CChar c
  end.

Fixpoint parse_class (s : list ascii) : option (list class_item * list ascii) :=
  match s with
  | [] => None
  | "]"%char :: rest => Some ([], rest)
  | "\"%char :: c :: rest =>
      '(items, rest') ← parse_class rest; Some (class_escape c :: items, rest')
  | "\"%char :: [] => None
  | lo :: "-"%char :: hi :: rest =>
      if decide (hi = "]"%char)
      then Some ([CChar lo; CChar "-"%char], rest)
      else '(items, rest') ← parse_class rest; Some (CRange lo hi :: items, rest')
  | c :: rest =>
      '(items, rest') ← parse_class rest; Some (CChar c :: items, rest')
  end.

Fixpoint parse_nat (acc : nat) (s : list ascii) : nat * list ascii :=
  match s with
  | c :: rest =>
      if Str.is_digit c then parse_nat (10 * acc + (Str.code c - 48)) rest
      else (acc, s)
  | [] => (acc, s)
  end.

(** The quantifier, if any, that follows an atom. *)
Definition parse_quant (r : regex) (s : list ascii) : option (regex * list ascii) :=
  match s with
  | "?"%char :: rest => Some (Opt r, rest)
  | "*"%char :: rest => Some (Star r, rest)
  | "+"%char :: rest => Some (Plus r, rest)
  | "{"%char :: rest =>
      let '(m, rest1) := parse_nat 0 rest in
      match rest1 with
      | "}"%char :: rest2 => Some (Repeat m m r, rest2)
      | ","%char :: rest2 =>
          let '(n, rest3) := parse_nat 0 rest2 in
          match rest3 with
          | "}"%char :: rest4 => Some (Repeat m n r, rest4)
          | _ => None
          end
      | _ => None
      end
  | _ => Some (r, s)
  end.

Fixpoint parse_alt (fuel : nat) (s : list ascii) : option (regex * list ascii) :=
  match fuel with
  | O => None
  | S fuel' =>
      '(r1, rest) ← parse_seq fuel' s;
      match rest with
      | "|"%char :: rest' =>
          '(r2, rest'') ← parse_alt fuel' rest'; Some (Alt r1 r2, rest'')
      | _ => Some (r1, rest)
      end
  end
with parse_seq (fuel : nat) (s : list ascii) : option (regex * list ascii) :=
  match fuel with
  | O => None
  | S fuel' =>
      match s with
      | [] => Some (Eps, s)
      | "|"%char :: _ => Some (Eps, s)
      | ")"%char :: _ => Some (Eps, s)
      | _ =>
          '(a, rest) ← parse_atom fuel' s;
          '(q, rest') ← parse_quant a rest;
          '(r, rest'') ← parse_seq fuel' rest';
          Some (Seq q r, rest'')
      end
  end
with parse_atom (fuel : nat) (s : list ascii) : option (regex * list ascii) :=
  match fuel with
  | O => None
  | S fuel' =>
      match s with
      | "("%char :: "?"%char :: ":"%char :: rest =>
          '(r, rest') ← parse_alt fuel' rest;
          match rest' with
          | ")"%char :: rest'' => Some (r, rest'')
          | _ => None
          end
      | "["%char :: "^"%char :: rest =>
          '(items, rest') ← parse_class rest; Some (Class true items, rest')
      | "["%char :: rest =>
          '(items, rest') ← parse_class rest; Some (Class false items, rest')
      | "\"%char :: c :: rest => Some (escape c, rest)
      | "."%char :: rest => Some (Dot, rest)
      | c :: rest =>
          if bool_decide (c ∈ ["("; ")"; "|"; "?"; "*"; "+"; "{"; "}"; "\"; "^"; "$"]%char)
          then None
          else Some (Chr c, rest)
      | [] => None
      end
  end.

Definition parse (src : string) : option regex :=
  let s := Str.chars src in
  match parse_alt (4 * length s + 4) s with
  | Some (r, []) => Some r
  | _ => None
  end.

(** A pattern that matches nothing, for sources outside the syntax. *)
Definition never : regex := Class false [].

(** [re.compile(src, re.IGNORECASE)] *)
Definition compile (src : string) : regex := default never (parse src).

(** *** Matching *)

Definition item_holds (it : class_item) (c : ascii) : bool :=
  match it with
  | CChar a => bool_decide (a = c)
  | CRange lo hi => Str.between (Str.code lo) (Str.code hi) c
  | CDigit => Str.is_digit c
  | CSpace => Str.is_space c
  | CWord => Str.is_word c
  end.

(** Under IGNORECASE a character is tried in both cases. *)
Definition item_holds_ci (it : class_item) (c : ascii) : bool :=
  item_holds it c || item_holds it (Str.lower_char c) || item_holds it (Str.upper_char c).

Definition chr_eq_ci (a c : ascii) : bool :=
  bool_decide (Str.lower_char a = Str.lower_char c).

Definition word_at (c : option ascii) : bool :=
  match c with
  | Some x => Str.is_word x
  | None => false
  end.

Definition step (ok : ascii → bool) {R} (s : list ascii)
    (k : option ascii → list ascii → option R) : option R :=
  match s with
  | x :: s' => if ok x then k (Some x) s' else None
  | [] => None
  end.

(** The type of a matcher: previous character, remaining input and
    continuation. *)
Definition matcher (R : Type) : Type :=
  option ascii → list ascii → (option ascii → list ascii → option R) → option R.

(** Greedy iteration of [body]: one more round that consumes input is
    tried before leaving the loop; [n] bounds the number of rounds. *)
Fixpoint star_loop {R} (body : matcher R) (k : option ascii → list ascii → option R)
    (n : nat) (prev : option ascii) (s : list ascii) : option R :=
  let more :=
    match n with
    | O => None
    | S n' =>
        body prev s
          (fun p s' =>
             if (length s' <? length s)%nat then star_loop body k n' p s' else None)
    end in
  match more with
  | Some x => Some x
  | None => k prev s
  end.

(** Backtracking match of [r] at the head of [s], [prev] being the
    character before it; [k] receives the position after the match.
    Alternatives are tried left to right and stars are greedy. *)
Fixpoint bt {R} (r : regex) : matcher R :=
  fun prev s k =>
  match r with
  | Eps => k prev s
  | Chr c => step (chr_eq_ci c) s k
  | Dot => step (fun x => negb (bool_decide (x = "010"%char))) s k
  | Class neg items =>
      step (fun x => xorb neg (existsb (fun it => item_holds_ci it x) items)) s k
  | WordB => if xorb (word_at prev) (word_at (head s)) then k prev s else None
  | Seq r1 r2 => bt r1 prev s (fun p s' => bt r2 p s' k)
  | Alt r1 r2 =>
      match bt r1 prev s k with
      | Some x => Some x
      | None => bt r2 prev s k
      end
  | Star r1 => star_loop (bt r1) k (length s) prev s
  end.

(** The match of [r] starting exactly here: the matched text and the rest. *)
Definition match_here (r : regex) (prev : option ascii) (s : list ascii)
    : option (list ascii * list ascii) :=
  bt r prev s (fun _ rest => Some (take (length s - length rest) s, rest)).

(** Leftmost match at or after the current position. *)
Fixpoint scan (r : regex) (prev : option ascii) (s : list ascii)
    : option (list ascii) :=
  match match_here r prev s with
  | Some (m, _) => Some m
  | None =>
      match s with
      | [] => None
      | c :: s' => scan r (Some c) s'
      end
  end.

(** [pattern.search(text)], as a truth value *)
Definition search (r : regex) (text : string) : bool :=
  bool_decide (is_Some (scan r None (Str.chars text))).

Fixpoint findall_from (fuel : nat) (r : regex) (prev : option ascii)
    (s : list ascii) : list string :=
  match fuel with
  | O => []
  | S fuel' =>
      match match_here r prev s with
      | Some (m, rest) =>
          match m, s with
          | [], [] => [Str.of_chars m]
          | [], c :: s' => Str.of_chars m :: findall_from fuel' r (Some c) s'
          | _ :: _, _ => Str.of_chars m :: findall_from fuel' r (last m) rest
          end
      | None =>
          match s with
          | [] => []
          | c :: s' => findall_from fuel' r (Some c) s'
          end
      end
  end.

(** [pattern.findall(text)] for a pattern without capturing groups:
    the non-overlapping matches, left to right. *)
Definition findall (r : regex) (text : string) : list string :=
  let s := Str.chars text in findall_from (S (length s)) r None s.

End Re.

(** ** Data model *)

(** Modelled from the spec: [Message] is declared in
    [app/models/schemas.py], which is not among the sources; section 3
    gives its three fields. *)
Record Message : Type := {
  sender : string;
  text : string;
  timestamp : string;
}.

(** [msg.sender.lower() == "scammer"] *)
Definition from_scammer (msg : Message) : bool :=
  Str.eqb (Str.lower (sender msg)) "scammer".

Local Open Scope Q_scope.

Definition count_Q (n : nat) : Q := inject_Z (Z.of_nat n).

(** Restriction of a score to [[0,1]]. *)
Definition clip01 (x : Q) : Q := Qmax 0 (Qmin x 1).

Definition Qsum (l : list Q) : Q := fold_right Qplus 0 l.

(** Modelled from the spec: [ExtractedIntelligence] is declared in
    [app/models/schemas.py], which is not among the sources. Section 3
    gives five sets of normalized strings that are merged by set union;
    "empty" is read as all five sets being empty. *)
Record ExtractedIntelligence : Type := {
  bankAccounts : gset string;
  upiIds : gset string;
  phoneNumbers : gset string;
  phishingLinks : gset string;
  suspiciousKeywords : gset string;
}.

Module Intel.

Definition empty : ExtractedIntelligence :=
  {| bankAccounts := ∅; upiIds := ∅; phoneNumbers := ∅;
     phishingLinks := ∅; suspiciousKeywords := ∅ |}.

(** Modelled from the spec: [ExtractedIntelligence.merge] of the
    absent [schemas.py]; section 3, "union-merges across messages". *)
Definition merge (a b : ExtractedIntelligence) : ExtractedIntelligence :=
  {| bankAccounts := bankAccounts a ∪ bankAccounts b;
     upiIds := upiIds a ∪ upiIds b;
     phoneNumbers := phoneNumbers a ∪ phoneNumbers b;
     phishingLinks := phishingLinks a ∪ phishingLinks b;
     suspiciousKeywords := suspiciousKeywords a ∪ suspiciousKeywords b |}.

(** Modelled from the spec: [ExtractedIntelligence.is_empty] of the
    absent [schemas.py]; no artifact of any of the five kinds. *)
Definition is_empty (a : ExtractedIntelligence) : bool :=
  bool_decide (bankAccounts a = ∅) && bool_decide (upiIds a = ∅)
  && bool_decide (phoneNumbers a = ∅) && bool_decide (phishingLinks a = ∅)
  && bool_decide (suspiciousKeywords a = ∅).

End Intel.

(** Modelled from the spec: [SessionState] is declared in
    [app/models/schemas.py], which is not among the sources. The fields
    are those of section 3 together with [updatedAt], which
    [SessionService.update_session] assigns; the optional request
    metadata, which no modelled operation reads, is left out. *)
Record SessionState : Type := {
  sessionId : string;
  messages : list Message;
  totalMessages : Z;
  scamSuspected : bool;
  scamDetected : bool;
  scamConfidenceScore : Q;
  extractedIntelligence : ExtractedIntelligence;
  callbackSent : bool;
  agentNotes : string;
  updatedAt : string;
}.

(** Modelled from the spec: the field defaults of [SessionState], that
    is, the session that [create_session] makes. *)
Definition new_session (session_id now : string) : SessionState :=
  {| sessionId := session_id; messages := []; totalMessages := 0;
     scamSuspected := false; scamDetected := false; scamConfidenceScore := 0;
     extractedIntelligence := Intel.empty; callbackSent := false;
     agentNotes := ""; updatedAt := now |}.

(** ** The hybrid scam detector ([scam_detector_hybrid.py]) *)

Module ScamDetector.

Definition URGENCY_PATTERNS : list string := [
  "\burgent\b";
  "\bimmediately\b";
  "\btoday\b";
  "\bnow\b";
  "\basap\b";
  "\bquick\b";
  "\bfast\b";
  "\bhurry\b";
  "\blast\s+chance\b";
  "\blimited\s+time\b";
  "\bexpir(?:e|ing|ed)\b";
  "\bwithin\s+\d+\s*(?:min|mins|minutes|hours|hrs)\b";
  "\btoday\s+itself\b";
  "\bimmediate\s+action\b";
  "\bact\s+now\b";
  "\bdeadline\b";
  "\bexpires?\s+(?:today|soon|shortly)\b";
  "\bno\s+delay\b"
]%string.

Definition THREAT_PATTERNS : list string := [
  "\bblock(?:ed)?\b";
  "\bsuspend(?:ed)?\b";
  "\bdeactivat(?:e|ed)\b";
  "\bfreez(?:e|ing)\b";
  "\bclose[ds]?\b";
  "\blegal\s+action\b";
  "\barrest(?:ed)?\b";
  "\bpolice\b";
  "\bcourt\b";
  "\bpenalt(?:y|ies)\b";
  "\bfin(?:e|ed)\b";
  "\bwarrant(?:ed)?\b";
  "\bservice\s+(?:will\s+be\s+)?(?:stopped|terminated|disabled)\b";
  "\baccess\s+(?:will\s+be\s+)?denied\b";
  "\baccount\s+(?:will\s+be\s+)?restricted\b";
  "\bpermanent\s+block\b";
  "\bblacklisted\b";
  "\bcomplaint\s+registered\b"
]%string.

Definition REQUEST_PATTERNS : list string := [
  "\bverif(?:y|ied)\b";
  "\bconfirm(?:ed)?\b";
  "\bupdat(?:e|ed)\b";
  "\bprovid(?:e|ed)\b";
  "\bshar(?:e|ed)\b";
  "\bsend(?:ing|(?:t|ed))\b";
  "\btransfer(?:red)?\b";
  "\bpa(?:y|id)\b";
  "\bclick(?:ed)?\b";
  "\blink\b";
  "\benter(?:ed)?\b";
  "\bsubmit(?:ted)?\b";
  "\bre-?enter\b";
  "\bre-?verify\b";
  "\bupload(?:ed)?\b";
  "\bscan(?:ned)?\b";
  "\bforward(?:ed)?\b";
  "\bsend\s+back\b";
  "\bfill(?:ed)?\b"
]%string.

Definition SENSITIVE_DATA_PATTERNS : list string := [
  "\botp\b";
  "\bpin\b";
  "\bpassword\b";
  "\bcvv\b";
  "\bcard\s+number\b";
  "\baccount\s+number\b";
  "\bbank\s+details\b";
  "\bupi\b";
  "\baadhaar\b";
  "\bpan\b";
  "\bkyc\b";
  "\bupi\s+(?:id|pin|password)\b";
  "\bm-pin\b";
  "\bt-pin\b";
  "\batm\s+pin\b";
  "\bvirtual\s+payment\b"
]%string.

Definition IMPERSONATION_PATTERNS : list string := [
  "\bbank\b";
  "\brbi\b";
  "\bsbi\b";
  "\bhdfc\b";
  "\bicici\b";
  "\baxis\b";
  "\bpaytm\b";
  "\bgpay\b";
  "\bphonepe\b";
  "\bamazon\b";
  "\bflipkart\b";
  "\bcustomer\s+(?:care|service)\b";
  "\bgovernment\b";
  "\bofficial\b";
  "\bauthorized\b";
  "\bofficials?\b";
  "\bupi\s+team\b";
  "\bpayment\s+team\b";
  "\bsecurity\s+team\b";
  "\bverification\s+team\b";
  "\btechnical\s+team\b";
  "\bfraud\s+department\b";
  "\bcompliance\s+team\b"
]%string.

Definition MONEY_PATTERNS : list string := [
  "₹\s*\d+(?:\.\d+)?";
  "\brs\.?\s*\d+(?:\.\d+)?";
  "\brupees?\b";
  "\binr\b";
  "\blakh\b";
  "\bcrore\b";
  "\bprize\b";
  "\blotter(?:y|ies)\b";
  "\bwinner\b";
  "\bcashback\b";
  "\breward\b";
  "\bbonus\b";
  "\bamount\b";
  "\brefund\b";
  "\btransaction\b";
  "\bpayment\b"
]%string.

Definition UPI_SCAM_PATTERNS : list string := [
  "(?:share|send|provide|give).*upi";
  "upi.*(?:blocked|suspended|deactivated|frozen)";
  "(?:verify|update|confirm|reactivate).*upi";
  "upi.*(?:expire|expiring|invalid)";
  "link.*(?:bank|account).*upi";
  "upi.*mandate";
  "auto.*debit.*upi";
  "collect.*request";
  "accept.*payment.*request"
]%string.

Definition FINANCIAL_COERCION_PATTERNS : list string := [
  "account.*(?:blocked|suspended|frozen|closed)";
  "(?:block|suspend|freeze|close).*account";
  "card.*(?:blocked|suspended|deactivated)";
  "(?:block|suspend|deactivate).*card";
  "(?:prevent|avoid|stop).*(?:blocking|suspension|closure)";
  "update.*kyc.*(?:immediately|today|now)";
  "kyc.*(?:pending|incomplete|failed)";
  "(?:verify|confirm).*identity.*(?:urgent|immediate)";
  "last.*(?:chance|warning).*(?:account|card|kyc)"
]%string.

(** *** The pickled classifier

    [joblib.load] yields whatever object the file holds; the detector
    calls [transform] on one and [predict_proba] on the other, and
    either call may raise. [F] is the type of feature matrices. *)

Section Detector.

Context {F : Type}.

Inductive Obj : Type :=
| Vectorizer (transform : list string → Result F)
| Classifier (predict_proba : F → Result (list (list Q)))
| Other.

Definition call_transform (o : Obj) (docs : list string) : Result F :=
  match o with
  | Vectorizer f => f docs
  | _ => Raise "AttributeError"
  end.

Definition call_predict_proba (o : Obj) (x : F) : Result (list (list Q)) :=
  match o with
  | Classifier f => f x
  | _ => Raise "AttributeError"
  end.

(** [xs[0]] *)
Definition item0 {A} (xs : list A) : Result A :=
  match xs with
  | x :: _ => Ok x
  | [] => Raise "IndexError"
  end.

Record t : Type := {
  model : Obj;
  vectorizer : Obj;
  urgency_re : list Re.regex;
  threat_re : list Re.regex;
  request_re : list Re.regex;
  sensitive_re : list Re.regex;
  impersonation_re : list Re.regex;
  money_re : list Re.regex;
  upi_scam_re : list Re.regex;
  financial_coercion_re : list Re.regex;
}.

(** [_compile_patterns], on the two loaded objects. *)
Definition _compile_patterns (m v : Obj) : t :=
  {| model := m;
     vectorizer := v;
     urgency_re := map Re.compile URGENCY_PATTERNS;
     threat_re := map Re.compile THREAT_PATTERNS;
     request_re := map Re.compile REQUEST_PATTERNS;
     sensitive_re := map Re.compile SENSITIVE_DATA_PATTERNS;
     impersonation_re := map Re.compile IMPERSONATION_PATTERNS;
     money_re := map Re.compile MONEY_PATTERNS;
     upi_scam_re := map Re.compile UPI_SCAM_PATTERNS;
     financial_coercion_re := map Re.compile FINANCIAL_COERCION_PATTERNS |}.

(** [__init__]: both [joblib.load] calls run unprotected, then
    [_compile_patterns]. *)
Definition init (joblib_load : string → Result Obj) : Result t :=
  let* m := joblib_load "app/ai_model/models/spam_model.pkl" in
  let* v := joblib_load "app/ai_model/models/tfidf_vectorizer.pkl" in
  Ok (_compile_patterns m v).

(** [sum(1 for pattern in patterns if pattern.search(text))] *)
Definition _count_pattern_matches (text : string) (patterns : list Re.regex) : nat :=
  length (filter (fun p => Re.search p text = true) patterns).

(** [list(set(keywords))] after extending with every [findall];
    the order of a Python set is unspecified, [remove_dups] fixes
    one. *)
Definition _extract_matched_keywords (text : string) (patterns : list Re.regex)
    : list string :=
  remove_dups (concat (map (fun p => Re.findall p text) patterns)).

(** One [if count > 0:] block of [analyze_message]. *)
Definition check_family (text : string) (patterns : list Re.regex)
    (per_match cap : Q) (acc : Q * list string) : Q * list string :=
  let '(rule_score, keywords) := acc in
  let count := _count_pattern_matches text patterns in
  if (0 <? count)%nat
  then (rule_score + Qmin (count_Q count * per_match) cap,
        (keywords ++ _extract_matched_keywords text patterns)%list)
  else (rule_score, keywords).

(** Part 1 of [analyze_message]: [rule_score] and [keywords] after
    the eight blocks, on the lowered text. *)
Definition rule_pass (d : t) (text : string) : Q * list string :=
  let acc := (0, []) in
  let acc := check_family text (urgency_re d) 0.05 0.15 acc in
  let acc := check_family text (threat_re d) 0.08 0.25 acc in
  let acc := check_family text (request_re d) 0.05 0.15 acc in
  let acc := check_family text (sensitive_re d) 0.08 0.25 acc in
  let acc := check_family text (impersonation_re d) 0.05 0.10 acc in
  let acc := check_family text (money_re d) 0.05 0.10 acc in
  let acc := check_family text (upi_scam_re d) 0.10 0.20 acc in
  let acc := check_family text (financial_coercion_re d) 0.10 0.20 acc in
  acc.

(** The body of the [try:] of part 2. *)
Definition ml_predict (d : t) (text : string) : Result Q :=
  let* features := call_transform (vectorizer d) [text] in
  let* all_probs := call_predict_proba (model d) features in
  let* probs := item0 all_probs in
  item0 probs.

(** Part 2: [ml_score], 0.0 when anything in the [try:] raised. *)
Definition ml_pass (d : t) (text : string) : Q :=
  try_except (ml_predict d text) 0.

Definition analyze_message (d : t) (message : Message) : Q * list string :=
  let text := Str.lower (text message) in
  let '(rule_score, keywords) := rule_pass d text in
  let ml_score := ml_pass d text in
  let final_score := Qmax rule_score ml_score in
  (Qmin final_score 1.0, remove_dups keywords).

(** The loop body of [analyze_session]. *)
Definition session_step (d : t) (acc : Q * list string * nat) (msg : Message)
    : Q * list string * nat :=
  let '(total_score, all_keywords, message_count) := acc in
  if from_scammer msg
  then
    let '(msg_score, msg_keywords) := analyze_message d msg in
    (total_score + msg_score, (all_keywords ++ msg_keywords)%list, S message_count)
  else acc.

Definition session_loop (d : t) (msgs : list Message) : Q * list string * nat :=
  fold_left (session_step d) msgs (0, [], O).

(** Returns [(final_score, is_suspected, is_confirmed, all_keywords)]. *)
Definition analyze_session (d : t) (session : SessionState)
    : Q * bool * bool * list string :=
  let '(total_score, all_keywords, message_count) :=
    session_loop d (messages session) in
  let avg_score := total_score / count_Q (Nat.max message_count 1) in
  let diversity_bonus :=
    Qmin (count_Q (length (remove_dups all_keywords)) * 0.02) 0.2 in
  let final_score := Qmin (avg_score + diversity_bonus) 1.0 in
  let is_suspected := Qle_bool 0.3 final_score in
  let is_confirmed := Qle_bool 0.51 final_score && (2 <=? message_count)%nat in
  (final_score, is_suspected, is_confirmed, remove_dups all_keywords).

End Detector.

Arguments Obj : clear implicits.
Arguments t : clear implicits.

(** [any(k in keyword_set for k in triggers)] *)
Definition any_in (triggers keyword_set : list string) : bool :=
  existsb (fun k => Str.mem k keyword_set) triggers.

(** [get_scam_type]; [keyword_set] is the set of lowered keywords, of
    which only membership is used. *)
Definition get_scam_type (keywords : list string) : string :=
  let keyword_set := map Str.lower keywords in
  if any_in ["bank"; "account"; "blocked"; "suspended"] keyword_set
  then "Banking Fraud"
  else if any_in ["otp"; "pin"; "password"; "cvv"] keyword_set
  then "Credential Phishing"
  else if any_in ["prize"; "lottery"; "winner"; "reward"] keyword_set
  then "Lottery/Prize Scam"
  else if any_in ["upi"; "paytm"; "gpay"; "phonepe"] keyword_set
  then "UPI Fraud"
  else if any_in ["kyc"; "aadhaar"; "pan"] keyword_set
  then "KYC Fraud"
  else "General Scam".

End ScamDetector.

(** ** Python floats

    CPython's [float] is IEEE 754 binary64 with rounding to nearest,
    ties to even. [SpecFloat] gives its operations on sign, mantissa
    and exponent; they are instantiated here at 53 bits of precision
    and the exponent range of binary64. *)

Module Float.

Import SpecFloat.

Definition float : Type := spec_float.

Definition prec : Z := 53.
Definition emax : Z := 1024.

Definition add : float → float → float := SFadd prec emax.
Definition mul : float → float → float := SFmul prec emax.
Definition div : float → float → float := SFdiv prec emax.

(** [a < b] and [a <= b], both false when an operand is a NaN. *)
Definition ltb : float → float → bool := SFltb.
Definition leb : float → float → bool := SFleb.

(** The conversion of an [int] operand of [*] or [/]. *)
Definition of_Z (z : Z) : float := binary_normalize prec emax z 0 false.
Definition of_nat (n : nat) : float := of_Z (Z.of_nat n).

(** A decimal literal of the source: the float nearest to the
    rational that the literal denotes. *)
Definition of_Q (q : Q) : float := div (of_Z (Qnum q)) (of_Z (Z.pos (Qden q))).

(** [0.0] and [1.0] *)
Definition zero : float := S754_zero false.
Definition one : float := S754_finite false 4503599627370496 (-52).

(** [min(a, b)] and [max(a, b)] of two arguments: the first one,
    unless the second is smaller (larger). *)
Definition min (a b : float) : float := if ltb b a then b else a.
Definition max (a b : float) : float := if ltb a b then b else a.

(** A total that starts at [0.0] and takes the items in order. *)
Definition sum (l : list float) : float := fold_left add l zero.

(** Zero, a positive number or [inf]. *)
Definition nonneg (x : float) : Prop :=
  match x with
  | S754_zero _ | S754_infinity false | S754_finite false _ _ => True
  | _ => False
  end.

Definition positive_finite (x : float) : Prop :=
  match x with
  | S754_finite false _ _ => True
  | _ => False
  end.

End Float.

(** ** The detector on floats

    [analyze_message] and [analyze_session] once more, with every
    score a [Float.float] and every operation the one that CPython
    performs, in the order of the source. The pattern tables, the
    counting of matches and the keywords are those of
    [ScamDetector]. *)

Module FloatDetector.

Import ScamDetector.

Section Detector.

Context {F : Type}.

Inductive Obj : Type :=
| Vectorizer (transform : list string → Result F)
| Classifier (predict_proba : F → Result (list (list Float.float)))
| Other.

Definition call_transform (o : Obj) (docs : list string) : Result F :=
  match o with
  | Vectorizer f => f docs
  | _ => Raise "AttributeError"
  end.

Definition call_predict_proba (o : Obj) (x : F)
    : Result (list (list Float.float)) :=
  match o with
  | Classifier f => f x
  | _ => Raise "AttributeError"
  end.

Record t : Type := {
  model : Obj;
  vectorizer : Obj;
  urgency_re : list Re.regex;
  threat_re : list Re.regex;
  request_re : list Re.regex;
  sensitive_re : list Re.regex;
  impersonation_re : list Re.regex;
  money_re : list Re.regex;
  upi_scam_re : list Re.regex;
  financial_coercion_re : list Re.regex;
}.

(** [_compile_patterns], on the two loaded objects. *)
Definition _compile_patterns (m v : Obj) : t :=
  {| model := m;
     vectorizer := v;
     urgency_re := map Re.compile URGENCY_PATTERNS;
     threat_re := map Re.compile THREAT_PATTERNS;
     request_re := map Re.compile REQUEST_PATTERNS;
     sensitive_re := map Re.compile SENSITIVE_DATA_PATTERNS;
     impersonation_re := map Re.compile IMPERSONATION_PATTERNS;
     money_re := map Re.compile MONEY_PATTERNS;
     upi_scam_re := map Re.compile UPI_SCAM_PATTERNS;
     financial_coercion_re := map Re.compile FINANCIAL_COERCION_PATTERNS |}.

(** One [if count > 0:] block of [analyze_message]:
    [rule_score += min(count * per_match, cap)]. *)
Definition check_family (text : string) (patterns : list Re.regex)
    (per_match cap : Float.float) (acc : Float.float * list string)
    : Float.float * list string :=
  let '(rule_score, keywords) := acc in
  let count := _count_pattern_matches text patterns in
  if (0 <? count)%nat
  then (Float.add rule_score
          (Float.min (Float.mul (Float.of_nat count) per_match) cap),
        (keywords ++ _extract_matched_keywords text patterns)%list)
  else (rule_score, keywords).

(** Part 1 of [analyze_message], on the lowered text. *)
Definition rule_pass (d : t) (text : string) : Float.float * list string :=
  let acc := (Float.zero, []) in
  let acc := check_family text (urgency_re d)
               (Float.of_Q 0.05) (Float.of_Q 0.15) acc in
  let acc := check_family text (threat_re d)
               (Float.of_Q 0.08) (Float.of_Q 0.25) acc in
  let acc := check_family text (request_re d)
               (Float.of_Q 0.05) (Float.of_Q 0.15) acc in
  let acc := check_family text (sensitive_re d)
               (Float.of_Q 0.08) (Float.of_Q 0.25) acc in
  let acc := check_family text (impersonation_re d)
               (Float.of_Q 0.05) (Float.of_Q 0.10) acc in
  let acc := check_family text (money_re d)
               (Float.of_Q 0.05) (Float.of_Q 0.10) acc in
  let acc := check_family text (upi_scam_re d)
               (Float.of_Q 0.10) (Float.of_Q 0.20) acc in
  let acc := check_family text (financial_coercion_re d)
               (Float.of_Q 0.10) (Float.of_Q 0.20) acc in
  acc.

(** The body of the [try:] of part 2. *)
Definition ml_predict (d : t) (text : string) : Result Float.float :=
  let* features := call_transform (vectorizer d) [text] in
  let* all_probs := call_predict_proba (model d) features in
  let* probs := item0 all_probs in
  item0 probs.

(** Part 2: [ml_score], 0.0 when anything in the [try:] raised. *)
Definition ml_pass (d : t) (text : string) : Float.float :=
  try_except (ml_predict d text) Float.zero.

Definition analyze_message (d : t) (message : Message)
    : Float.float * list string :=
  let text := Str.lower (text message) in
  let '(rule_score, keywords) := rule_pass d text in
  let ml_score := ml_pass d text in
  let final_score := Float.max rule_score ml_score in
  (Float.min final_score Float.one, remove_dups keywords).

(** The loop body of [analyze_session]. *)
Definition session_step (d : t) (acc : Float.float * list string * nat)
    (msg : Message) : Float.float * list string * nat :=
  let '(total_score, all_keywords, message_count) := acc in
  if from_scammer msg
  then
    let '(msg_score, msg_keywords) := analyze_message d msg in
    (Float.add total_score msg_score, (all_keywords ++ msg_keywords)%list,
     S message_count)
  else acc.

Definition session_loop (d : t) (msgs : list Message)
    : Float.float * list string * nat :=
  fold_left (session_step d) msgs (Float.zero, [], O).

(** Returns [(final_score, is_suspected, is_confirmed, all_keywords)]. *)
Definition analyze_session (d : t) (session : SessionState)
    : Float.float * bool * bool * list string :=
  let '(total_score, all_keywords, message_count) :=
    session_loop d (messages session) in
  let avg_score :=
    Float.div total_score (Float.of_nat (Nat.max message_count 1)) in
  let diversity_bonus :=
    Float.min
      (Float.mul (Float.of_nat (length (remove_dups all_keywords)))
                 (Float.of_Q 0.02))
      (Float.of_Q 0.2) in
  let final_score := Float.min (Float.add avg_score diversity_bonus) Float.one in
  let is_suspected := Float.leb (Float.of_Q 0.3) final_score in
  let is_confirmed :=
    Float.leb (Float.of_Q 0.51) final_score && (2 <=? message_count)%nat in
  (final_score, is_suspected, is_confirmed, remove_dups all_keywords).

End Detector.

Arguments Obj : clear implicits.
Arguments t : clear implicits.

End FloatDetector.

(** ** Intelligence extraction ([intelligence_extractor.py]) *)

Module IntelligenceExtractor.

Definition BANK_ACCOUNT_PATTERNS : list string := [
  "\b\d{9,18}\b";
  "\b\d{4}[-\s]?\d{4}[-\s]?\d{4}[-\s]?\d{4}\b"
]%string.

Definition UPI_PATTERNS : list string := [
  "\b[\w.-]+@[\w]+\b";
  "\b[\w.-]+@(?:upi|ybl|paytm|okaxis|okhdfcbank|oksbi|apl|ibl)\b"
]%string.

Definition PHONE_PATTERNS : list string := [
  "\+91[-\s]?\d{10}\b";
  "\b91[-\s]?\d{10}\b";
  "\b0\d{10}\b";
  "\b[6-9]\d{9}\b"
]%string.

Definition LINK_PATTERNS : list string := [
  "https?://[^\s<>" +:+ Str.dquote +:+ "\']+";
  "www\.[^\s<>" +:+ Str.dquote +:+ "\']+";
  "\b[\w-]+\.(?:com|in|org|net|co\.in|xyz|tk|ml|ga|cf)/[^\s]*";
  "bit\.ly/[^\s]+";
  "tinyurl\.com/[^\s]+";
  "t\.co/[^\s]+"
]%string.

Definition SUSPICIOUS_KEYWORDS : list string := [
  "urgent"; "immediately"; "blocked"; "suspended"; "verify";
  "confirm"; "update"; "otp"; "pin"; "password"; "cvv";
  "bank"; "account"; "upi"; "transfer"; "payment"; "kyc";
  "aadhaar"; "pan"; "prize"; "lottery"; "winner"; "reward";
  "cashback"; "refund"; "claim"; "expire"; "deadline";
  "legal action"; "police"; "arrest"; "court"; "penalty"
]%string.

Definition bank_re : list Re.regex := map Re.compile BANK_ACCOUNT_PATTERNS.
Definition upi_re : list Re.regex := map Re.compile UPI_PATTERNS.
Definition phone_re : list Re.regex := map Re.compile PHONE_PATTERNS.
Definition link_re : list Re.regex := map Re.compile LINK_PATTERNS.

Definition _extract_with_patterns (text : string) (patterns : list Re.regex)
    : list string :=
  remove_dups (concat (map (fun p => Re.findall p text) patterns)).

(** [re.sub(r'[-\s]', '', match)] *)
Definition strip_separators (s : string) : string :=
  Str.of_chars
    (filter (fun c => ¬ (c = "-"%char ∨ Str.is_space c = true)) (Str.chars s)).

(** [9 <= len(clean) <= 18 and clean.isdigit()] *)
Definition valid_account (clean : string) : bool :=
  (9 <=? Str.len clean)%nat && (Str.len clean <=? 18)%nat && Str.isdigit clean.

(** [f"XXXX-XXXX-{clean[-4:]}"] *)
Definition mask (clean : string) : string := "XXXX-XXXX-" +:+ Str.suffix 4 clean.

Definition bank_step (valid_accounts : list string) (m : string) : list string :=
  let clean := strip_separators m in
  if valid_account clean
  then
    let masked := mask clean in
    if Str.mem masked valid_accounts then valid_accounts
    else (valid_accounts ++ [masked])%list
  else valid_accounts.

Definition _filter_bank_accounts (matches : list string) : list string :=
  fold_left bank_step matches [].

(** [s.split(sep)] for a one-character separator *)
Fixpoint split_chars (sep : ascii) (cur : list ascii) (s : list ascii)
    : list (list ascii) :=
  match s with
  | [] => [rev cur]
  | c :: s' =>
      if decide (c = sep) then rev cur :: split_chars sep [] s'
      else split_chars sep (c :: cur) s'
  end.

Definition split (sep : ascii) (s : string) : list string :=
  map Str.of_chars (split_chars sep [] (Str.chars s)).

Definition upi_suffixes : list string := [
  "upi"; "ybl"; "paytm"; "okaxis"; "okhdfcbank";
  "oksbi"; "apl"; "ibl"; "icici"; "sbi"; "hdfc"
]%string.

Definition email_domains : list string := [
  "gmail.com"; "yahoo.com"; "hotmail.com"; "outlook.com"; "email.com"
]%string.

Definition upi_step (valid_upis : list string) (m : string) : list string :=
  if Str.contains "@" m
  then
    match split "@"%char m with
    | [_; part1] =>
        let suffix := Str.lower part1 in
        if existsb (fun s => Str.contains s suffix) upi_suffixes
           || (Str.len suffix <=? 10)%nat
        then
          if Str.mem suffix email_domains then valid_upis
          else (valid_upis ++ [Str.lower m])%list
        else valid_upis
    | _ => valid_upis
    end
  else valid_upis.

Definition _filter_upi_ids (matches : list string) : list string :=
  remove_dups (fold_left upi_step matches []).

(** [re.sub(r'[-\s+]', '', match)] *)
Definition strip_phone (s : string) : string :=
  Str.of_chars
    (filter (fun c => ¬ (c = "-"%char ∨ Str.is_space c = true ∨ c = "+"%char))
       (Str.chars s)).

Definition drop_chars (n : nat) (s : string) : string :=
  Str.of_chars (drop n (Str.chars s)).

Definition phone_step (valid_phones : list string) (m : string) : list string :=
  let clean := strip_phone m in
  let clean :=
    if Str.startswith clean "91" && (10 <? Str.len clean)%nat then drop_chars 2 clean
    else if Str.startswith clean "0" && (10 <? Str.len clean)%nat then drop_chars 1 clean
    else clean in
  if (Str.len clean =? 10)%nat
     && Str.contains (Str.of_chars (take 1 (Str.chars clean))) "6789"
  then
    let formatted := "+91" +:+ clean in
    if Str.mem formatted valid_phones then valid_phones
    else (valid_phones ++ [formatted])%list
  else valid_phones.

Definition _filter_phone_numbers (matches : list string) : list string :=
  fold_left phone_step matches [].

Definition safe_domains : list string := [
  "google.com"; "facebook.com"; "twitter.com";
  "instagram.com"; "youtube.com"; "linkedin.com"
]%string.

Definition link_step (suspicious_links : list string) (m : string) : list string :=
  let is_safe := existsb (fun domain => Str.contains domain (Str.lower m)) safe_domains in
  if is_safe then suspicious_links
  else
    let m := if Str.startswith m "http" then m else "http://" +:+ m in
    (suspicious_links ++ [m])%list.

Definition _filter_links (matches : list string) : list string :=
  remove_dups (fold_left link_step matches []).

Definition _extract_keywords (text : string) : list string :=
  let text_lower := Str.lower text in
  remove_dups (filter (fun keyword => Str.contains keyword text_lower = true)
                 SUSPICIOUS_KEYWORDS).

Definition extract_from_message (message : Message) : ExtractedIntelligence :=
  let text := text message in
  let bank_matches := _extract_with_patterns text bank_re in
  let upi_matches := _extract_with_patterns text upi_re in
  let phone_matches := _extract_with_patterns text phone_re in
  let link_matches := _extract_with_patterns text link_re in
  {| bankAccounts := list_to_set (_filter_bank_accounts bank_matches);
     upiIds := list_to_set (_filter_upi_ids upi_matches);
     phoneNumbers := list_to_set (_filter_phone_numbers phone_matches);
     phishingLinks := list_to_set (_filter_links link_matches);
     suspiciousKeywords := list_to_set (_extract_keywords text) |}.

Definition session_step (combined : ExtractedIntelligence) (message : Message)
    : ExtractedIntelligence :=
  if from_scammer message
  then Intel.merge combined (extract_from_message message)
  else combined.

Definition extract_from_session (session : SessionState) : ExtractedIntelligence :=
  fold_left session_step (messages session) Intel.empty.

(** [sep.join(parts)] *)
Definition join (sep : string) (parts : list string) : string :=
  match parts with
  | [] => ""
  | p :: ps => fold_left (fun acc x => acc +:+ sep +:+ x) ps p
  end.

(** [if any(k in keywords for k in triggers): tactics.append(name)] *)
Definition note_tactic (keywords : gset string) (triggers : list string)
    (name : string) (tactics : list string) : list string :=
  if existsb (fun k => bool_decide (k ∈ keywords)) triggers
  then (tactics ++ [name])%list
  else tactics.

(** [if artifacts: notes_parts.append(f"{title}: {len(artifacts)}")] *)
Definition note_count (artifacts : gset string) (title : string)
    (notes_parts : list string) : list string :=
  if (size artifacts =? 0)%nat then notes_parts
  else (notes_parts ++ [title +:+ ": " +:+ pretty (size artifacts)])%list.

Definition generate_agent_notes (session : SessionState) (scam_type : string)
    : string :=
  let intel := extractedIntelligence session in
  let notes_parts := ["Scam Type: " +:+ scam_type] in
  let keywords := suspiciousKeywords intel in
  let tactics := [] in
  let tactics :=
    note_tactic keywords ["urgent"; "immediately"; "asap"; "now"]
      "urgency tactics" tactics in
  let tactics :=
    note_tactic keywords ["blocked"; "suspended"; "legal action"; "arrest"]
      "fear/threat tactics" tactics in
  let tactics :=
    note_tactic keywords ["prize"; "lottery"; "winner"; "reward"; "cashback"]
      "reward bait" tactics in
  let tactics :=
    note_tactic keywords ["bank"; "rbi"; "government"; "official"]
      "authority impersonation" tactics in
  let tactics :=
    note_tactic keywords ["otp"; "pin"; "password"; "cvv"]
      "credential harvesting" tactics in
  let tactics :=
    note_tactic keywords ["upi"; "transfer"; "payment"]
      "payment redirection" tactics in
  let notes_parts :=
    match tactics with
    | [] => notes_parts
    | _ => (notes_parts ++ ["Tactics used: " +:+ join ", " tactics])%list
    end in
  let notes_parts := note_count (upiIds intel) "UPI IDs shared" notes_parts in
  let notes_parts := note_count (phoneNumbers intel) "Phone numbers" notes_parts in
  let notes_parts := note_count (phishingLinks intel) "Suspicious links" notes_parts in
  let notes_parts :=
    note_count (bankAccounts intel) "Bank accounts mentioned" notes_parts in
  let notes_parts :=
    (notes_parts
     ++ ["Total messages exchanged: " +:+ pretty (totalMessages session)])%list in
  join ". " notes_parts.

End IntelligenceExtractor.

(** ** The session store ([session_service.py]) *)

Module SessionService.

(** The module-level [_sessions] dict. *)
Abbreviation sessions := (gmap string SessionState).

Definition get_session (store : sessions) (session_id : string)
    : option SessionState :=
  store !! session_id.

Definition create_session (store : sessions) (session_id now : string)
    : sessions * SessionState :=
  let session := new_session session_id now in
  (<[session_id := session]> store, session).

Definition set_updatedAt (now : string) (s : SessionState) : SessionState :=
  {| sessionId := sessionId s; messages := messages s;
     totalMessages := totalMessages s; scamSuspected := scamSuspected s;
     scamDetected := scamDetected s; scamConfidenceScore := scamConfidenceScore s;
     extractedIntelligence := extractedIntelligence s;
     callbackSent := callbackSent s; agentNotes := agentNotes s;
     updatedAt := now |}.

(** [now] stands for [datetime.utcnow().isoformat()]. *)
Definition update_session (store : sessions) (session : SessionState) (now : string)
    : sessions * SessionState :=
  let session := set_updatedAt now session in
  (<[sessionId session := session]> store, session).

Definition lookup_or_raise (store : sessions) (session_id : string)
    : Result SessionState :=
  match get_session store session_id with
  | Some session => Ok session
  | None => Raise ("Session " +:+ session_id +:+ " not found")
  end.

Definition add_message (store : sessions) (session_id : string)
    (message : Message) (now : string) : Result (sessions * SessionState) :=
  let* session := lookup_or_raise store session_id in
  let session :=
    {| sessionId := sessionId session;
       messages := (messages session ++ [message])%list;
       totalMessages := (totalMessages session + 1)%Z;
       scamSuspected := scamSuspected session;
       scamDetected := scamDetected session;
       scamConfidenceScore := scamConfidenceScore session;
       extractedIntelligence := extractedIntelligence session;
       callbackSent := callbackSent session; agentNotes := agentNotes session;
       updatedAt := updatedAt session |} in
  Ok (update_session store session now).

Definition update_scam_status (store : sessions) (session_id : string)
    (suspected detected : bool) (confidence : Q) (now : string)
    : Result (sessions * SessionState) :=
  let* session := lookup_or_raise store session_id in
  let session :=
    {| sessionId := sessionId session; messages := messages session;
       totalMessages := totalMessages session;
       scamSuspected := suspected || scamSuspected session;
       scamDetected := detected || scamDetected session;
       scamConfidenceScore := Qmax confidence (scamConfidenceScore session);
       extractedIntelligence := extractedIntelligence session;
       callbackSent := callbackSent session; agentNotes := agentNotes session;
       updatedAt := updatedAt session |} in
  Ok (update_session store session now).

Definition update_intelligence (store : sessions) (session_id : string)
    (intelligence : ExtractedIntelligence) (now : string)
    : Result (sessions * SessionState) :=
  let* session := lookup_or_raise store session_id in
  let session :=
    {| sessionId := sessionId session; messages := messages session;
       totalMessages := totalMessages session;
       scamSuspected := scamSuspected session;
       scamDetected := scamDetected session;
       scamConfidenceScore := scamConfidenceScore session;
       extractedIntelligence :=
         Intel.merge (extractedIntelligence session) intelligence;
       callbackSent := callbackSent session; agentNotes := agentNotes session;
       updatedAt := updatedAt session |} in
  Ok (update_session store session now).

Definition mark_callback_sent (store : sessions) (session_id notes now : string)
    : Result (sessions * SessionState) :=
  let* session := lookup_or_raise store session_id in
  let session :=
    {| sessionId := sessionId session; messages := messages session;
       totalMessages := totalMessages session;
       scamSuspected := scamSuspected session;
       scamDetected := scamDetected session;
       scamConfidenceScore := scamConfidenceScore session;
       extractedIntelligence := extractedIntelligence session;
       callbackSent := true;
       agentNotes := if Str.eqb notes "" then agentNotes session else notes;
       updatedAt := updatedAt session |} in
  Ok (update_session store session now).

Definition delete_session (store : sessions) (session_id : string)
    : sessions * bool :=
  match store !! session_id with
  | Some _ => (delete session_id store, true)
  | None => (store, false)
  end.

(** [self.get_session(session_id) or self.create_session(...)]; a
    stored session object is truthy, so an existing session is
    returned as it is. *)
Definition get_or_create_session (store : sessions) (session_id now : string)
    : sessions * SessionState :=
  match get_session store session_id with
  | Some session => (store, session)
  | None => create_session store session_id now
  end.

End SessionService.

(** ** The callback gate ([callback_service.py], [config.py]) *)

Record Settings : Type := {
  callback_timeout : Z;
  min_messages_for_callback : Z;
  scam_confidence_threshold : Q;
}.

(** The defaults of [config.Settings]. *)
Definition default_settings : Settings :=
  {| callback_timeout := 10; min_messages_for_callback := 3;
     scam_confidence_threshold := 0.7 |}.

(** [a < b] on scores *)
Definition Qlt_bool (a b : Q) : bool := negb (Qle_bool b a).

Module CallbackService.

Definition should_send_callback (settings : Settings) (session : SessionState)
    : bool :=
  if callbackSent session then false
  else if negb (scamDetected session) then false
  else if (totalMessages session <? min_messages_for_callback settings)%Z then false
  else if Intel.is_empty (extractedIntelligence session)
       then (if Qlt_bool (scamConfidenceScore session) 0.8 then false else true)
  else true.

(** Modelled from the spec: [CallbackPayload] is declared in
    [app/models/schemas.py], which is not among the sources; section 6
    gives its five fields, and [_build_payload] fills them. *)
Record CallbackPayload : Type := {
  p_sessionId : string;
  p_scamDetected : bool;
  p_totalMessagesExchanged : Z;
  p_extractedIntelligence : ExtractedIntelligence;
  p_agentNotes : string;
}.

(** [agent_notes or session.agentNotes] *)
Definition _build_payload (session : SessionState) (agent_notes : string)
    : CallbackPayload :=
  {| p_sessionId := sessionId session;
     p_scamDetected := scamDetected session;
     p_totalMessagesExchanged := totalMessages session;
     p_extractedIntelligence := extractedIntelligence session;
     p_agentNotes :=
       if Str.eqb agent_notes "" then agentNotes session else agent_notes |}.

(** What the [try:] around [client.post] can meet: a response, or one
    of the three exception classes the method catches, in the order it
    catches them. *)
Inductive HttpOutcome : Type :=
| Response (status_code : Z) (body : string)
| TimeoutException
| RequestError (msg : string)
| OtherException (msg : string).

(** [send_callback]. [post] stands for the request to
    [self.callback_url] with [self.timeout]; the second component
    lists the payloads for which the request was attempted. *)
Definition send_callback (post : CallbackPayload → HttpOutcome)
    (session : SessionState) (agent_notes : string)
    : (bool * option string) * list CallbackPayload :=
  if callbackSent session
  then ((false, Some "Callback already sent for this session"), [])
  else if negb (scamDetected session)
  then ((false, Some "Cannot send callback - scam not confirmed"), [])
  else
    let payload := _build_payload session agent_notes in
    let result :=
      match post payload with
      | Response status_code body =>
          if (status_code =? 200)%Z then (true, None)
          else (false,
                Some ("Callback failed with status " +:+ pretty status_code
                      +:+ ": " +:+ body))
      | TimeoutException =>
          (false, Some ("Callback timeout for session " +:+ sessionId session))
      | RequestError msg => (false, Some ("Callback request error: " +:+ msg))
      | OtherException msg => (false, Some ("Unexpected callback error: " +:+ msg))
      end in
    (result, [payload]).

End CallbackService.

(** ** The review queue ([review_queue.py]) *)

Module ReviewQueue.


(** [l[i:]] *)
Definition slice_from {A} (i : Z) (l : list A) : list A :=
  if (0 <=? i)%Z then drop (Z.to_nat i) l
  else drop (length l - Z.to_nat (- i)) l.

(** [deque.append] on a [deque(maxlen=n)]: the item is put at the
    right end and, the bound being exceeded, the leftmost item is
    discarded. *)
Definition deque_append {A} (maxlen : Z) (q : list A) (x : A) : list A :=
  let q' := (q ++ [x])%list in
  if (maxlen <? Z.of_nat (length q'))%Z then drop 1 q' else q'.

Section Queue.

(** [V] is the type of the values that an [explanation] dict holds. *)
Context {V : Type}.

Record ReviewQueueItem : Type := {
  session_id : string;
  message_text : string;
  risk_level : string;
  aggregated_score : Q;
  explanation : gmap string V;
  timestamp : string;
  reviewed : bool;
  reviewer_notes : option string;
  final_decision : option string;
}.

(** [ReviewQueueItem.__init__] as [add_to_queue] calls it: without a
    [timestamp], so that the clock ([now]) gives it. *)
Definition new_item (session_id message_text risk_level : string)
    (aggregated_score : Q) (explanation : gmap string V) (now : string)
    : ReviewQueueItem :=
  {| session_id := session_id; message_text := message_text;
     risk_level := risk_level; aggregated_score := aggregated_score;
     explanation := explanation; timestamp := now;
     reviewed := false; reviewer_notes := None; final_decision := None |}.

Record ReviewQueueService : Type := {
  max_queue_size : Z;
  queue : list ReviewQueueItem;
  reviewed_items : list ReviewQueueItem;
}.

(** [__init__]; [deque(maxlen=...)] refuses a negative bound. *)
Definition init (max_queue_size : Z) : Result ReviewQueueService :=
  if (max_queue_size <? 0)%Z then Raise "ValueError"
  else Ok {| max_queue_size := max_queue_size; queue := []; reviewed_items := [] |}.

(** [add_to_queue]; its [reason] only reaches the log. *)
Definition add_to_queue (svc : ReviewQueueService)
    (session_id message_text risk_level : string) (aggregated_score : Q)
    (explanation : gmap string V) (now : string)
    : ReviewQueueItem * ReviewQueueService :=
  let item :=
    new_item session_id message_text risk_level aggregated_score explanation now in
  (item,
   {| max_queue_size := max_queue_size svc;
      queue := deque_append (max_queue_size svc) (queue svc) item;
      reviewed_items := reviewed_items svc |}).

Definition get_queue_size (svc : ReviewQueueService) : Z :=
  Z.of_nat (length (queue svc)).


(** The three assignments of [mark_reviewed]. *)
Definition marked (item : ReviewQueueItem) (final_decision : string)
    (reviewer_notes : option string) : ReviewQueueItem :=
  {| session_id := session_id item; message_text := message_text item;
     risk_level := risk_level item; aggregated_score := aggregated_score item;
     explanation := explanation item; timestamp := timestamp item;
     reviewed := true; reviewer_notes := reviewer_notes;
     final_decision := Some final_decision |}.

(** The loop of [mark_reviewed]: the queue with its first unreviewed
    item of the session marked, and that item. *)
Fixpoint mark_first (session_id' final_decision : string)
    (reviewer_notes : option string) (q : list ReviewQueueItem)
    : option (list ReviewQueueItem * ReviewQueueItem) :=
  match q with
  | [] => None
  | item :: q' =>
      if Str.eqb (session_id item) session_id' && negb (reviewed item)
      then
        let item' := marked item final_decision reviewer_notes in
        Some (item' :: q', item')
      else
        match mark_first session_id' final_decision reviewer_notes q' with
        | Some (q'', item') => Some (item :: q'', item')
        | None => None
        end
  end.

Definition mark_reviewed (svc : ReviewQueueService)
    (session_id final_decision : string) (reviewer_notes : option string)
    : bool * ReviewQueueService :=
  match mark_first session_id final_decision reviewer_notes (queue svc) with
  | Some (q', item') =>
      (true,
       {| max_queue_size := max_queue_size svc; queue := q';
          reviewed_items := (reviewed_items svc ++ [item'])%list |})
  | None => (false, svc)
  end.

(** One dict of the list that [get_feedback_data] returns. *)
Record FeedbackEntry : Type := {
  f_text : string;
  f_predicted_label : string;
  f_predicted_score : Q;
  f_ground_truth : string;
  f_ml_confidence : option V;
  f_signals : option V;
  f_timestamp : string;
}.

(** [if item.reviewed and item.final_decision: feedback.append(...)] *)
Definition feedback_of (item : ReviewQueueItem) : option FeedbackEntry :=
  match final_decision item with
  | Some decision =>
      if reviewed item && negb (Str.eqb decision "")
      then Some {| f_text := message_text item;
                   f_predicted_label := risk_level item;
                   f_predicted_score := aggregated_score item;
                   f_ground_truth := decision;
                   f_ml_confidence := explanation item !! "confidence_level";
                   f_signals := explanation item !! "signals";
                   f_timestamp := timestamp item |}
      else None
  | None => None
  end.

(** [get_feedback_data]: the loop runs over [reviewed_items[-limit:]]. *)
Definition get_feedback_data (svc : ReviewQueueService) (limit : Z)
    : list FeedbackEntry :=
  omap feedback_of (slice_from (- limit) (reviewed_items svc)).

(** The dict that [get_stats] returns. *)
Record QueueStats : Type := {
  total_items : Z;
  pending_review : Z;
  reviewed_in_queue : Z;
  reviewed_items_stored : Z;
  stats_max_queue_size : Z;
}.

Definition get_stats (svc : ReviewQueueService) : QueueStats :=
  let total := Z.of_nat (length (queue svc)) in
  let reviewed :=
    Z.of_nat (length (filter (fun item => reviewed item = true) (queue svc))) in
  let pending := (total - reviewed)%Z in
  {| total_items := total;
     pending_review := pending;
     reviewed_in_queue := reviewed;
     reviewed_items_stored := Z.of_nat (length (reviewed_items svc));
     stats_max_queue_size := max_queue_size svc |}.

End Queue.

Arguments ReviewQueueItem : clear implicits.
Arguments ReviewQueueService : clear implicits.
Arguments FeedbackEntry : clear implicits.

End ReviewQueue.

(** ** The feedback loop ([feedback_loop.py]) *)

Module FeedbackLoop.

(** The values that the [explanation] and [contextual_signals] dicts
    are made of. *)
#[warnings="-register-all"] Inductive Value : Type :=
| VNone
| VBool (b : bool)
| VNum (q : Q)
| VStr (s : string)
| VList (l : list Value)
| VDict (d : list (string * Value)).

(** The value stored under a key among the items of a dict. *)
Fixpoint lookup (key : string) (d : list (string * Value)) : option Value :=
  match d with
  | [] => None
  | (k, v) :: d' => if Str.eqb k key then Some v else lookup key d'
  end.

(** [v[key]] *)
Definition getitem (v : Value) (key : string) : Result Value :=
  match v with
  | VDict d =>
      match lookup key d with
      | Some x => Ok x
      | None => Raise "KeyError"
      end
  | _ => Raise "TypeError"
  end.

(** [v[k1][k2]...] *)
Fixpoint path (v : Value) (keys : list string) : Result Value :=
  match keys with
  | [] => Ok v
  | key :: keys' => let* v' := getitem v key in path v' keys'
  end.

(** [v.get(key, default)] *)
Definition get (v : Value) (key : string) (default : Value) : Result Value :=
  match v with
  | VDict d =>
      match lookup key d with
      | Some x => Ok x
      | None => Ok default
      end
  | _ => Raise "AttributeError"
  end.

(** The truth value of a value. *)
Definition truthy (v : Value) : bool :=
  match v with
  | VNone => false
  | VBool b => b
  | VNum q => negb (Qeq_bool q 0)
  | VStr s => negb (Str.eqb s "")
  | VList l => match l with [] => false | _ => true end
  | VDict d => match d with [] => false | _ => true end
  end.

(** The dict that [log_decision] appends to the decision log. *)
Module DecisionRecord.

Record t : Type := {
  timestamp : string;
  session_id : string;
  message_text : string;
  risk_level : string;
  aggregated_score : Q;
  ml_confidence_level : string;
  ml_score : Value;
  rule_score : Value;
  intent_score : Value;
  ml_weight : Value;
  rule_keywords : Value;
  intent_components : Value;
  decision_logic : Value;
  contextual_signals : Value;
}.

End DecisionRecord.

(** The dict that [add_feedback] appends to the feedback buffer. *)
Module FeedbackRecord.

Record t : Type := {
  timestamp : string;
  session_id : string;
  predicted_label : string;
  predicted_score : Q;
  ground_truth_label : string;
  feedback_source : string;
  notes : option string;
  ml_confidence_level : string;
  was_correct : bool;
  original_decision : DecisionRecord.t;
}.

End FeedbackRecord.

Record FeedbackLoopService : Type := {
  feedback_dir : string;
  decision_log : list DecisionRecord.t;
  feedback_buffer : list FeedbackRecord.t;
}.

(** [__init__]; [mkdir] is the outcome of creating the directory. *)
Definition init (feedback_dir : string) (mkdir : Result unit)
    : Result FeedbackLoopService :=
  let* _ := mkdir in
  Ok {| feedback_dir := feedback_dir; decision_log := []; feedback_buffer := [] |}.

(** [_flush_decisions]; [written] tells whether the [try:] block that
    writes the file ran through, in which case the log is emptied. *)
Definition _flush_decisions (svc : FeedbackLoopService) (written : bool)
    : FeedbackLoopService :=
  match decision_log svc with
  | [] => svc
  | _ =>
      if written
      then {| feedback_dir := feedback_dir svc; decision_log := [];
              feedback_buffer := feedback_buffer svc |}
      else svc
  end.

(** [_flush_feedback], likewise. *)
Definition _flush_feedback (svc : FeedbackLoopService) (written : bool)
    : FeedbackLoopService :=
  match feedback_buffer svc with
  | [] => svc
  | _ =>
      if written
      then {| feedback_dir := feedback_dir svc; decision_log := decision_log svc;
              feedback_buffer := [] |}
      else svc
  end.

(** [log_decision]. [round4] is [round(_, 4)], [now] the clock, and
    [written] the outcome of the flush, should one take place. The
    entries of the record are evaluated in the order of the source, so
    that the first missing key decides the exception. *)
Definition log_decision (round4 : Q → Q) (svc : FeedbackLoopService)
    (session_id message_text risk_level : string) (aggregated_score : Q)
    (ml_confidence_level : string) (explanation contextual_signals : Value)
    (now : string) (written : bool) : Result FeedbackLoopService :=
  let* ml_score := path explanation ["signals"; "ml"; "score"] in
  let* rule_score := path explanation ["signals"; "rules"; "score"] in
  let* intent_score := path explanation ["signals"; "intent"; "score"] in
  let* ml_weight := path explanation ["signals"; "ml"; "weight"] in
  let* rules := path explanation ["signals"; "rules"] in
  let* rule_keywords := get rules "keywords" (VList []) in
  let* details := path explanation ["signals"; "intent"; "details"] in
  let* intent_components := get details "components" (VDict []) in
  let* decision_logic := get explanation "decision_logic" (VStr "") in
  let decision_record :=
    {| DecisionRecord.timestamp := now;
       DecisionRecord.session_id := session_id;
       DecisionRecord.message_text := message_text;
       DecisionRecord.risk_level := risk_level;
       DecisionRecord.aggregated_score := round4 aggregated_score;
       DecisionRecord.ml_confidence_level := ml_confidence_level;
       DecisionRecord.ml_score := ml_score;
       DecisionRecord.rule_score := rule_score;
       DecisionRecord.intent_score := intent_score;
       DecisionRecord.ml_weight := ml_weight;
       DecisionRecord.rule_keywords := rule_keywords;
       DecisionRecord.intent_components := intent_components;
       DecisionRecord.decision_logic := decision_logic;
       DecisionRecord.contextual_signals :=
         if truthy contextual_signals then contextual_signals else VDict [] |} in
  let svc' :=
    {| feedback_dir := feedback_dir svc;
       decision_log := (decision_log svc ++ [decision_record])%list;
       feedback_buffer := feedback_buffer svc |} in
  Ok (if (100 <=? length (decision_log svc'))%nat
      then _flush_decisions svc' written
      else svc').

(** The search of [add_feedback]: the last record of the log that has
    the session id. *)
Definition find_decision (session_id : string) (log : list DecisionRecord.t)
    : option DecisionRecord.t :=
  find (fun record => Str.eqb (DecisionRecord.session_id record) session_id)
    (rev log).

(** The [feedback_record] that [add_feedback] builds. *)
Definition feedback_record (decision : DecisionRecord.t)
    (session_id ground_truth_label feedback_source : string)
    (notes : option string) (now : string) : FeedbackRecord.t :=
  {| FeedbackRecord.timestamp := now;
     FeedbackRecord.session_id := session_id;
     FeedbackRecord.predicted_label := DecisionRecord.risk_level decision;
     FeedbackRecord.predicted_score := DecisionRecord.aggregated_score decision;
     FeedbackRecord.ground_truth_label := ground_truth_label;
     FeedbackRecord.feedback_source := feedback_source;
     FeedbackRecord.notes := notes;
     FeedbackRecord.ml_confidence_level :=
       DecisionRecord.ml_confidence_level decision;
     FeedbackRecord.was_correct :=
       Str.eqb (DecisionRecord.risk_level decision) ground_truth_label;
     FeedbackRecord.original_decision := decision |}.

(** [add_feedback]; the error type it works out only reaches the log. *)
Definition add_feedback (svc : FeedbackLoopService)
    (session_id ground_truth_label feedback_source : string)
    (notes : option string) (now : string) (written : bool)
    : FeedbackLoopService :=
  match find_decision session_id (decision_log svc) with
  | None => svc
  | Some decision =>
      let record :=
        feedback_record decision session_id ground_truth_label feedback_source
          notes now in
      let svc' :=
        {| feedback_dir := feedback_dir svc;
           decision_log := decision_log svc;
           feedback_buffer := (feedback_buffer svc ++ [record])%list |} in
      if (50 <=? length (feedback_buffer svc'))%nat
      then _flush_feedback svc' written
      else svc'
  end.

(** One sample of the list that [get_retraining_data] returns. *)
Record TrainingSample : Type := {
  t_text : string;
  t_label : string;
  t_predicted_label : string;
  t_ml_confidence : string;
  t_ml_score : Value;
  t_rule_score : Value;
  t_intent_score : Value;
  t_was_error : bool;
}.

Definition training_sample (feedback : FeedbackRecord.t) : TrainingSample :=
  let decision := FeedbackRecord.original_decision feedback in
  {| t_text := DecisionRecord.message_text decision;
     t_label := FeedbackRecord.ground_truth_label feedback;
     t_predicted_label := FeedbackRecord.predicted_label feedback;
     t_ml_confidence := FeedbackRecord.ml_confidence_level feedback;
     t_ml_score := DecisionRecord.ml_score decision;
     t_rule_score := DecisionRecord.rule_score decision;
     t_intent_score := DecisionRecord.intent_score decision;
     t_was_error := negb (FeedbackRecord.was_correct feedback) |}.

Definition get_retraining_data (svc : FeedbackLoopService)
    (include_correct : bool) (min_score_threshold : Q) : list TrainingSample :=
  omap (fun feedback =>
          if negb include_correct && FeedbackRecord.was_correct feedback then None
          else if Qlt_bool (FeedbackRecord.predicted_score feedback)
                    min_score_threshold
          then None
          else Some (training_sample feedback))
    (feedback_buffer svc).

(** [sum(1 for x in l if p(x))] *)
Definition count_if {A} (p : A → bool) (l : list A) : Z :=
  Z.of_nat (length (filter (fun x => p x = true) l)).

(** The dict that [get_stats] returns. *)
Record LoopStats : Type := {
  total_decisions_logged : Z;
  total_feedback_received : Z;
  false_positives : Z;
  false_negatives : Z;
  accuracy : option Q;
  stats_feedback_dir : string;
}.

Definition get_stats (round4 : Q → Q) (svc : FeedbackLoopService) : LoopStats :=
  let total_decisions := Z.of_nat (length (decision_log svc)) in
  let total_feedback := Z.of_nat (length (feedback_buffer svc)) in
  let false_positives :=
    count_if (fun f => negb (FeedbackRecord.was_correct f)
                       && Str.eqb (FeedbackRecord.predicted_label f) "scam")
      (feedback_buffer svc) in
  let false_negatives :=
    count_if (fun f => negb (FeedbackRecord.was_correct f)
                       && Str.eqb (FeedbackRecord.ground_truth_label f) "scam")
      (feedback_buffer svc) in
  let accuracy :=
    if (0 <? total_feedback)%Z
    then
      let correct := count_if FeedbackRecord.was_correct (feedback_buffer svc) in
      inject_Z correct / inject_Z total_feedback
    else 0 in
  {| total_decisions_logged := total_decisions;
     total_feedback_received := total_feedback;
     false_positives := false_positives;
     false_negatives := false_negatives;
     accuracy := if (0 <? total_feedback)%Z then Some (round4 accuracy) else None;
     stats_feedback_dir := feedback_dir svc |}.

End FeedbackLoop.

(** * Vocabulary of the statements *)

Module Spec.

Import ScamDetector IntelligenceExtractor.

(** The eight families of [analyze_message] as a table:
    patterns, per-match weight, cap. *)
Definition families {F} (d : t F) : list (list Re.regex * Q * Q) := [
  (urgency_re d, 0.05, 0.15);
  (threat_re d, 0.08, 0.25);
  (request_re d, 0.05, 0.15);
  (sensitive_re d, 0.08, 0.25);
  (impersonation_re d, 0.05, 0.10);
  (money_re d, 0.05, 0.10);
  (upi_scam_re d, 0.10, 0.20);
  (financial_coercion_re d, 0.10, 0.20)
].

Definition family_score (text : string) (fam : list Re.regex * Q * Q) : Q :=
  let '(patterns, per_match, cap) := fam in
  Qmin (count_Q (_count_pattern_matches text patterns) * per_match) cap.

(** The claim's formula: the sum over the families of
    [min(count * per_match_weight, family_cap)]. *)
Definition capped_family_sum {F} (d : t F) (text : string) : Q :=
  Qsum (map (family_score text) (families d)).

(** What the loop of [analyze_session] sees: the results of
    [analyze_message] on the scammer's messages, in order. *)
Definition scammer_results {F} (d : t F) (msgs : list Message)
    : list (Q * list string) :=
  map (analyze_message d) (filter (fun m => from_scammer m = true) msgs).

(** The decimal digits that occur in a string, in order. *)
Definition digits_of (s : string) : list ascii :=
  filter (fun c => Str.is_digit c = true) (Str.chars s).

(** [clean[-4:]] as characters. *)
Definition last4 (clean : string) : list ascii :=
  drop (Str.len clean - 4) (Str.chars clean).

Definition kept_from (matches : list string) (m : string) : Prop :=
  ∃ c, c ∈ matches
       ∧ valid_account (strip_separators c) = true
       ∧ m = mask (strip_separators c).

(** The [clean] that [_filter_phone_numbers] validates: separators
    and "+" removed, then a leading "91" or "0" dropped from a number
    longer than ten characters. *)
Definition phone_clean (m : string) : string :=
  let clean := strip_phone m in
  if Str.startswith clean "91" && (10 <? Str.len clean)%nat then drop_chars 2 clean
  else if Str.startswith clean "0" && (10 <? Str.len clean)%nat then drop_chars 1 clean
  else clean.

(** [len(clean) == 10 and clean[0] in '6789'] *)
Definition phone_valid (clean : string) : bool :=
  (Str.len clean =? 10)%nat
  && Str.contains (Str.of_chars (take 1 (Str.chars clean))) "6789".

(** A character that [_filter_phone_numbers] strips. *)
Definition phone_separator (c : ascii) : Prop :=
  c = "-"%char ∨ Str.is_space c = true ∨ c = "+"%char.

(** A loop that appends [f x] for every valid [x] unless it is
    already there. *)
Definition append_new (valid : string → bool) (f : string → string)
    (acc : list string) (x : string) : list string :=
  if valid x
  then if Str.mem (f x) acc then acc else (acc ++ [f x])%list
  else acc.

(** The spellings of one mobile number that the patterns of the
    extractor can hand over. *)
Definition phone_spellings (d : string) : list string :=
  [d; "+91" +:+ d; "+91-" +:+ d; "+91 " +:+ d; "91" +:+ d; "91-" +:+ d; "0" +:+ d].

(** The test of [_filter_upi_ids] on one match: one "@", a handle
    that contains a known suffix or has at most ten characters, and
    that is none of the e-mail domains. *)
Definition upi_valid (m : string) : bool :=
  Str.contains "@" m &&
  match split "@"%char m with
  | [_; part1] =>
      let suffix := Str.lower part1 in
      (existsb (fun s => Str.contains s suffix) upi_suffixes
       || (Str.len suffix <=? 10)%nat)
      && negb (Str.mem suffix email_domains)
  | _ => false
  end.

(** The same test read on the reported, lower-case id. *)
Definition upi_like (u : string) : Prop :=
  ∃ name handle,
    split "@"%char u = [name; handle]
    ∧ (existsb (fun s => Str.contains s handle) upi_suffixes
       || (Str.len handle <=? 10)%nat) = true
    ∧ handle ∉ email_domains.

(** [is_safe] of [_filter_links]: a safe domain occurs in the
    lower-cased link. *)
Definition link_safe (m : string) : bool :=
  existsb (fun domain => Str.contains domain (Str.lower m)) safe_domains.

(** The normalisation of [_filter_links]. *)
Definition link_norm (m : string) : string :=
  if Str.startswith m "http" then m else "http://" +:+ m.

(** The five fields of [ExtractedIntelligence]. *)
Definition intel_fields : list (ExtractedIntelligence → gset string) :=
  [bankAccounts; upiIds; phoneNumbers; phishingLinks; suspiciousKeywords].

(** The words that [generate_agent_notes] looks for. *)
Definition tactic_triggers : list string :=
  ["urgent"; "immediately"; "asap"; "now"; "blocked"; "suspended";
   "legal action"; "arrest"; "prize"; "lottery"; "winner"; "reward"; "cashback";
   "bank"; "rbi"; "government"; "official"; "otp"; "pin"; "password"; "cvv";
   "upi"; "transfer"; "payment"].

(** All trigger words of [get_scam_type], in the order it tests them. *)
Definition scam_type_triggers : list string :=
  ["bank"; "account"; "blocked"; "suspended"; "otp"; "pin"; "password"; "cvv";
   "prize"; "lottery"; "winner"; "reward"; "upi"; "paytm"; "gpay"; "phonepe";
   "kyc"; "aadhaar"; "pan"].

(** No pattern of any family is found in the text. *)
Definition unmatched {F} (d : t F) (text : string) : Prop :=
  ∀ fam, fam ∈ families d → _count_pattern_matches text fam.1.1 = O.

End Spec.

Module FloatSpec.

Import FloatDetector.

(** What the loop of [analyze_session] sees: the results of
    [analyze_message] on the scammer's messages, in order. *)
Definition scammer_results {F} (d : t F) (msgs : list Message)
    : list (Float.float * list string) :=
  map (analyze_message d) (filter (fun m => from_scammer m = true) msgs).

(** The mean as the source takes it: the total from [0.0] over the
    number of scores, over 1 when there is none. *)
Definition mean (scores : list Float.float) : Float.float :=
  Float.div (Float.sum scores) (Float.of_nat (Nat.max (length scores) 1)).

(** [min(0.02 * distinct, 0.2)], as [distinct * 0.02] in the source. *)
Definition diversity_bonus (distinct : nat) : Float.float :=
  Float.min (Float.mul (Float.of_nat distinct) (Float.of_Q 0.02))
            (Float.of_Q 0.2).

End FloatSpec.

(** ** Sequences of calls to the session service *)

Module SessionOps.

Import SessionService.

(** One call to a method of [SessionService]. *)
Inductive Op : Type :=
| Create (session_id now : string)
| GetOrCreate (session_id now : string)
| AddMessage (session_id : string) (message : Message) (now : string)
| UpdateScamStatus (session_id : string) (suspected detected : bool)
    (confidence : Q) (now : string)
| UpdateIntelligence (session_id : string) (intelligence : ExtractedIntelligence)
    (now : string)
| MarkCallbackSent (session_id notes now : string)
| Delete (session_id : string).

(** The session a call addresses. *)
Definition target (op : Op) : string :=
  match op with
  | Create k _ | GetOrCreate k _ | AddMessage k _ _
  | UpdateScamStatus k _ _ _ _ | UpdateIntelligence k _ _
  | MarkCallbackSent k _ _ | Delete k => k
  end.

(** The module-level dict after a call that may raise; a call that
    raises has not touched it. *)
Definition after (r : Result (sessions * SessionState)) (store : sessions)
    : sessions :=
  match r with
  | Ok (store', _) => store'
  | Raise _ => store
  end.

Definition apply (store : sessions) (op : Op) : sessions :=
  match op with
  | Create k now => (create_session store k now).1
  | GetOrCreate k now => (get_or_create_session store k now).1
  | AddMessage k m now => after (add_message store k m now) store
  | UpdateScamStatus k s d c now => after (update_scam_status store k s d c now) store
  | UpdateIntelligence k i now => after (update_intelligence store k i now) store
  | MarkCallbackSent k notes now => after (mark_callback_sent store k notes now) store
  | Delete k => (delete_session store k).1
  end.

Definition run (ops : list Op) (store : sessions) : sessions :=
  fold_left apply ops store.

(** One call from outside: a method of the service as above, or
    [update_session] handed a session object directly. *)
Inductive Call : Type :=
| Method (op : Op)
| UpdateSession (session : SessionState) (now : string).

Definition call (store : sessions) (c : Call) : sessions :=
  match c with
  | Method op => apply store op
  | UpdateSession session now => (update_session store session now).1
  end.

Definition run_calls (calls : list Call) (store : sessions) : sessions :=
  fold_left call calls store.

(** A session that is handed to [update_session] directly has
    [totalMessages == len(messages)]. *)
Definition hands_counted (c : Call) : Prop :=
  match c with
  | Method _ => True
  | UpdateSession session _ =>
      totalMessages session = Z.of_nat (length (messages session))
  end.

(** Every session is stored under its own [sessionId]. *)
Definition well_keyed (store : sessions) : Prop :=
  ∀ k s, store !! k = Some s → sessionId s = k.

(** [totalMessages == len(messages)] for every stored session. *)
Definition counted (store : sessions) : Prop :=
  ∀ k s, store !! k = Some s → totalMessages s = Z.of_nat (length (messages s)).

Definition intel_included (a b : ExtractedIntelligence) : Prop :=
  bankAccounts a ⊆ bankAccounts b ∧ upiIds a ⊆ upiIds b
  ∧ phoneNumbers a ⊆ phoneNumbers b ∧ phishingLinks a ⊆ phishingLinks b
  ∧ suspiciousKeywords a ⊆ suspiciousKeywords b.

(** [s'] is [s] after more evidence: nothing recorded in [s] is lost. *)
Definition grows (s s' : SessionState) : Prop :=
  sessionId s' = sessionId s
  ∧ messages s `prefix_of` messages s'
  ∧ (totalMessages s <= totalMessages s')%Z
  ∧ (scamSuspected s = true → scamSuspected s' = true)
  ∧ (scamDetected s = true → scamDetected s' = true)
  ∧ scamConfidenceScore s <= scamConfidenceScore s'
  ∧ (callbackSent s = true → callbackSent s' = true)
  ∧ intel_included (extractedIntelligence s) (extractedIntelligence s').

(** No call of the sequence creates or deletes session [k]. *)
Definition keeps (k : string) (ops : list Op) : Prop :=
  Forall (fun op => target op = k →
                    match op with Create _ _ | Delete _ => False | _ => True end) ops.

End SessionOps.

(** ** Sequences of calls to the review queue *)

Module QueueOps.

Import ReviewQueue.

Section Ops.

Context {V : Type}.

(** One call to [add_to_queue] or [mark_reviewed]. *)
Inductive Op : Type :=
| Add (session_id message_text risk_level : string) (aggregated_score : Q)
    (explanation : gmap string V) (now : string)
| Mark (session_id final_decision : string) (reviewer_notes : option string).

(** The service after a call. *)
Definition apply (svc : ReviewQueueService V) (op : Op) : ReviewQueueService V :=
  match op with
  | Add session_id message_text risk_level aggregated_score explanation now =>
      (add_to_queue svc session_id message_text risk_level aggregated_score
         explanation now).2
  | Mark session_id final_decision reviewer_notes =>
      (mark_reviewed svc session_id final_decision reviewer_notes).2
  end.

Definition run (ops : list Op) (svc : ReviewQueueService V) : ReviewQueueService V :=
  fold_left apply ops svc.

(** An item of the session that still waits for review. *)
Definition pending_for (session_id' : string) (item : ReviewQueueItem V) : Prop :=
  session_id item = session_id' ∧ reviewed item = false.


End Ops.

Arguments Op : clear implicits.

End QueueOps.

(** ** Sequences of calls to the feedback loop *)

Module LoopOps.

Import FeedbackLoop.

(** One call to [log_decision] or [add_feedback]. *)
Inductive Op : Type :=
| LogDecision (session_id message_text risk_level : string) (aggregated_score : Q)
    (ml_confidence_level : string) (explanation contextual_signals : Value)
    (now : string) (written : bool)
| AddFeedback (session_id ground_truth_label feedback_source : string)
    (notes : option string) (now : string) (written : bool).

(** The service after a call; a call that raises leaves it as it was. *)
Definition apply (round4 : Q → Q) (svc : FeedbackLoopService) (op : Op)
    : FeedbackLoopService :=
  match op with
  | LogDecision session_id message_text risk_level aggregated_score
      ml_confidence_level explanation contextual_signals now written =>
      try_except
        (log_decision round4 svc session_id message_text risk_level
           aggregated_score ml_confidence_level explanation contextual_signals
           now written)
        svc
  | AddFeedback session_id ground_truth_label feedback_source notes now written =>
      add_feedback svc session_id ground_truth_label feedback_source notes now
        written
  end.

Definition run (round4 : Q → Q) (ops : list Op) (svc : FeedbackLoopService)
    : FeedbackLoopService :=
  fold_left (apply round4) ops svc.

(** Whether the flush of a call, should one take place, succeeds. *)
Definition written_of (op : Op) : bool :=
  match op with
  | LogDecision _ _ _ _ _ _ _ _ written => written
  | AddFeedback _ _ _ _ _ written => written
  end.

(** What [add_feedback] guarantees of a record of the buffer. *)
Definition record_ok (f : FeedbackRecord.t) : Prop :=
  (FeedbackRecord.was_correct f = true
   ↔ FeedbackRecord.predicted_label f = FeedbackRecord.ground_truth_label f)
  ∧ FeedbackRecord.predicted_label f
    = DecisionRecord.risk_level (FeedbackRecord.original_decision f)
  ∧ FeedbackRecord.session_id f
    = DecisionRecord.session_id (FeedbackRecord.original_decision f).

End LoopOps.

(** * Sample data *)

Module Samples.

Import ScamDetector.

Definition sample_store : SessionService.sessions :=
  (SessionService.create_session ∅ "s-1" "2025-01-01T00:00:00").1.

Definition confirmed_session (n : Z) : SessionState :=
  {| sessionId := "s-1"; messages := []; totalMessages := n;
     scamSuspected := true; scamDetected := true; scamConfidenceScore := 0.9;
     extractedIntelligence := Intel.empty; callbackSent := false;
     agentNotes := ""; updatedAt := "2025-01-01T00:00:00" |}.

Definition upi_message : Message :=
  {| sender := "scammer";
     text := "Pay to fraud.one@ybl or call 9876543210, account 123456789012";
     timestamp := "2025-01-01T00:00:00Z" |}.

(** A disk holding a classifier that answers [[0.2, 0.8]] and a
    vectorizer that accepts every text. *)
Definition sample_disk (path : string) : Result (Obj unit) :=
  if Str.eqb path "app/ai_model/models/spam_model.pkl"
  then Ok (Classifier (fun _ => Ok [[0.2; 0.8]]))
  else if Str.eqb path "app/ai_model/models/tfidf_vectorizer.pkl"
  then Ok (Vectorizer (fun _ => Ok tt))
  else Raise "FileNotFoundError".

(** The detector that [__init__] builds from [sample_disk]. *)
Definition sample_detector : t unit :=
  _compile_patterns (Classifier (fun _ => Ok [[0.2; 0.8]]))
                    (Vectorizer (fun _ => Ok tt)).

Definition scammer_says (t : string) : Message :=
  {| sender := "scammer"; text := t; timestamp := "2025-01-01T00:00:00Z" |}.

(** A message that reaches the cap of every family. *)
Definition saturating_message : Message :=
  scammer_says
    ("URGENT: act now, today itself! Your bank account is blocked and suspended; "
     +:+ "police and court legal action. Verify, confirm and update KYC immediately: "
     +:+ "share OTP, PIN, password and CVV with the RBI official. "
     +:+ "Send UPI ID to claim the Rs 5000 prize refund; "
     +:+ "UPI blocked if card stays blocked.").

(** A disk on which the classifier file cannot be loaded. *)
Definition disk_without_model (path : string) : Result (Obj unit) :=
  if Str.eqb path "app/ai_model/models/tfidf_vectorizer.pkl"
  then Ok (Vectorizer (fun _ => Ok tt))
  else Raise "FileNotFoundError".

(** A vectorizer whose vocabulary does not fit the classifier. *)
Definition mismatched_detector : t unit :=
  _compile_patterns (Classifier (fun _ => Raise "ValueError"))
                    (Vectorizer (fun _ => Ok tt)).

Definition two_message_session : SessionState :=
  {| sessionId := "s-1";
     messages := [saturating_message;
                  {| sender := "user"; text := "Which bank is this?";
                     timestamp := "2025-01-01T00:00:30Z" |};
                  scammer_says
                    "Share your UPI ID to reactivate your blocked account"];
     totalMessages := 3; scamSuspected := false; scamDetected := false;
     scamConfidenceScore := 0; extractedIntelligence := Intel.empty;
     callbackSent := false; agentNotes := ""; updatedAt := "2025-01-01T00:00:00" |}.

(** Two sequences of calls to the session service. *)
Definition sample_ops : list SessionOps.Op := [
  SessionOps.Create "s-1" "t0";
  SessionOps.AddMessage "s-1" saturating_message "t1";
  SessionOps.AddMessage "s-2" upi_message "t2";
  SessionOps.UpdateScamStatus "s-1" true false 0.7 "t3";
  SessionOps.GetOrCreate "s-2" "t4";
  SessionOps.AddMessage "s-2" upi_message "t5";
  SessionOps.MarkCallbackSent "s-1" "" "t6";
  SessionOps.Delete "s-2"
].

(** Calls from outside, two of which hand [update_session] a session:
    a consistent one under a new id, and one that replaces "s-1". *)
Definition sample_calls : list SessionOps.Call := [
  SessionOps.Method (SessionOps.Create "s-1" "t0");
  SessionOps.Method (SessionOps.AddMessage "s-1" saturating_message "t1");
  SessionOps.UpdateSession two_message_session "t2";
  SessionOps.UpdateSession (confirmed_session 0) "t3";
  SessionOps.Method (SessionOps.AddMessage "s-1" upi_message "t4");
  SessionOps.Method (SessionOps.Delete "s-9")
].

Definition growing_ops : list SessionOps.Op := [
  SessionOps.AddMessage "s-1" saturating_message "t1";
  SessionOps.UpdateScamStatus "s-1" true true 0.9 "t2";
  SessionOps.Create "s-2" "t3";
  SessionOps.UpdateScamStatus "s-1" false false 0.1 "t4";
  SessionOps.Delete "s-2"
].

(** Two sessions with one UPI id and two keywords each, for the notes. *)
Definition noted_session (upi extra : string) : SessionState :=
  {| sessionId := "s-1"; messages := []; totalMessages := 4;
     scamSuspected := true; scamDetected := true; scamConfidenceScore := 0.9;
     extractedIntelligence :=
       {| bankAccounts := ∅; upiIds := {[ upi ]}; phoneNumbers := ∅;
          phishingLinks := ∅; suspiciousKeywords := {[ "urgent"; extra ]} |};
     callbackSent := false; agentNotes := ""; updatedAt := "2025-01-01T00:00:00" |}.

End Samples.

Module FloatSamples.

Import FloatDetector.

(** A classifier that answers [[0.35, 0.65]] for every text. *)
Definition cautious_detector : t unit :=
  _compile_patterns
    (Classifier (fun _ => Ok [[Float.of_Q 0.35; Float.of_Q 0.65]]))
    (Vectorizer (fun _ => Ok tt)).

(** A classifier that answers [[0.9, 0.1]] for every text. *)
Definition alarmed_detector : t unit :=
  _compile_patterns
    (Classifier (fun _ => Ok [[Float.of_Q 0.9; Float.of_Q 0.1]]))
    (Vectorizer (fun _ => Ok tt)).

Definition session_of (msgs : list Message) : SessionState :=
  {| sessionId := "s-1"; messages := msgs;
     totalMessages := Z.of_nat (length msgs);
     scamSuspected := false; scamDetected := false;
     scamConfidenceScore := 0; extractedIntelligence := Intel.empty;
     callbackSent := false; agentNotes := ""; updatedAt := "2025-01-01T00:00:00" |}.

(** Three messages of the scammer with eight keywords between them;
    none reaches a rule score of 0.35. *)
Definition rounding_session : SessionState :=
  session_of [Samples.scammer_says "Send your UPI PIN";
              Samples.scammer_says "Share OTP";
              Samples.scammer_says "Pay now"].

(** The scenario of the specification: one message without any
    keyword, then a second one. *)
Definition first_contact : SessionState :=
  session_of [Samples.scammer_says "Hello, this is about your parcel"].

Definition second_contact : SessionState :=
  session_of [Samples.scammer_says "Hello, this is about your parcel";
              {| sender := "user"; text := "Which parcel?";
                 timestamp := "2025-01-01T00:00:30Z" |};
              Samples.scammer_says "The one we could not deliver"].

End FloatSamples.

Module QueueSamples.

Import ReviewQueue QueueOps.

(** A queue for two items. *)
Definition small_queue : ReviewQueueService string :=
  {| max_queue_size := 2; queue := []; reviewed_items := [] |}.

(** Three cases are queued, the third pushing the first out of the
    queue; the second and the third are reviewed. *)
Definition review_ops : list (Op string) := [
  Add "s-1" "Your account is blocked" "suspicious" 0.5 ∅ "2025-01-01T00:00:00";
  Add "s-2" "Share the OTP now" "scam" 0.65
    {[ "confidence_level" := "low" ]} "2025-01-01T00:01:00";
  Mark "s-2" "scam" (Some "asks for an OTP");
  Add "s-3" "You won a prize" "suspicious" 0.45 ∅ "2025-01-01T00:02:00";
  Mark "s-3" "safe" None
].

End QueueSamples.

Module LoopSamples.

Import FeedbackLoop LoopOps.

(** A stand-in for [round(_, 4)]: four decimals, halves upwards. *)
Definition sample_round4 (q : Q) : Q :=
  let x := q * 10000 + (1 # 2) in
  inject_Z (Qnum x / Zpos (Qden x)) / 10000.

(** An explanation with the keys that [log_decision] reads. *)
Definition sample_explanation : Value :=
  VDict [
    ("signals",
     VDict [
       ("ml", VDict [("score", VNum 0.9); ("weight", VNum 0.8)]);
       ("rules", VDict [("score", VNum 0.4); ("keywords", VList [VStr "otp"])]);
       ("intent", VDict [("score", VNum 0.5); ("details", VDict [])])
     ]);
    ("decision_logic", VStr "weighted")
  ].

Definition fresh_loop : FeedbackLoopService :=
  {| feedback_dir := "feedback_data"; decision_log := []; feedback_buffer := [] |}.

(** Two decisions for one session, one for another, a call that
    raises for want of [signals], and three feedbacks. *)
Definition loop_ops : list Op := [
  LogDecision "s-1" "Share the OTP now" "suspicious" 0.55 "low"
    sample_explanation VNone "2025-01-01T00:00:00" true;
  LogDecision "s-1" "Share the OTP or be arrested" "scam" 0.81234 "high"
    sample_explanation VNone "2025-01-01T00:01:00" true;
  LogDecision "s-2" "Lunch at noon?" "scam" 0.61 "low"
    sample_explanation VNone "2025-01-01T00:02:00" true;
  LogDecision "s-3" "Hello" "safe" 0.1 "high" (VDict []) VNone
    "2025-01-01T00:03:00" true;
  AddFeedback "s-1" "scam" "human_review" None "2025-01-02T00:00:00" true;
  AddFeedback "s-2" "safe" "human_review" (Some "a friend") "2025-01-02T00:01:00"
    true;
  AddFeedback "s-3" "safe" "user_report" None "2025-01-02T00:02:00" true
].

(** The record that [log_decision] makes of a message of session [sid]. *)
Definition sample_decision (sid : string) : DecisionRecord.t :=
  {| DecisionRecord.timestamp := "2025-01-01T00:00:00";
     DecisionRecord.session_id := sid;
     DecisionRecord.message_text := "Share the OTP now";
     DecisionRecord.risk_level := "scam";
     DecisionRecord.aggregated_score := 0.8;
     DecisionRecord.ml_confidence_level := "high";
     DecisionRecord.ml_score := VNum 0.9;
     DecisionRecord.rule_score := VNum 0.4;
     DecisionRecord.intent_score := VNum 0.5;
     DecisionRecord.ml_weight := VNum 0.8;
     DecisionRecord.rule_keywords := VList [VStr "otp"];
     DecisionRecord.intent_components := VDict [];
     DecisionRecord.decision_logic := VStr "weighted";
     DecisionRecord.contextual_signals := VDict [] |}.

(** A service that has logged ninety-nine decisions. *)
Definition nearly_full_loop : FeedbackLoopService :=
  {| feedback_dir := "feedback_data";
     decision_log := replicate 99 (sample_decision "s-1");
     feedback_buffer := [] |}.

(** The training sample that the feedback on session "s-2" gives. *)
Definition error_sample : TrainingSample :=
  {| t_text := "Lunch at noon?"; t_label := "safe"; t_predicted_label := "scam";
     t_ml_confidence := "low"; t_ml_score := VNum 0.9; t_rule_score := VNum 0.4;
     t_intent_score := VNum 0.5; t_was_error := true |}.

End LoopSamples.

(** * Properties *)

(** ** Comparisons on scores *)

Lemma Qlt_bool_iff (a b : Q) : Qlt_bool a b = true ↔ a < b.
Proof.
  unfold Qlt_bool. rewrite negb_true_iff.
  split.
  - intros H. apply Qnot_le_lt. intros Hle.
    apply Qle_bool_iff in Hle. congruence.
  - intros H. destruct (Qle_bool b a) eqn:E; [|reflexivity].
    apply Qle_bool_iff in E. exfalso. eapply Qlt_not_le; eauto.
Qed.

Lemma Qlt_bool_false_iff (a b : Q) : Qlt_bool a b = false ↔ b <= a.
Proof.
  unfold Qlt_bool. rewrite negb_false_iff. apply Qle_bool_iff.
Qed.

Lemma Qle_bool_false_iff (a b : Q) : Qle_bool a b = false ↔ b < a.
Proof.
  rewrite <- Qlt_bool_iff. unfold Qlt_bool.
  destruct (Qle_bool a b); simpl; split; congruence.
Qed.

Lemma count_Q_nonneg (n : nat) : 0 <= count_Q n.
Proof.
  unfold count_Q. change 0 with (inject_Z 0). rewrite <- Zle_Qle. lia.
Qed.

Lemma count_Q_pos (n : nat) : (0 < n)%nat → 0 < count_Q n.
Proof.
  intros H. unfold count_Q. change 0 with (inject_Z 0). rewrite <- Zlt_Qlt. lia.
Qed.

(** ** The session store: [update_scam_status] *)

Module SessionFacts.

Import Spec Samples.

Import SessionService.

Lemma update_scam_status_found store session_id s suspected detected confidence now :
  store !! session_id = Some s →
  ∃ s', update_scam_status store session_id suspected detected confidence now
        = Ok (<[sessionId s := s']> store, s')
        ∧ scamSuspected s' = suspected || scamSuspected s
        ∧ scamDetected s' = detected || scamDetected s
        ∧ scamConfidenceScore s' = Qmax confidence (scamConfidenceScore s)
        ∧ sessionId s' = sessionId s
        ∧ extractedIntelligence s' = extractedIntelligence s
        ∧ callbackSent s' = callbackSent s.
Proof.
  intros Hs. unfold update_scam_status, lookup_or_raise, get_session.
  rewrite Hs. simpl. eexists. split; [reflexivity|]. simpl. auto 10.
Qed.

Lemma update_scam_status_missing store session_id suspected detected confidence now :
  store !! session_id = None →
  raises (update_scam_status store session_id suspected detected confidence now).
Proof.
  intros Hs. unfold update_scam_status, lookup_or_raise, get_session.
  rewrite Hs. exact I.
Qed.

(** C4, as the code has it. For a stored session, [update_scam_status]
    with any arguments keeps [scamSuspected] and [scamDetected] once
    they are true, makes [scamConfidenceScore] the maximum of its old
    value and the supplied confidence (so it never decreases), and
    keeps "detected implies suspected" when it held before and the
    call does not report a detection without a suspicion. *)
Theorem update_scam_status_preserves
    store session_id s suspected detected confidence now :
  store !! session_id = Some s →
  ∃ store' s',
    update_scam_status store session_id suspected detected confidence now
      = Ok (store', s')
    ∧ store' !! sessionId s = Some s'
    ∧ (scamSuspected s = true → scamSuspected s' = true)
    ∧ (scamDetected s = true → scamDetected s' = true)
    ∧ scamConfidenceScore s' == Qmax (scamConfidenceScore s) confidence
    ∧ scamConfidenceScore s <= scamConfidenceScore s'
    ∧ confidence <= scamConfidenceScore s'
    ∧ ((scamDetected s = true → scamSuspected s = true) →
       (detected = true → suspected = true ∨ scamSuspected s = true) →
       scamDetected s' = true → scamSuspected s' = true).
Proof.
  intros Hs.
  destruct (update_scam_status_found store session_id s suspected detected
              confidence now Hs) as (s' & Hrun & Hsus & Hdet & Hscore & _).
  exists (<[sessionId s := s']> store), s'.
  split; [exact Hrun|].
  split; [apply lookup_insert_eq|].
  rewrite Hsus, Hdet, Hscore.
  repeat split.
  - intros ->. apply orb_true_r.
  - intros ->. apply orb_true_r.
  - apply Q.max_comm.
  - apply Q.le_max_r.
  - apply Q.le_max_l.
  - intros Hinv Hargs Hd.
    apply orb_true_iff in Hd. apply orb_true_iff.
    destruct Hd as [Hd|Hd].
    + destruct (Hargs Hd); auto.
    + auto.
Qed.

Lemma update_scam_status_preserves_witness :
  ∃ store' s',
    update_scam_status sample_store "s-1" true true 0.9 "2025-01-01T00:00:05"
      = Ok (store', s')
    ∧ scamDetected s' = true ∧ scamSuspected s' = true
    ∧ 0.9 <= scamConfidenceScore s'.
Proof.
  destruct (update_scam_status_preserves sample_store "s-1"
              (new_session "s-1" "2025-01-01T00:00:00") true true 0.9
              "2025-01-01T00:00:05")
    as (store' & s' & Hrun & _ & _ & _ & _ & _ & Hc & Hinv).
  - reflexivity.
  - exists store', s'. split; [exact Hrun|].
    assert (Hd : scamDetected s' = true).
    { unfold update_scam_status in Hrun. vm_compute in Hrun.
      injection Hrun as _ <-. reflexivity. }
    split; [exact Hd|]. split; [|exact Hc].
    apply Hinv; [discriminate | left; reflexivity | exact Hd].
Defined.

(** C4 as stated fails: on a fresh session, a call that reports a
    detection without a suspicion leaves [scamDetected] true and
    [scamSuspected] false. *)
Lemma update_scam_status_detected_unsuspected :
  ∃ store' s',
    update_scam_status sample_store "s-1" false true 0.9 "2025-01-01T00:00:05"
      = Ok (store', s')
    ∧ scamDetected s' = true
    ∧ scamSuspected s' = false
    ∧ ¬ (scamDetected s' = true → scamSuspected s' = true).
Proof.
  eexists _, _. split; [reflexivity|]. simpl.
  split; [reflexivity|]. split; [reflexivity|].
  intros H. specialize (H eq_refl). discriminate.
Qed.

End SessionFacts.

(** ** The callback gate: [should_send_callback] *)

Module CallbackFacts.

Import Spec Samples.

Import CallbackService.

Lemma min_messages_default : min_messages_for_callback default_settings = 3%Z.
Proof. reflexivity. Qed.

(** C9. [should_send_callback] is true exactly when the callback has
    not been sent, the scam is detected, [totalMessages] has reached
    [min_messages_for_callback] (3 by default), and the extracted
    intelligence is non-empty or the confidence score is at least
    0.8; below the minimum message count it is false whatever the
    other fields are. *)
Theorem should_send_callback_iff (settings : Settings) (session : SessionState) :
  (should_send_callback settings session = true ↔
     callbackSent session = false
     ∧ scamDetected session = true
     ∧ (min_messages_for_callback settings <= totalMessages session)%Z
     ∧ (Intel.is_empty (extractedIntelligence session) = false
        ∨ 0.8 <= scamConfidenceScore session))
  ∧ ((totalMessages session < min_messages_for_callback settings)%Z →
     should_send_callback settings session = false)
  ∧ min_messages_for_callback default_settings = 3%Z.
Proof.
  unfold should_send_callback.
  destruct (callbackSent session) eqn:Hsent;
    destruct (scamDetected session) eqn:Hdet; simpl;
    destruct (Z.ltb_spec (totalMessages session) (min_messages_for_callback settings))
      as [Hlt|Hge];
    destruct (Intel.is_empty (extractedIntelligence session)) eqn:Hempty;
    destruct (Qlt_bool (scamConfidenceScore session) 0.8) eqn:Hconf;
    try apply Qlt_bool_iff in Hconf; try apply Qlt_bool_false_iff in Hconf;
    (split; [split|split; [|reflexivity]]);
    try (intros; discriminate); try reflexivity; try lia;
    try (intros (? & ? & ? & ?); first [discriminate | lia]).
  all: try (intros _; repeat split; auto; fail).
  intros (_ & _ & _ & [?|Hle]); [discriminate|].
  exfalso. eapply Qlt_not_le; eauto.
Qed.

Lemma should_send_callback_iff_witness :
  should_send_callback default_settings (confirmed_session 2) = false
  ∧ should_send_callback default_settings (confirmed_session 3) = true.
Proof.
  split.
  - apply (should_send_callback_iff default_settings (confirmed_session 2)).
    simpl. lia.
  - apply (should_send_callback_iff default_settings (confirmed_session 3)).
    simpl. repeat split; [lia|]. right. unfold Qle. simpl. lia.
Defined.

End CallbackFacts.

(** ** Bank-account masking: [_filter_bank_accounts] *)

Module BankFacts.

Import Spec Samples.

Import IntelligenceExtractor.

Lemma chars_of_chars (l : list ascii) : Str.chars (Str.of_chars l) = l.
Proof. apply list_ascii_of_string_of_list_ascii. Qed.

Lemma chars_append (a b : string) :
  Str.chars (a +:+ b) = (Str.chars a ++ Str.chars b)%list.
Proof.
  unfold Str.chars. induction a as [|c a IH]; simpl; [reflexivity|].
  f_equal. exact IH.
Qed.

Lemma valid_account_inv (clean : string) :
  valid_account clean = true →
  (9 <= Str.len clean <= 18)%nat ∧ Forall (fun c => Str.is_digit c = true) (Str.chars clean).
Proof.
  unfold valid_account, Str.isdigit, Str.len.
  rewrite !andb_true_iff, !Nat.leb_le.
  intros [[Hlo Hhi] Hd]. split; [lia|].
  destruct (Str.chars clean) as [|c l] eqn:E; [discriminate|].
  apply Forall_forall. intros x Hx.
  rewrite forallb_forall in Hd. apply Hd. apply list_elem_of_In. exact Hx.
Qed.

Lemma filter_all {A} (P : A → Prop) `{∀ x, Decision (P x)} (l : list A) :
  Forall P l → filter P l = l.
Proof.
  induction 1 as [|x l Hx _ IH]; [reflexivity|].
  rewrite filter_cons_True by assumption. f_equal. exact IH.
Qed.

(** The masked form keeps exactly the last four digits. *)
Lemma mask_shape (clean : string) :
  valid_account clean = true →
  Str.chars (mask clean) = (Str.chars "XXXX-XXXX-" ++ last4 clean)%list
  ∧ length (last4 clean) = 4%nat
  ∧ digits_of (mask clean) = last4 clean
  ∧ Str.len (mask clean) = 14%nat.
Proof.
  intros Hv. destruct (valid_account_inv clean Hv) as [[Hlo Hhi] Hd].
  assert (Hm : Str.chars (mask clean)
               = (Str.chars "XXXX-XXXX-" ++ last4 clean)%list).
  { unfold mask, Str.suffix. rewrite chars_append, chars_of_chars. reflexivity. }
  assert (Hl : length (last4 clean) = 4%nat).
  { unfold last4. rewrite length_drop. unfold Str.len in *. lia. }
  split; [exact Hm|]. split; [exact Hl|]. split.
  - unfold digits_of. rewrite Hm, filter_app.
    change (filter (fun c => Str.is_digit c = true) (Str.chars "XXXX-XXXX-"))
      with (@nil ascii).
    simpl. apply filter_all. unfold last4. apply Forall_drop. exact Hd.
  - unfold Str.len. rewrite Hm, length_app, Hl. reflexivity.
Qed.

Lemma bank_step_elem (acc : list string) (c m : string) :
  m ∈ bank_step acc c ↔
  m ∈ acc ∨ (valid_account (strip_separators c) = true ∧ m = mask (strip_separators c)).
Proof.
  unfold bank_step, Str.mem.
  destruct (valid_account (strip_separators c)) eqn:Hv.
  - case_bool_decide as Hin.
    + split; [auto|]. intros [?|[_ ->]]; assumption.
    + rewrite elem_of_app, list_elem_of_singleton. split.
      * intros [?| ->]; auto.
      * intros [?|[_ ->]]; auto.
  - split; [auto|]. intros [?|[? _]]; [assumption|discriminate].
Qed.

Lemma bank_fold_elem (matches acc : list string) (m : string) :
  m ∈ fold_left bank_step matches acc ↔ m ∈ acc ∨ kept_from matches m.
Proof.
  revert acc. induction matches as [|c matches IH]; intros acc; simpl.
  - split; [auto|]. intros [?|(c & Hc & _)]; [assumption|].
    apply elem_of_nil in Hc. contradiction.
  - rewrite IH, bank_step_elem. unfold kept_from. split.
    + intros [[?|[Hv ->]]|(c' & Hc' & Hv & ->)]; [auto| |].
      * right. exists c. split; [left|]. auto.
      * right. exists c'. split; [right; assumption|]. auto.
    + intros [?|(c' & Hc' & Hv & ->)]; [auto|].
      apply elem_of_cons in Hc' as [->|Hc']; [auto|].
      right. exists c'. auto.
Qed.

Lemma bank_step_NoDup (acc : list string) (c : string) :
  NoDup acc → NoDup (bank_step acc c).
Proof.
  intros Hnd. unfold bank_step, Str.mem.
  destruct (valid_account (strip_separators c)); [|assumption].
  case_bool_decide as Hin; [assumption|].
  apply NoDup_app. split; [assumption|]. split.
  - intros x Hx Hx'. apply list_elem_of_singleton in Hx'. subst. contradiction.
  - apply NoDup_singleton.
Qed.

Lemma bank_fold_NoDup (matches acc : list string) :
  NoDup acc → NoDup (fold_left bank_step matches acc).
Proof.
  revert acc. induction matches as [|c matches IH]; intros acc Hnd; simpl;
    [assumption|].
  apply IH, bank_step_NoDup, Hnd.
Qed.

(** C6. A masked account is in the result of [_filter_bank_accounts]
    exactly when some candidate, once its separators are stripped,
    is 9 to 18 digits long, and it is then ["XXXX-XXXX-"] followed by
    the last four characters of that stripped candidate; the digits
    occurring in a stored string are those four and no others, and
    no stored string occurs twice. *)
Theorem filter_bank_accounts_masked (matches : list string) :
  NoDup (_filter_bank_accounts matches)
  ∧ ∀ m, m ∈ _filter_bank_accounts matches ↔
      ∃ c, c ∈ matches
           ∧ (9 <= Str.len (strip_separators c) <= 18)%nat
           ∧ Str.isdigit (strip_separators c) = true
           ∧ m = "XXXX-XXXX-" +:+ Str.suffix 4 (strip_separators c)
           ∧ Str.chars m
             = (Str.chars "XXXX-XXXX-" ++ last4 (strip_separators c))%list
           ∧ length (last4 (strip_separators c)) = 4%nat
           ∧ digits_of m = last4 (strip_separators c)
           ∧ Str.len m = 14%nat.
Proof.
  split.
  - apply bank_fold_NoDup, NoDup_nil_2.
  - intros m. unfold _filter_bank_accounts. rewrite bank_fold_elem. split.
    + intros [Hnil|(c & Hc & Hv & ->)]; [apply elem_of_nil in Hnil; contradiction|].
      exists c. split; [assumption|].
      destruct (mask_shape _ Hv) as (H1 & H2 & H3 & H4).
      pose proof Hv as Hv'. unfold valid_account in Hv'.
      rewrite !andb_true_iff, !Nat.leb_le in Hv'. destruct Hv' as [[? ?] ?].
      repeat split; auto.
    + intros (c & Hc & [Hlo Hhi] & Hd & -> & _). right. exists c.
      split; [assumption|]. split; [|reflexivity].
      unfold valid_account. rewrite !andb_true_iff, !Nat.leb_le. auto.
Qed.

Example filter_bank_accounts_sample :
  _filter_bank_accounts
    ["1234-5678-9012-3456"; "123456789012"; "12345678"; "1234 5678 9012 3456";
     "000000003456"; "12345678a"; "1234567890123456789"]
  = ["XXXX-XXXX-3456"; "XXXX-XXXX-9012"].
Proof. vm_compute. reflexivity. Qed.

End BankFacts.

(** ** Merging extracted intelligence *)

Module MergeFacts.

Import Spec Samples.

Import SessionService.

Lemma union_absorb_r (X Y : gset string) : X ∪ Y ∪ Y = X ∪ Y.
Proof. rewrite <- (assoc_L (∪)), (idemp_L (∪) Y). reflexivity. Qed.

Lemma merge_idemp_r (a b : ExtractedIntelligence) :
  Intel.merge (Intel.merge a b) b = Intel.merge a b.
Proof.
  unfold Intel.merge. simpl. f_equal; apply union_absorb_r.
Qed.

Lemma merge_comm (a b : ExtractedIntelligence) :
  Intel.merge a b = Intel.merge b a.
Proof.
  unfold Intel.merge. f_equal; apply (comm_L (∪)).
Qed.

Lemma merge_assoc (a b c : ExtractedIntelligence) :
  Intel.merge a (Intel.merge b c) = Intel.merge (Intel.merge a b) c.
Proof.
  unfold Intel.merge. simpl. f_equal; apply (assoc_L (∪)).
Qed.

Lemma merge_empty_l (a : ExtractedIntelligence) : Intel.merge Intel.empty a = a.
Proof.
  destruct a. unfold Intel.merge, Intel.empty. simpl.
  f_equal; apply (left_id_L ∅ (∪)).
Qed.

Lemma update_intelligence_found store session_id s intelligence now :
  store !! session_id = Some s →
  ∃ s', update_intelligence store session_id intelligence now
        = Ok (<[sessionId s := s']> store, s')
        ∧ extractedIntelligence s'
          = Intel.merge (extractedIntelligence s) intelligence
        ∧ sessionId s' = sessionId s.
Proof.
  intros Hs. unfold update_intelligence, lookup_or_raise, get_session.
  rewrite Hs. simpl. eexists. split; [reflexivity|]. simpl. auto.
Qed.

(** Re-extraction in [extract_from_session]: a message that occurs
    twice in a row contributes as if it occurred once. *)
Lemma extract_from_session_repeat (msgs : list Message) (m : Message) :
  fold_left IntelligenceExtractor.session_step (msgs ++ [m; m]) Intel.empty
  = fold_left IntelligenceExtractor.session_step (msgs ++ [m]) Intel.empty.
Proof.
  rewrite !fold_left_app. simpl.
  generalize (fold_left IntelligenceExtractor.session_step msgs Intel.empty).
  intros acc. unfold IntelligenceExtractor.session_step.
  destruct (from_scammer m); [|reflexivity].
  apply merge_idemp_r.
Qed.

(** C7. For a stored session and a message, merging the intelligence
    extracted from the message into the session's running
    intelligence a second time (through [update_intelligence])
    leaves all five artifact sets as the first merge made them. *)
Theorem merging_twice_is_merging_once
    store session_id s (message : Message) now now' :
  store !! session_id = Some s →
  let intel := IntelligenceExtractor.extract_from_message message in
  ∃ store1 s1 store2 s2,
    update_intelligence store session_id intel now = Ok (store1, s1)
    ∧ update_intelligence store1 session_id intel now' = Ok (store2, s2)
    ∧ extractedIntelligence s1 = Intel.merge (extractedIntelligence s) intel
    ∧ bankAccounts (extractedIntelligence s2) = bankAccounts (extractedIntelligence s1)
    ∧ upiIds (extractedIntelligence s2) = upiIds (extractedIntelligence s1)
    ∧ phoneNumbers (extractedIntelligence s2) = phoneNumbers (extractedIntelligence s1)
    ∧ phishingLinks (extractedIntelligence s2) = phishingLinks (extractedIntelligence s1)
    ∧ suspiciousKeywords (extractedIntelligence s2)
      = suspiciousKeywords (extractedIntelligence s1).
Proof.
  intros Hs intel.
  destruct (update_intelligence_found store session_id s intel now Hs)
    as (s1 & Hrun1 & Hi1 & Hid1).
  assert (Hs1 : ∃ t, <[sessionId s := s1]> store !! session_id = Some t
                     ∧ Intel.merge (extractedIntelligence t) intel
                       = extractedIntelligence s1).
  { destruct (decide (sessionId s = session_id)) as [Heq|Hne].
    - exists s1. rewrite Heq, lookup_insert_eq. split; [reflexivity|].
      rewrite Hi1. apply merge_idemp_r.
    - exists s. rewrite lookup_insert_ne by assumption. auto. }
  destruct Hs1 as (t & Ht & Hmerge).
  destruct (update_intelligence_found _ session_id t intel now' Ht)
    as (s2 & Hrun2 & Hi2 & _).
  eexists (<[sessionId s := s1]> store), s1, _, s2.
  split; [exact Hrun1|]. split; [exact Hrun2|]. split; [exact Hi1|].
  rewrite Hi2, Hmerge. auto.
Qed.

Lemma merging_twice_is_merging_once_witness :
  ∃ store1 s1 store2 s2,
    update_intelligence sample_store "s-1"
      (IntelligenceExtractor.extract_from_message upi_message) "t1" = Ok (store1, s1)
    ∧ update_intelligence store1 "s-1"
        (IntelligenceExtractor.extract_from_message upi_message) "t2" = Ok (store2, s2)
    ∧ upiIds (extractedIntelligence s2) = upiIds (extractedIntelligence s1).
Proof.
  destruct (merging_twice_is_merging_once sample_store "s-1"
              (new_session "s-1" "2025-01-01T00:00:00") upi_message "t1" "t2")
    as (store1 & s1 & store2 & s2 & H1 & H2 & _ & _ & Hupi & _).
  - reflexivity.
  - exists store1, s1, store2, s2. auto.
Defined.

Example extract_upi_message :
  let i := IntelligenceExtractor.extract_from_message upi_message in
  elements (upiIds i) = ["fraud.one@ybl"]
  ∧ elements (phoneNumbers i) = ["+919876543210"]
  ∧ elements (bankAccounts i) = ["XXXX-XXXX-3210"; "XXXX-XXXX-9012"].
Proof. vm_compute. auto. Qed.

End MergeFacts.

(** ** The matcher: a pattern that is not found yields no matches *)

Module ReFacts.

(** *** The bounds of the matcher's loops are never reached *)

Lemma step_ext {R} (ok : ascii → bool) (s : list ascii)
    (k1 k2 : option ascii → list ascii → option R) :
  (∀ p s', k1 p s' = k2 p s') → Re.step ok s k1 = Re.step ok s k2.
Proof.
  intros Hk. destruct s as [|x s]; simpl; [reflexivity|].
  destruct (ok x); [apply Hk|reflexivity].
Qed.

Lemma star_loop_ext {R} (body : Re.matcher R) k1 k2 :
  (∀ prev s c1 c2, (∀ p s', c1 p s' = c2 p s') → body prev s c1 = body prev s c2) →
  (∀ p s', k1 p s' = k2 p s') →
  ∀ n prev s, Re.star_loop body k1 n prev s = Re.star_loop body k2 n prev s.
Proof.
  intros Hbody Hk. induction n as [|n IH]; intros prev s; simpl.
  - apply Hk.
  - rewrite (Hbody prev s _
               (fun p s' => if (length s' <? length s)%nat
                            then Re.star_loop body k2 n p s' else None)).
    + rewrite Hk. reflexivity.
    + intros p s'. destruct (length s' <? length s)%nat; [apply IH|reflexivity].
Qed.

Lemma bt_ext {R} (r : Re.regex) :
  ∀ prev s (k1 k2 : option ascii → list ascii → option R),
    (∀ p s', k1 p s' = k2 p s') → Re.bt r prev s k1 = Re.bt r prev s k2.
Proof.
  induction r as [|c| |neg items| |r1 IH1 r2 IH2|r1 IH1 r2 IH2|r1 IH1];
    intros prev s k1 k2 Hk; simpl.
  - apply Hk.
  - apply step_ext, Hk.
  - apply step_ext, Hk.
  - apply step_ext, Hk.
  - rewrite Hk. reflexivity.
  - apply IH1. intros p s'. apply IH2, Hk.
  - rewrite (IH1 prev s k1 k2 Hk), (IH2 prev s k1 k2 Hk). reflexivity.
  - apply star_loop_ext; assumption.
Qed.

Lemma step_result {R} (ok : ascii → bool) (s : list ascii)
    (k : option ascii → list ascii → option R) (x : R) :
  Re.step ok s k = Some x → ∃ p s', k p s' = Some x.
Proof.
  destruct s as [|c s]; simpl; [discriminate|].
  destruct (ok c); [eauto|discriminate].
Qed.

Lemma star_loop_result {R} (body : Re.matcher R)
    (k : option ascii → list ascii → option R) (x : R) :
  (∀ prev s c, body prev s c = Some x → ∃ p s', c p s' = Some x) →
  ∀ n prev s, Re.star_loop body k n prev s = Some x → ∃ p s', k p s' = Some x.
Proof.
  intros Hbody. induction n as [|n IH]; intros prev s; simpl.
  - eauto.
  - destruct (body prev s _) as [y|] eqn:Hmore; [|eauto].
    intros [= ->]. apply Hbody in Hmore as (p & s' & Hk).
    destruct (length s' <? length s)%nat; [eauto|discriminate].
Qed.

(** A match is only ever produced by the continuation. *)
Lemma bt_result {R} (r : Re.regex) (x : R) :
  ∀ prev s (k : option ascii → list ascii → option R),
    Re.bt r prev s k = Some x → ∃ p s', k p s' = Some x.
Proof.
  induction r as [|c| |neg items| |r1 IH1 r2 IH2|r1 IH1 r2 IH2|r1 IH1];
    intros prev s k; simpl.
  - eauto.
  - apply step_result.
  - apply step_result.
  - apply step_result.
  - destruct (xorb _ _); [eauto|discriminate].
  - intros H. apply IH1 in H as (p & s' & H). eauto.
  - destruct (Re.bt r1 prev s k) as [y|] eqn:H1.
    + intros [= ->]. eauto.
    + eauto.
  - apply star_loop_result. exact IH1.
Qed.

Lemma bt_fail {R} (r : Re.regex) prev s
    (k : option ascii → list ascii → option R) :
  (∀ p s', k p s' = None) → Re.bt r prev s k = None.
Proof.
  intros Hk. destruct (Re.bt r prev s k) as [x|] eqn:H; [|reflexivity].
  apply bt_result in H as (p & s' & H). rewrite Hk in H. discriminate.
Qed.

(** The iteration bound of a star is the length of the remaining
    input; a larger bound gives the same result, since every round
    consumes a character. *)
Lemma star_loop_bound {R} (r : Re.regex) (k : option ascii → list ascii → option R) :
  ∀ len s, length s = len →
  ∀ n m prev, (len <= n)%nat → (len <= m)%nat →
    Re.star_loop (Re.bt r) k n prev s = Re.star_loop (Re.bt r) k m prev s.
Proof.
  induction len as [len IH] using lt_wf_ind. intros s Hlen n m prev Hn Hm.
  assert (Hzero : ∀ j p t, length t = O →
            Re.bt r p t
              (fun p' s' => if (length s' <? length t)%nat
                            then Re.star_loop (Re.bt r) k j p' s' else None) = None).
  { intros j p t Ht. apply bt_fail. intros p' s'. rewrite Ht. reflexivity. }
  destruct n as [|n], m as [|m]; simpl.
  - reflexivity.
  - rewrite Hzero by lia. reflexivity.
  - rewrite Hzero by lia. reflexivity.
  - rewrite (bt_ext r prev s _
               (fun p s' => if (length s' <? length s)%nat
                            then Re.star_loop (Re.bt r) k m p s' else None));
      [reflexivity|].
    intros p s'. destruct (Nat.ltb_spec (length s') (length s)) as [Hlt|Hge];
      [|reflexivity].
    apply (IH (length s')); lia.
Qed.

(** A non-empty match leaves strictly less input. *)
Lemma match_here_consumes (r : Re.regex) prev s m rest :
  Re.match_here r prev s = Some (m, rest) →
  m ≠ [] → (length rest < length s)%nat.
Proof.
  unfold Re.match_here. intros H Hm.
  apply bt_result in H as (_ & rest' & [= <- <-]).
  destruct (Nat.le_gt_cases (length s) (length rest')) as [Hle|Hgt]; [|exact Hgt].
  exfalso. apply Hm. replace (length s - length rest')%nat with O by lia.
  reflexivity.
Qed.

(** [findall] walks the whole text: its bound, one more than the
    length of the text, is never what ends it. *)
Lemma findall_from_bound (r : Re.regex) :
  ∀ fuel fuel' prev s,
    (length s < fuel)%nat → (length s < fuel')%nat →
    Re.findall_from fuel r prev s = Re.findall_from fuel' r prev s.
Proof.
  induction fuel as [|fuel IH]; intros fuel' prev s Hf Hf'; [lia|].
  destruct fuel' as [|fuel']; [lia|]. simpl.
  destruct (Re.match_here r prev s) as [[m rest]|] eqn:Hm.
  - destruct m as [|c m]; destruct s as [|c' s]; try reflexivity.
    + f_equal. apply IH; simpl in *; lia.
    + f_equal.
      assert (length rest < length (@nil ascii))%nat
        by (eapply match_here_consumes; eauto).
      simpl in *. lia.
    + f_equal.
      assert (length rest < length (c' :: s))%nat
        by (eapply match_here_consumes; eauto).
      apply IH; simpl in *; lia.
  - destruct s as [|c s]; [reflexivity|]. apply IH; simpl in *; lia.
Qed.

Lemma findall_from_no_match (r : Re.regex) (s : list ascii) :
  ∀ prev fuel, Re.scan r prev s = None → Re.findall_from fuel r prev s = [].
Proof.
  induction s as [|c s IH]; intros prev fuel Hscan; simpl in Hscan.
  - destruct fuel as [|fuel]; [reflexivity|]. simpl.
    destruct (Re.match_here r prev []) as [[m rest]|]; [discriminate|reflexivity].
  - destruct fuel as [|fuel]; [reflexivity|]. simpl.
    destruct (Re.match_here r prev (c :: s)) as [[m rest]|]; [discriminate|].
    apply IH. exact Hscan.
Qed.

Lemma findall_nil_of_search_false (r : Re.regex) (text : string) :
  Re.search r text = false → Re.findall r text = [].
Proof.
  unfold Re.search, Re.findall. intros H.
  apply findall_from_no_match.
  apply bool_decide_eq_false in H.
  destruct (Re.scan r None (Str.chars text)); [|reflexivity].
  exfalso. apply H. eauto.
Qed.

(** Every pattern source of the detector's tables is inside the
    embedded syntax. *)
Lemma detector_tables_parse :
  Forall (fun src => is_Some (Re.parse src))
    (ScamDetector.URGENCY_PATTERNS ++ ScamDetector.THREAT_PATTERNS
     ++ ScamDetector.REQUEST_PATTERNS ++ ScamDetector.SENSITIVE_DATA_PATTERNS
     ++ ScamDetector.IMPERSONATION_PATTERNS ++ ScamDetector.MONEY_PATTERNS
     ++ ScamDetector.UPI_SCAM_PATTERNS
     ++ ScamDetector.FINANCIAL_COERCION_PATTERNS)%list.
Proof.
  apply Forall_forall. intros src Hsrc.
  repeat (apply elem_of_cons in Hsrc as [->|Hsrc]; [vm_compute; eauto|]).
  apply elem_of_nil in Hsrc. contradiction.
Qed.

Lemma extractor_tables_parse :
  Forall (fun src => is_Some (Re.parse src))
    (IntelligenceExtractor.BANK_ACCOUNT_PATTERNS
     ++ IntelligenceExtractor.UPI_PATTERNS
     ++ IntelligenceExtractor.PHONE_PATTERNS
     ++ IntelligenceExtractor.LINK_PATTERNS)%list.
Proof.
  apply Forall_forall. intros src Hsrc.
  repeat (apply elem_of_cons in Hsrc as [->|Hsrc]; [vm_compute; eauto|]).
  apply elem_of_nil in Hsrc. contradiction.
Qed.

End ReFacts.

(** ** The rule scorer inside [ScamDetector.analyze_message] *)

(** Cases on every [Qmin] and [Qmax] of the goal, then linear arithmetic. *)
Ltac qminmax_case op spec a b :=
  let H := fresh "Hcase" in
  destruct (spec a b) as [[? H]|[? H]];
  generalize dependent (op a b); intros.

Ltac qminmax :=
  repeat match goal with
  | |- context [Qmin ?a ?b] => qminmax_case Qmin Q.min_spec a b
  | |- context [Qmax ?a ?b] => qminmax_case Qmax Q.max_spec a b
  | _ : context [Qmin ?a ?b] |- _ => qminmax_case Qmin Q.min_spec a b
  | _ : context [Qmax ?a ?b] |- _ => qminmax_case Qmax Q.max_spec a b
  end;
  lra.

Module DetectorFacts.

Import Spec Samples.

Import ScamDetector.

Section WithFeatures.

Context {F : Type}.
Implicit Types (d : t F) (text : string) (patterns : list Re.regex).

Lemma count_zero_no_keywords text patterns :
  _count_pattern_matches text patterns = O →
  _extract_matched_keywords text patterns = [].
Proof.
  unfold _count_pattern_matches, _extract_matched_keywords.
  intros Hc.
  assert (Hall : Forall (fun p => Re.findall p text = []) patterns).
  { apply Forall_forall. intros p Hp.
    apply ReFacts.findall_nil_of_search_false.
    destruct (Re.search p text) eqn:E; [|reflexivity].
    apply length_zero_iff_nil in Hc.
    assert (Hin : p ∈ filter (fun p => Re.search p text = true) patterns)
      by (apply list_elem_of_filter; auto).
    rewrite Hc in Hin. apply elem_of_nil in Hin. contradiction. }
  clear Hc. induction Hall as [|p l Hp _ IH]; [reflexivity|].
  simpl. rewrite Hp. exact IH.
Qed.

Lemma check_family_score text patterns per_match cap acc :
  0 <= cap →
  (check_family text patterns per_match cap acc).1
  == acc.1 + Qmin (count_Q (_count_pattern_matches text patterns) * per_match) cap.
Proof.
  intros Hcap. destruct acc as [score kws]. unfold check_family.
  destruct (Nat.ltb_spec 0 (_count_pattern_matches text patterns)) as [Hpos|Hz];
    simpl; [reflexivity|].
  assert (Hc : _count_pattern_matches text patterns = O) by lia.
  rewrite Hc. change (count_Q 0) with 0. qminmax.
Qed.

Lemma check_family_keywords text patterns per_match cap acc :
  (check_family text patterns per_match cap acc).2
  = (acc.2 ++ _extract_matched_keywords text patterns)%list.
Proof.
  destruct acc as [score kws]. unfold check_family.
  destruct (Nat.ltb_spec 0 (_count_pattern_matches text patterns)) as [Hpos|Hz];
    simpl; [reflexivity|].
  rewrite count_zero_no_keywords by lia. rewrite app_nil_r. reflexivity.
Qed.

Lemma family_score_bounds text patterns per_match cap :
  0 <= per_match → 0 <= cap →
  0 <= Qmin (count_Q (_count_pattern_matches text patterns) * per_match) cap
    <= cap.
Proof.
  intros Hw Hcap.
  pose proof (count_Q_nonneg (_count_pattern_matches text patterns)) as Hn.
  assert (0 <= count_Q (_count_pattern_matches text patterns) * per_match)
    by (apply Qmult_le_0_compat; assumption).
  split; qminmax.
Qed.

Lemma rule_pass_score d text :
  (rule_pass d text).1 == capped_family_sum d text.
Proof.
  unfold rule_pass, capped_family_sum, families, Qsum, family_score.
  cbn [map fold_right].
  repeat match goal with
  | |- context [check_family text ?p ?w ?c ?acc] =>
      lazymatch acc with
      | context [check_family] => fail
      | _ => idtac
      end;
      let H := fresh "Hstep" in
      assert (H := check_family_score text p w c acc ltac:(lra));
      generalize dependent (check_family text p w c acc); intros
  end.
  cbn [fst] in *. lra.
Qed.

Lemma rule_pass_bounds d text :
  0 <= (rule_pass d text).1 <= 1.4.
Proof.
  rewrite rule_pass_score.
  unfold capped_family_sum, families, Qsum, family_score. cbn [map fold_right].
  pose proof (family_score_bounds text (urgency_re d) 0.05 0.15 ltac:(lra) ltac:(lra)).
  pose proof (family_score_bounds text (threat_re d) 0.08 0.25 ltac:(lra) ltac:(lra)).
  pose proof (family_score_bounds text (request_re d) 0.05 0.15 ltac:(lra) ltac:(lra)).
  pose proof (family_score_bounds text (sensitive_re d) 0.08 0.25 ltac:(lra) ltac:(lra)).
  pose proof (family_score_bounds text (impersonation_re d) 0.05 0.10 ltac:(lra) ltac:(lra)).
  pose proof (family_score_bounds text (money_re d) 0.05 0.10 ltac:(lra) ltac:(lra)).
  pose proof (family_score_bounds text (upi_scam_re d) 0.10 0.20 ltac:(lra) ltac:(lra)).
  pose proof (family_score_bounds text (financial_coercion_re d) 0.10 0.20 ltac:(lra) ltac:(lra)).
  lra.
Qed.

Lemma rule_pass_keywords d text :
  (rule_pass d text).2
  = concat (map (fun fam : list Re.regex * Q * Q =>
                   _extract_matched_keywords text fam.1.1) (families d)).
Proof.
  unfold rule_pass, families. cbn [map concat fst].
  rewrite !check_family_keywords. cbn [snd].
  rewrite app_nil_r, <- !app_assoc. reflexivity.
Qed.

Lemma analyze_message_unfold d (message : Message) :
  analyze_message d message
  = (Qmin (Qmax (rule_pass d (Str.lower (text message))).1
                (ml_pass d (Str.lower (text message)))) 1.0,
     remove_dups (rule_pass d (Str.lower (text message))).2).
Proof.
  unfold analyze_message.
  destruct (rule_pass d (Str.lower (text message))) as [score kws]. reflexivity.
Qed.

End WithFeatures.

End DetectorFacts.

Module RuleScore.

Import Spec Samples.

Import ScamDetector DetectorFacts.

Lemma elem_of_concat {A} (x : A) (ls : list (list A)) :
  x ∈ concat ls ↔ ∃ l, l ∈ ls ∧ x ∈ l.
Proof.
  induction ls as [|l ls IH]; simpl.
  - split; [intros H; apply elem_of_nil in H; contradiction|].
    intros (l & Hl & _). apply elem_of_nil in Hl. contradiction.
  - rewrite elem_of_app, IH. split.
    + intros [Hx|(l' & Hl' & Hx)].
      * exists l. split; [left|assumption].
      * exists l'. split; [right; assumption|assumption].
    + intros (l' & Hl' & Hx). apply elem_of_cons in Hl' as [->|Hl']; eauto.
Qed.

Lemma elem_of_extracted (text k : string) (patterns : list Re.regex) :
  k ∈ _extract_matched_keywords text patterns ↔
  ∃ p, p ∈ patterns ∧ k ∈ Re.findall p text.
Proof.
  unfold _extract_matched_keywords.
  rewrite elem_of_remove_dups, elem_of_concat. split.
  - intros (l & Hl & Hk). apply list_elem_of_fmap in Hl as (p & -> & Hp). eauto.
  - intros (p & Hp & Hk). exists (Re.findall p text). split; [|assumption].
    apply list_elem_of_fmap. eauto.
Qed.

Section WithFeatures.

Context {F : Type}.


End WithFeatures.

(** The families of a detector built by [__init__] are the compiled
    pattern tables of the class. *)
Lemma families_of_init {F} (joblib_load : string → Result (Obj F)) (d : t F) :
  init joblib_load = Ok d →
  map (fun fam : list Re.regex * Q * Q => fam.1.1) (families d)
  = map (map Re.compile)
      [URGENCY_PATTERNS; THREAT_PATTERNS; REQUEST_PATTERNS;
       SENSITIVE_DATA_PATTERNS; IMPERSONATION_PATTERNS; MONEY_PATTERNS;
       UPI_SCAM_PATTERNS; FINANCIAL_COERCION_PATTERNS].
Proof.
  unfold init.
  destruct (joblib_load "app/ai_model/models/spam_model.pkl"); [|discriminate].
  destruct (joblib_load "app/ai_model/models/tfidf_vectorizer.pkl"); [|discriminate].
  simpl. intros [= <-]. reflexivity.
Qed.

End RuleScore.

(** ** The hybrid score of [ScamDetector.analyze_message] *)

Module HybridScore.

Import Spec Samples.

Import ScamDetector DetectorFacts.

Lemma init_sample_disk : init sample_disk = Ok sample_detector.
Proof. reflexivity. Qed.

Example upi_scam_message_score :
  (analyze_message sample_detector
     (scammer_says "Share your UPI ID to reactivate your blocked account")).1
  == 0.59.
Proof. vm_compute. reflexivity. Qed.

(** C10 as stated fails: the rule score of [saturating_message] is
    1.4 and the returned score is 1.0, below it. *)
Lemma returned_score_below_rule_score :
  let text := Str.lower (text saturating_message) in
  (rule_pass sample_detector text).1 == 1.4
  ∧ ml_pass sample_detector text == 0.2
  ∧ (analyze_message sample_detector saturating_message).1 == 1
  ∧ ¬ ((rule_pass sample_detector text).1
       <= (analyze_message sample_detector saturating_message).1).
Proof.
  vm_compute. repeat split; try reflexivity.
  intros H. apply H. reflexivity.
Qed.

Section WithFeatures.

Context {F : Type}.

(** C10, as the code has it. The returned score is
    [min(max(rule_score, ml_score), 1.0)]: the two scores are
    combined by their maximum, so the result is never below the
    rule score clipped at 1.0 nor below the classifier score
    clipped at 1.0, it equals the clipped rule score whenever the
    classifier score does not exceed the rule score, and it is at
    least the rule score itself whenever that is at most 1. *)
Theorem final_score_is_clipped_max (d : t F) (message : Message) :
  let text := Str.lower (text message) in
  let rule_score := (rule_pass d text).1 in
  let ml_score := ml_pass d text in
  let final := (analyze_message d message).1 in
  final = Qmin (Qmax rule_score ml_score) 1.0
  ∧ Qmin rule_score 1 <= final
  ∧ Qmin ml_score 1 <= final
  ∧ final <= 1
  ∧ (ml_score <= rule_score → final == Qmin rule_score 1)
  ∧ (rule_score <= 1 → rule_score <= final).
Proof.
  intros text rule_score ml_score final. subst final.
  rewrite analyze_message_unfold. fold text rule_score ml_score. cbn [fst].
  split; [reflexivity|].
  generalize rule_score ml_score. clear. intros r m.
  split; [qminmax|]. split; [qminmax|]. split; [qminmax|].
  split; intros Hle; qminmax.
Qed.

(** The [except] branch: when the vectorizer or the classifier
    raises, the score is the rule score clipped to [[0,1]]. *)
Lemma ml_failure_falls_back_to_rules (d : t F) (message : Message) :
  raises (ml_predict d (Str.lower (text message))) →
  ml_pass d (Str.lower (text message)) = 0
  ∧ (analyze_message d message).1
    == clip01 (rule_pass d (Str.lower (text message))).1.
Proof.
  intros Hr. assert (Hml : ml_pass d (Str.lower (text message)) = 0).
  { unfold ml_pass. destruct (ml_predict d (Str.lower (text message)));
      [contradiction|reflexivity]. }
  split; [exact Hml|].
  rewrite analyze_message_unfold, Hml. cbn [fst]. unfold clip01.
  pose proof (rule_pass_bounds d (Str.lower (text message))) as [Hlo _].
  generalize dependent (rule_pass d (Str.lower (text message))).1. intros r Hlo.
  qminmax.
Qed.

Lemma init_raises_when_load_raises (joblib_load : string → Result (Obj F)) :
  raises (joblib_load "app/ai_model/models/spam_model.pkl")
  ∨ raises (joblib_load "app/ai_model/models/tfidf_vectorizer.pkl") →
  raises (init joblib_load).
Proof.
  unfold init.
  destruct (joblib_load "app/ai_model/models/spam_model.pkl"); simpl;
    destruct (joblib_load "app/ai_model/models/tfidf_vectorizer.pkl"); simpl;
    tauto.
Qed.

End WithFeatures.

Lemma final_score_is_clipped_max_witness :
  let rule_score :=
    (rule_pass sample_detector
       (Str.lower "Share your UPI ID to reactivate your blocked account")).1 in
  rule_score
  <= (analyze_message sample_detector
        (scammer_says "Share your UPI ID to reactivate your blocked account")).1.
Proof.
  intros rule_score.
  apply (final_score_is_clipped_max sample_detector
           (scammer_says "Share your UPI ID to reactivate your blocked account")).
  vm_compute. discriminate.
Defined.

(** C5 at the failing input. When [joblib.load] raises for the
    classifier file, [__init__] raises and no detector exists to
    score with, whereas a failure inside [analyze_message] (here a
    vectorization mismatch) is caught and leaves the rule score. *)
Theorem load_failure_escapes_init :
  init disk_without_model = Raise "FileNotFoundError"
  ∧ raises (init disk_without_model)
  ∧ (analyze_message mismatched_detector
       (scammer_says "Share your UPI ID to reactivate your blocked account")).1
    == 0.59.
Proof.
  split; [reflexivity|]. split; [exact I|]. vm_compute. reflexivity.
Qed.

End HybridScore.

(** ** Session-level aggregation: [ScamDetector.analyze_session] *)

Module SessionScore.

Import Spec Samples.

Import ScamDetector DetectorFacts.

Lemma distinct_count (l : list string) :
  length (remove_dups l) = size (list_to_set l : gset string).
Proof.
  rewrite <- (size_list_to_set (C:=gset string) (remove_dups l))
    by apply NoDup_remove_dups.
  f_equal. apply set_eq. intros x.
  rewrite !elem_of_list_to_set. apply elem_of_remove_dups.
Qed.

Lemma Qsum_nonneg (l : list Q) : Forall (fun x => 0 <= x) l → 0 <= Qsum l.
Proof.
  induction 1 as [|x l Hx _ IH]; simpl; [lra|]. lra.
Qed.

Section WithFeatures.

Context {F : Type}.
Implicit Types (d : t F) (msgs : list Message).

Lemma analyze_session_unfold d (session : SessionState) :
  let loop := session_loop d (messages session) in
  let final_score :=
    Qmin (loop.1.1 / count_Q (Nat.max loop.2 1)
          + Qmin (count_Q (length (remove_dups loop.1.2)) * 0.02) 0.2) 1.0 in
  analyze_session d session
  = (final_score, Qle_bool 0.3 final_score,
     Qle_bool 0.51 final_score && (2 <=? loop.2)%nat,
     remove_dups loop.1.2).
Proof.
  unfold analyze_session.
  destruct (session_loop d (messages session)) as [[total kws] n]. reflexivity.
Qed.

End WithFeatures.

End SessionScore.

(** ** Signs and bounds of float operations *)

Module FloatFacts.

Import SpecFloat Float.

Local Open Scope Z_scope.

Lemma nonneg_leb (x : float) : leb zero x = true <-> nonneg x.
Proof.
  unfold leb, SFleb, zero. destruct x as [s|[]| |[] m e]; simpl; split; auto; try discriminate; try contradiction.
Qed.

Lemma shr_1_nonneg (mrs : shr_record) : 0 <= shr_m mrs -> 0 <= shr_m (shr_1 mrs).
Proof.
  destruct mrs as [m r s]. destruct m as [|p|p]; simpl; intros H; try lia.
  - destruct p; simpl; lia.
Qed.

Lemma iter_shr_1_nonneg (n : positive) :
  forall mrs, 0 <= shr_m mrs -> 0 <= shr_m (iter_pos shr_1 n mrs).
Proof.
  induction n as [n IH|n IH|]; intros mrs H; simpl.
  - apply IH, IH, shr_1_nonneg, H.
  - apply IH, IH, H.
  - apply shr_1_nonneg, H.
Qed.

Lemma shr_fexp_nonneg (m e : Z) (l : location) :
  0 <= m -> 0 <= shr_m (fst (shr_fexp prec emax m e l)).
Proof.
  intros H. unfold shr_fexp, shr.
  assert (H0 : 0 <= shr_m (shr_record_of_loc m l)) by (destruct l as [|[]]; exact H).
  destruct (fexp prec emax (Zdigits2 m + e) - e); simpl; [exact H0| |exact H0].
  apply iter_shr_1_nonneg, H0.
Qed.

Lemma round_nearest_even_nonneg (m : Z) (l : location) :
  0 <= m -> 0 <= round_nearest_even m l.
Proof.
  intros H. destruct l as [|[]]; simpl; try lia. destruct (Z.even m); lia.
Qed.

Lemma binary_round_aux_nonneg (m e : Z) (l : location) :
  0 <= m -> nonneg (binary_round_aux prec emax false m e l).
Proof.
  intros H. unfold binary_round_aux.
  pose proof (shr_fexp_nonneg m e l H) as H1.
  destruct (shr_fexp prec emax m e l) as [mrs' e']. simpl in H1.
  pose proof (shr_fexp_nonneg _ e' loc_Exact
                (round_nearest_even_nonneg _ (loc_of_shr_record mrs') H1)) as H2.
  destruct (shr_fexp prec emax _ e' loc_Exact) as [mrs'' e'']. simpl in H2.
  destruct (shr_m mrs'') as [|p|p]; simpl; [exact I| |lia].
  destruct (_ <=? _); exact I.
Qed.

Lemma binary_round_nonneg (m : positive) (e : Z) :
  nonneg (binary_round prec emax false m e).
Proof.
  unfold binary_round. destruct (shl_align _ _ _) as [mz ez].
  apply binary_round_aux_nonneg. lia.
Qed.

Lemma of_nat_nonneg (n : nat) : nonneg (of_nat n).
Proof.
  unfold of_nat, of_Z, binary_normalize. destruct (Z.of_nat n) as [|p|p] eqn:Hn;
    [exact I|apply binary_round_nonneg|lia].
Qed.

Lemma add_nonneg (a b : float) : nonneg a -> nonneg b -> nonneg (add a b).
Proof.
  unfold add, SFadd.
  destruct a as [sa|[]| |[] ma ea]; try contradiction; intros _;
    destruct b as [sb|[]| |[] mb eb]; try contradiction; intros _; try exact I.
  - destruct sa, sb; exact I.
  - unfold cond_Zopp. cbn [Z.add]. unfold binary_normalize.
    apply binary_round_nonneg.
Qed.

Lemma mul_nonneg (a b : float) : nonneg a -> positive_finite b -> nonneg (mul a b).
Proof.
  unfold mul, SFmul.
  destruct a as [sa|[]| |[] ma ea]; try contradiction; intros _;
    destruct b as [sb|[]| |[] mb eb]; try contradiction; intros _; try exact I.
  apply binary_round_aux_nonneg. lia.
Qed.

Lemma div_core_nonneg (m1 m2 : positive) (e1 e2 : Z) :
  0 <= fst (fst (SFdiv_core_binary prec emax (Zpos m1) e1 (Zpos m2) e2)).
Proof.
  unfold SFdiv_core_binary.
  set (s := _ - _ - Z.min _ _).
  set (m' := match s with Z0 => Zpos m1 | Zpos _ => Z.shiftl (Zpos m1) s | Zneg _ => 0 end).
  assert (Hm : 0 <= m').
  { subst m'. destruct s; try lia. apply Z.shiftl_nonneg. lia. }
  pose proof (Z.div_pos m' (Zpos m2) Hm ltac:(lia)) as Hq.
  unfold Z.div in Hq. destruct (Z.div_eucl m' (Zpos m2)) as [q r]. exact Hq.
Qed.

Lemma div_nonneg (a b : float) : nonneg a -> positive_finite b -> nonneg (div a b).
Proof.
  unfold div, SFdiv.
  destruct a as [sa|[]| |[] ma ea]; try contradiction; intros _;
    destruct b as [sb|[]| |[] mb eb]; try contradiction; intros _; try exact I.
  pose proof (div_core_nonneg ma mb ea eb) as H.
  destruct (SFdiv_core_binary prec emax (Zpos ma) ea (Zpos mb) eb) as [[mz ez] lz].
  apply binary_round_aux_nonneg. exact H.
Qed.

Lemma min_nonneg (a b : float) : nonneg a -> nonneg b -> nonneg (min a b).
Proof. unfold min. destruct (ltb b a); auto. Qed.

Lemma ltb_nonneg (a b : float) : nonneg a -> ltb a b = true -> nonneg b.
Proof.
  unfold ltb, SFltb, SFcompare.
  destruct a as [sa|[]| |[] ma ea]; try contradiction; intros _;
    destruct b as [sb|[]| |[] mb eb]; simpl; try discriminate; auto.
Qed.

Lemma max_nonneg (a b : float) : nonneg a -> nonneg (max a b).
Proof.
  unfold max. intros H. destruct (ltb a b) eqn:Hlt; [|exact H].
  exact (ltb_nonneg a b H Hlt).
Qed.

Lemma compare_antisym (a b : float) (c : comparison) :
  SFcompare a b = Some c -> SFcompare b a = Some (CompOpp c).
Proof.
  unfold SFcompare.
  destruct a as [sa|sa| |sa ma ea]; destruct b as [sb|sb| |sb mb eb];
    try discriminate; intros [= <-];
    repeat match goal with s : bool |- _ => destruct s end; try reflexivity.
  - rewrite (Z.compare_antisym ea eb). destruct (ea ?= eb); simpl; try reflexivity.
    rewrite (Pos.compare_cont_antisym ma mb Eq). simpl.
    rewrite ?CompOpp_involutive. reflexivity.
  - rewrite (Z.compare_antisym ea eb). destruct (ea ?= eb); simpl; try reflexivity.
    rewrite (Pos.compare_cont_antisym ma mb Eq). simpl.
    rewrite ?CompOpp_involutive. reflexivity.
Qed.

Lemma min_one_le (x : float) : nonneg x -> leb (min x one) one = true.
Proof.
  intros Hx. unfold min. destruct (ltb one x) eqn:Hlt; [reflexivity|].
  unfold leb, SFleb. unfold ltb, SFltb in Hlt.
  destruct (SFcompare one x) as [c|] eqn:Hc.
  - rewrite (compare_antisym _ _ _ Hc). destruct c; simpl; try reflexivity. discriminate.
  - destruct x as [sx|[]| |[] mx ex]; try contradiction; discriminate.
Qed.

Lemma digits2_pos_bounds (p : positive) :
  2 ^ (Zpos (digits2_pos p) - 1) <= Zpos p < 2 ^ Zpos (digits2_pos p).
Proof.
  induction p as [p IH|p IH|]; cbn [digits2_pos].
  - rewrite Pos2Z.inj_succ. replace (Z.succ (Zpos (digits2_pos p)) - 1)
      with (Z.succ (Zpos (digits2_pos p) - 1)) by lia.
    rewrite !Z.pow_succ_r by lia. lia.
  - rewrite Pos2Z.inj_succ. replace (Z.succ (Zpos (digits2_pos p)) - 1)
      with (Z.succ (Zpos (digits2_pos p) - 1)) by lia.
    rewrite !Z.pow_succ_r by lia. lia.
  - simpl. lia.
Qed.

Lemma digits2_pos_le (p : positive) (n : Z) :
  Zpos p < 2 ^ n -> Zpos (digits2_pos p) <= n.
Proof.
  intros H. destruct (digits2_pos_bounds p) as [Hlo _].
  destruct (Z_le_gt_dec (Zpos (digits2_pos p)) n) as [Hle|Hgt]; [exact Hle|].
  assert (0 <= n).
  { destruct (Z_lt_le_dec n 0) as [Hneg|Hpos]; [|exact Hpos].
    rewrite Z.pow_neg_r in H by exact Hneg. lia. }
  assert (2 ^ n <= 2 ^ (Zpos (digits2_pos p) - 1)) by (apply Z.pow_le_mono_r; lia).
  lia.
Qed.

Lemma digits2_pos_iter (p d : positive) :
  digits2_pos (Pos.iter xO p d) = (digits2_pos p + d)%positive.
Proof.
  induction d as [|d IH] using Pos.peano_ind.
  - simpl. lia.
  - rewrite Pos.iter_succ. cbn [digits2_pos]. rewrite IH. lia.
Qed.

Lemma binary_round_aux_exact (m : positive) (e : Z) :
  Zpos (digits2_pos m) = prec -> -1074 <= e <= 971 ->
  binary_round_aux prec emax false (Zpos m) e loc_Exact = S754_finite false m e.
Proof.
  intros Hd He.
  assert (Hshift : fexp prec emax (Zdigits2 (Zpos m) + e) - e = 0).
  { unfold fexp, emin, Zdigits2. rewrite Hd. unfold prec, emax. lia. }
  unfold binary_round_aux, shr_fexp. rewrite Hshift. cbn [shr shr_record_of_loc shr_m loc_of_shr_record round_nearest_even].
  rewrite Hshift. cbn [shr shr_record_of_loc shr_m].
  assert (Hle : (e <=? emax - prec) = true) by (apply Z.leb_le; unfold emax, prec; lia).
  rewrite Hle. reflexivity.
Qed.

Lemma of_Z_positive_finite (z : Z) :
  1 <= z < 2 ^ 53 -> positive_finite (of_Z z).
Proof.
  intros [Hlo Hhi]. destruct z as [|p|p]; try lia.
  unfold of_Z, binary_normalize, binary_round.
  pose proof (digits2_pos_le p 53 Hhi) as Hd.
  assert (Hf : fexp prec emax (Zpos (digits2_pos p) + 0) = Zpos (digits2_pos p) - 53).
  { unfold fexp, emin, prec, emax. lia. }
  rewrite Hf. unfold shl_align.
  destruct (Zpos (digits2_pos p) - 53 - 0) as [|d|d] eqn:Hdiff; try lia.
  - rewrite binary_round_aux_exact; [exact I| unfold prec; lia | lia].
  - rewrite binary_round_aux_exact; [exact I| |lia].
    rewrite digits2_pos_iter. unfold prec. lia.
Qed.

Lemma of_nat_positive_finite (n : nat) :
  (1 <= n)%nat -> Z.of_nat n < 2 ^ 53 -> positive_finite (of_nat n).
Proof.
  intros H1 H2. apply of_Z_positive_finite. lia.
Qed.


(** The literals of the source are the floats that CPython reads. *)
Example literals_as_read :
  of_Q 0.1%Q = S754_finite false 7205759403792794 (-56)
  /\ of_Q 0.02%Q = S754_finite false 5764607523034235 (-58)
  /\ of_Q 0.3%Q = S754_finite false 5404319552844595 (-54)
  /\ of_Q 0.51%Q = S754_finite false 4593671619917906 (-53)
  /\ of_Q 1.0%Q = one.
Proof. vm_compute. repeat split. Qed.

(** [0.1 + 0.2] is [0.30000000000000004], not [0.3]. *)
Example add_rounds :
  add (of_Q 0.1%Q) (of_Q 0.2%Q) = S754_finite false 5404319552844596 (-54)
  /\ leb (add (of_Q 0.1%Q) (of_Q 0.2%Q)) (of_Q 0.3%Q) = false.
Proof. vm_compute. split; reflexivity. Qed.

Lemma sum_from_nonneg (l : list float) (acc : float) :
  Forall nonneg l -> nonneg acc -> nonneg (fold_left add l acc).
Proof.
  intros Hl. revert acc. induction Hl as [|x l Hx _ IH]; intros acc Hacc.
  - exact Hacc.
  - cbn [fold_left]. apply IH, add_nonneg; assumption.
Qed.

Lemma sum_nonneg (l : list float) : Forall nonneg l -> nonneg (sum l).
Proof.
  intros Hl. apply sum_from_nonneg; [exact Hl|exact I].
Qed.

End FloatFacts.

(** ** The session verdict on floats *)

Module FloatSessionScore.

Import Float FloatDetector FloatSpec FloatFacts FloatSamples.

Local Open Scope list_scope.

Lemma literal_weights_positive :
  Forall positive_finite
    [of_Q 0.05; of_Q 0.08; of_Q 0.10; of_Q 0.15; of_Q 0.20; of_Q 0.25;
     of_Q 0.02; of_Q 0.2; one].
Proof. vm_compute. repeat constructor. Qed.

Lemma positive_finite_nonneg (x : float) : positive_finite x → nonneg x.
Proof. destruct x as [s|s| |[] m e]; simpl; intros H; try contradiction; exact I. Qed.

Section WithFeatures.

Context {F : Type}.
Implicit Types (d : t F) (msgs : list Message).

Lemma check_family_nonneg (text : string) (patterns : list Re.regex)
    (per_match cap : float) (acc : float * list string) :
  positive_finite per_match → positive_finite cap → nonneg acc.1 →
  nonneg (check_family text patterns per_match cap acc).1.
Proof.
  intros Hw Hcap Hacc. destruct acc as [rule_score keywords].
  unfold check_family. destruct (0 <? _)%nat; cbn [fst] in *; [|exact Hacc].
  apply add_nonneg; [exact Hacc|].
  apply min_nonneg; [|apply positive_finite_nonneg, Hcap].
  apply mul_nonneg; [apply of_nat_nonneg|exact Hw].
Qed.

Lemma float_rule_pass_nonneg d (text : string) : nonneg (rule_pass d text).1.
Proof.
  unfold rule_pass.
  repeat (apply check_family_nonneg; [vm_compute; exact I|vm_compute; exact I|]).
  exact I.
Qed.

Lemma float_analyze_message_unfold d (message : Message) :
  analyze_message d message
  = (min (max (rule_pass d (Str.lower (text message))).1
              (ml_pass d (Str.lower (text message)))) one,
     remove_dups (rule_pass d (Str.lower (text message))).2).
Proof.
  unfold analyze_message.
  destruct (rule_pass d (Str.lower (text message))) as [r k]. reflexivity.
Qed.

Lemma float_message_score_range d (message : Message) :
  nonneg (analyze_message d message).1
  ∧ leb (analyze_message d message).1 one = true.
Proof.
  rewrite float_analyze_message_unfold. cbn [fst].
  pose proof (float_rule_pass_nonneg d (Str.lower (text message))) as Hr.
  assert (Hm : nonneg (max (rule_pass d (Str.lower (text message))).1
                           (ml_pass d (Str.lower (text message)))))
    by (apply max_nonneg, Hr).
  split; [apply min_nonneg; [exact Hm|exact I]|apply min_one_le, Hm].
Qed.

Lemma float_session_loop_from d msgs (acc : float * list string * nat) :
  let r := fold_left (session_step d) msgs acc in
  r.1.1 = fold_left add (map fst (scammer_results d msgs)) acc.1.1
  ∧ r.1.2 = acc.1.2 ++ concat (map snd (scammer_results d msgs))
  ∧ r.2 = (acc.2 + length (scammer_results d msgs))%nat.
Proof.
  revert acc. induction msgs as [|m msgs IH]; intros [[total kws] n].
  - cbn. rewrite app_nil_r. split; [reflexivity|]. split; [reflexivity|lia].
  - cbv zeta. cbn [fold_left].
    destruct (IH (session_step d (total, kws, n) m)) as (H1 & H2 & H3).
    rewrite H1, H2, H3. clear H1 H2 H3.
    unfold scammer_results, session_step.
    destruct (from_scammer m) eqn:Hm.
    + rewrite filter_cons_True by assumption.
      destruct (analyze_message d m) as [score mk] eqn:Ham.
      cbn [fst snd map concat fold_left length]. rewrite Ham. cbn [fst snd].
      split; [reflexivity|].
      split; [rewrite <- app_assoc; reflexivity|lia].
    + rewrite filter_cons_False by congruence.
      cbn [fst snd]. split; [reflexivity|]. split; reflexivity.
Qed.

Lemma float_session_loop_spec d msgs :
  (session_loop d msgs).1.1 = sum (map fst (scammer_results d msgs))
  ∧ (session_loop d msgs).1.2 = concat (map snd (scammer_results d msgs))
  ∧ (session_loop d msgs).2 = length (scammer_results d msgs).
Proof.
  exact (float_session_loop_from d msgs (zero, [], O)).
Qed.

Lemma float_analyze_session_unfold d (session : SessionState) :
  let loop := session_loop d (messages session) in
  let final_score :=
    min (add (div loop.1.1 (of_nat (Nat.max loop.2 1)))
             (diversity_bonus (length (remove_dups loop.1.2)))) one in
  analyze_session d session
  = (final_score, leb (of_Q 0.3) final_score,
     leb (of_Q 0.51) final_score && (2 <=? loop.2)%nat,
     remove_dups loop.1.2).
Proof.
  unfold analyze_session.
  destruct (session_loop d (messages session)) as [[total kws] n]. reflexivity.
Qed.

Lemma diversity_bonus_nonneg (distinct : nat) : nonneg (diversity_bonus distinct).
Proof.
  unfold diversity_bonus. apply min_nonneg; [|vm_compute; exact I].
  apply mul_nonneg; [apply of_nat_nonneg|vm_compute; exact I].
Qed.

Lemma mean_nonneg (scores : list float) :
  Forall nonneg scores → (Z.of_nat (length scores) < 2 ^ 53)%Z →
  nonneg (mean scores).
Proof.
  intros Hs Hn. unfold mean. apply div_nonneg; [apply sum_nonneg, Hs|].
  apply of_nat_positive_finite; lia.
Qed.

(** C3. The session score is the mean of the scores of the
    scammer's messages (their total from 0.0 over their number, over
    1 when there are none) plus the diversity bonus
    [min(0.02 * distinct keywords, 0.2)], cut at 1.0, every operation
    being that of a Python float; with fewer than [2^53] scammer
    messages it lies in [[0,1]]. The session is suspected exactly
    when this score is at least 0.3 and confirmed exactly when it is
    at least 0.51 and at least two scammer messages were seen, so a
    single scammer message never confirms. *)
Theorem session_score_and_flags d (session : SessionState) :
  let results := scammer_results d (messages session) in
  let scores := map fst results in
  let n := length scores in
  let distinct := size (list_to_set (concat (map snd results)) : gset string) in
  let final_score := (analyze_session d session).1.1.1 in
  let is_suspected := (analyze_session d session).1.1.2 in
  let is_confirmed := (analyze_session d session).1.2 in
  final_score = min (add (mean scores) (diversity_bonus distinct)) one
  ∧ ((Z.of_nat n < 2 ^ 53)%Z →
     leb zero final_score = true ∧ leb final_score one = true)
  ∧ (is_suspected = true ↔ leb (of_Q 0.3) final_score = true)
  ∧ (is_confirmed = true ↔ leb (of_Q 0.51) final_score = true ∧ (2 ≤ n)%nat)
  ∧ (n = 1%nat → is_confirmed = false).
Proof.
  intros results scores n distinct final_score is_suspected is_confirmed.
  subst final_score is_suspected is_confirmed.
  rewrite float_analyze_session_unfold. cbn [fst snd].
  destruct (float_session_loop_spec d (messages session)) as (Htotal & Hkws & Hn).
  fold results in Htotal, Hkws, Hn. fold scores in Htotal.
  assert (Hn' : (session_loop d (messages session)).2 = n)
    by (subst n scores; rewrite length_map; exact Hn).
  rewrite Htotal, Hkws, Hn', SessionScore.distinct_count. fold distinct.
  fold (mean scores).
  assert (Hscores : Forall nonneg scores).
  { subst scores results. unfold scammer_results.
    rewrite map_map. apply Forall_forall. intros x Hx.
    apply list_elem_of_fmap in Hx as (m & -> & _).
    apply float_message_score_range. }
  set (final := min (add (mean scores) (diversity_bonus distinct)) one).
  split; [reflexivity|].
  split.
  { intros Hsmall.
    assert (Hsum : nonneg (add (mean scores) (diversity_bonus distinct))).
    { apply add_nonneg; [apply mean_nonneg; assumption|].
      apply diversity_bonus_nonneg. }
    split; [apply nonneg_leb, min_nonneg; [exact Hsum|exact I]|].
    apply min_one_le, Hsum. }
  split; [reflexivity|].
  split.
  - rewrite andb_true_iff, Nat.leb_le. reflexivity.
  - intros H1. rewrite H1. apply andb_false_r.
Qed.

End WithFeatures.

Lemma session_score_and_flags_witness :
  let r := analyze_session cautious_detector rounding_session in
  leb zero r.1.1.1 = true ∧ leb r.1.1.1 one = true.
Proof.
  apply (session_score_and_flags cautious_detector rounding_session).
  vm_compute. reflexivity.
Defined.

(** Three messages that score 0.35 each, and eight keywords: the total
    is 1.0499999999999998, the mean 0.3499999999999999 and the score
    0.5099999999999999, so the session is suspected and not
    confirmed. *)
Example rounding_session_flags :
  let r := analyze_session cautious_detector rounding_session in
  r.1.1.1 = SpecFloat.S754_finite false 4593671619917905 (-53)
  ∧ leb (of_Q 0.51) r.1.1.1 = false
  ∧ r.1.1.2 = true ∧ r.1.2 = false ∧ length r.2 = 8%nat.
Proof. vm_compute. auto. Qed.

(** The scenario of section 4.1: one message scoring 0.9 is suspected
    and not confirmed; the second message confirms. *)
Example first_contact_flags :
  let r := analyze_session alarmed_detector first_contact in
  r.1.1.1 = of_Q 0.9 ∧ r.1.1.2 = true ∧ r.1.2 = false.
Proof. vm_compute. auto. Qed.

Example second_contact_flags :
  let r := analyze_session alarmed_detector second_contact in
  r.1.1.1 = of_Q 0.9 ∧ r.1.1.2 = true ∧ r.1.2 = true.
Proof. vm_compute. auto. Qed.

End FloatSessionScore.

(** ** The session store under sequences of calls *)

Module StoreFacts.

Import SessionService SessionOps Samples.

Lemma grows_refl (s : SessionState) : grows s s.
Proof.
  unfold grows, intel_included. repeat split; auto; try reflexivity; lra.
Qed.

Lemma grows_trans (a b c : SessionState) : grows a b → grows b c → grows a c.
Proof.
  unfold grows, intel_included.
  intros (Hid & Hm & Ht & Hs & Hd & Hc & Hcb & I1 & I2 & I3 & I4 & I5)
         (Hid' & Hm' & Ht' & Hs' & Hd' & Hc' & Hcb' & J1 & J2 & J3 & J4 & J5).
  split; [congruence|]. split; [etrans; eassumption|]. split; [lia|].
  split; [auto|]. split; [auto|]. split; [lra|]. split; [auto|].
  repeat split; etrans; eassumption.
Qed.

(** What a mutating method does to the dict, given what it does to
    the session it found. *)
Lemma mutator_shape store k s :
  store !! k = Some s →
  (∀ m now, ∃ s', add_message store k m now = Ok (<[sessionId s := s']> store, s')
                  ∧ sessionId s' = sessionId s
                  ∧ messages s' = (messages s ++ [m])%list
                  ∧ totalMessages s' = (totalMessages s + 1)%Z ∧ grows s s')
  ∧ (∀ su de c now, ∃ s',
        update_scam_status store k su de c now = Ok (<[sessionId s := s']> store, s')
        ∧ sessionId s' = sessionId s ∧ messages s' = messages s
        ∧ totalMessages s' = totalMessages s ∧ grows s s')
  ∧ (∀ i now, ∃ s',
        update_intelligence store k i now = Ok (<[sessionId s := s']> store, s')
        ∧ sessionId s' = sessionId s ∧ messages s' = messages s
        ∧ totalMessages s' = totalMessages s ∧ grows s s')
  ∧ (∀ notes now, ∃ s',
        mark_callback_sent store k notes now = Ok (<[sessionId s := s']> store, s')
        ∧ sessionId s' = sessionId s ∧ messages s' = messages s
        ∧ totalMessages s' = totalMessages s ∧ grows s s'
        ∧ callbackSent s' = true).
Proof.
  intros Hs.
  unfold add_message, update_scam_status, update_intelligence, mark_callback_sent,
    lookup_or_raise, get_session. rewrite Hs. simpl.
  unfold grows, intel_included.
  split; [|split; [|split]]; intros; eexists; (split; [reflexivity|]); simpl.
  - repeat split; auto; try reflexivity; try lia; try lra.
    apply prefix_app_r. reflexivity.
  - repeat split; auto; try reflexivity; try lia.
    + intros ->. apply orb_true_r.
    + intros ->. apply orb_true_r.
    + apply Q.le_max_r.
  - repeat split; auto; try reflexivity; try lia; try lra;
      apply union_subseteq_l.
  - repeat split; auto; try reflexivity; try lia; try lra.
Qed.

Lemma mutator_absent store k :
  store !! k = None →
  (∀ m now, raises (add_message store k m now))
  ∧ (∀ su de c now, raises (update_scam_status store k su de c now))
  ∧ (∀ i now, raises (update_intelligence store k i now))
  ∧ (∀ notes now, raises (mark_callback_sent store k notes now)).
Proof.
  intros Hs.
  unfold add_message, update_scam_status, update_intelligence, mark_callback_sent,
    lookup_or_raise, get_session. rewrite Hs. simpl. auto.
Qed.

(** The dict after a call: unchanged, or one key rebound. *)
Lemma apply_cases store op :
  apply store op = store
  ∨ (∃ s', apply store op = <[target op := s']> store
           ∧ sessionId s' = target op
           ∧ totalMessages s' = Z.of_nat (length (messages s'))
           ∧ match op with Create _ _ | GetOrCreate _ _ => True | _ => False end)
  ∨ (∃ s s', store !! target op = Some s
             ∧ apply store op = <[sessionId s := s']> store
             ∧ sessionId s' = sessionId s
             ∧ (totalMessages s = Z.of_nat (length (messages s)) →
                totalMessages s' = Z.of_nat (length (messages s')))
             ∧ grows s s'
             ∧ match op with Create _ _ | Delete _ => False | _ => True end)
  ∨ (apply store op = delete (target op) store
     ∧ match op with Delete _ => True | _ => False end).
Proof.
  destruct op as [k now|k now|k m now|k su de c now|k i now|k notes now|k]; simpl.
  - right. left. eexists. split; [reflexivity|]. simpl. auto.
  - unfold get_or_create_session, get_session.
    destruct (store !! k) as [s|] eqn:Hs; simpl; [left; reflexivity|].
    right. left. eexists. split; [reflexivity|]. simpl. auto.
  - destruct (store !! k) as [s|] eqn:Hs.
    + destruct (mutator_shape store k s Hs) as (H & _).
      destruct (H m now) as (s' & -> & Hid & Hm & Ht & Hg). simpl.
      right. right. left. exists s, s'.
      split; [reflexivity|]. split; [reflexivity|]. split; [exact Hid|].
      split; [|split; [exact Hg|exact I]].
      intros Hc. rewrite Ht, Hm, Hc, length_app. simpl. lia.
    + left. destruct (mutator_absent store k Hs) as (H & _).
      specialize (H m now). destruct (add_message store k m now); [contradiction|].
      reflexivity.
  - destruct (store !! k) as [s|] eqn:Hs.
    + destruct (mutator_shape store k s Hs) as (_ & H & _).
      destruct (H su de c now) as (s' & -> & Hid & Hm & Ht & Hg). simpl.
      right. right. left. exists s, s'.
      split; [reflexivity|]. split; [reflexivity|]. split; [exact Hid|].
      split; [|split; [exact Hg|exact I]].
      intros Hc. rewrite Ht, Hm. exact Hc.
    + left. destruct (mutator_absent store k Hs) as (_ & H & _).
      specialize (H su de c now).
      destruct (update_scam_status store k su de c now); [contradiction|].
      reflexivity.
  - destruct (store !! k) as [s|] eqn:Hs.
    + destruct (mutator_shape store k s Hs) as (_ & _ & H & _).
      destruct (H i now) as (s' & -> & Hid & Hm & Ht & Hg). simpl.
      right. right. left. exists s, s'.
      split; [reflexivity|]. split; [reflexivity|]. split; [exact Hid|].
      split; [|split; [exact Hg|exact I]].
      intros Hc. rewrite Ht, Hm. exact Hc.
    + left. destruct (mutator_absent store k Hs) as (_ & _ & H & _).
      specialize (H i now).
      destruct (update_intelligence store k i now); [contradiction|].
      reflexivity.
  - destruct (store !! k) as [s|] eqn:Hs.
    + destruct (mutator_shape store k s Hs) as (_ & _ & _ & H).
      destruct (H notes now) as (s' & -> & Hid & Hm & Ht & Hg & _). simpl.
      right. right. left. exists s, s'.
      split; [reflexivity|]. split; [reflexivity|]. split; [exact Hid|].
      split; [|split; [exact Hg|exact I]].
      intros Hc. rewrite Ht, Hm. exact Hc.
    + left. destruct (mutator_absent store k Hs) as (_ & _ & _ & H).
      specialize (H notes now).
      destruct (mark_callback_sent store k notes now); [contradiction|].
      reflexivity.
  - unfold delete_session. destruct (store !! k) eqn:Hs; simpl.
    + right. right. right. auto.
    + left. reflexivity.
Qed.

Lemma apply_well_keyed store op : well_keyed store → well_keyed (apply store op).
Proof.
  intros Hwk.
  destruct (apply_cases store op)
    as [->|[(s' & -> & Hid & _)|[(s & s' & Hs & -> & Hid & _)|[-> _]]]];
    [assumption| | |]; intros j t Hj.
  - destruct (decide (target op = j)) as [<-|Hne].
    + rewrite lookup_insert_eq in Hj. congruence.
    + rewrite lookup_insert_ne in Hj by assumption. eauto.
  - destruct (decide (sessionId s = j)) as [<-|Hne].
    + rewrite lookup_insert_eq in Hj. congruence.
    + rewrite lookup_insert_ne in Hj by assumption. eauto.
  - destruct (decide (target op = j)) as [<-|Hne].
    + rewrite lookup_delete_eq in Hj. discriminate.
    + rewrite lookup_delete_ne in Hj by assumption. eauto.
Qed.

Lemma apply_counted store op : counted store → counted (apply store op).
Proof.
  intros Hc.
  destruct (apply_cases store op)
    as [->|[(s' & -> & _ & Hn & _)|[(s & s' & Hs & -> & _ & Hn & _)|[-> _]]]];
    [assumption| | |]; intros j t Hj.
  - destruct (decide (target op = j)) as [<-|Hne].
    + rewrite lookup_insert_eq in Hj. congruence.
    + rewrite lookup_insert_ne in Hj by assumption. eauto.
  - destruct (decide (sessionId s = j)) as [<-|Hne].
    + rewrite lookup_insert_eq in Hj. injection Hj as <-. eauto.
    + rewrite lookup_insert_ne in Hj by assumption. eauto.
  - destruct (decide (target op = j)) as [<-|Hne].
    + rewrite lookup_delete_eq in Hj. discriminate.
    + rewrite lookup_delete_ne in Hj by assumption. eauto.
Qed.

Lemma apply_frame store op k :
  well_keyed store → target op ≠ k → apply store op !! k = store !! k.
Proof.
  intros Hwk Hne.
  destruct (apply_cases store op)
    as [->|[(s' & -> & _)|[(s & s' & Hs & -> & _)|[-> _]]]]; [reflexivity| | |].
  - apply lookup_insert_ne. assumption.
  - apply lookup_insert_ne. rewrite (Hwk _ _ Hs). assumption.
  - apply lookup_delete_ne. assumption.
Qed.

Lemma apply_grows store op k s :
  well_keyed store → store !! k = Some s →
  (target op = k → match op with Create _ _ | Delete _ => False | _ => True end) →
  ∃ s', apply store op !! k = Some s' ∧ grows s s'.
Proof.
  intros Hwk Hs Hkeep.
  destruct (decide (target op = k)) as [Heq|Hne].
  - specialize (Hkeep Heq).
    destruct (mutator_shape store k s Hs) as (H1 & H2 & H3 & H4).
    pose proof (Hwk _ _ Hs) as Hid.
    destruct op as [j now|j now|j m now|j su de c now|j i now|j notes now|j];
      simpl in Heq, Hkeep |- *; subst j; try contradiction.
    + unfold get_or_create_session, get_session. rewrite Hs. simpl.
      exists s. split; [assumption|apply grows_refl].
    + destruct (H1 m now) as (s' & -> & _ & _ & _ & Hg). simpl.
      exists s'. split; [rewrite Hid; apply lookup_insert_eq|assumption].
    + destruct (H2 su de c now) as (s' & -> & _ & _ & _ & Hg). simpl.
      exists s'. split; [rewrite Hid; apply lookup_insert_eq|assumption].
    + destruct (H3 i now) as (s' & -> & _ & _ & _ & Hg). simpl.
      exists s'. split; [rewrite Hid; apply lookup_insert_eq|assumption].
    + destruct (H4 notes now) as (s' & -> & _ & _ & _ & Hg & _). simpl.
      exists s'. split; [rewrite Hid; apply lookup_insert_eq|assumption].
  - exists s. split; [|apply grows_refl].
    rewrite apply_frame; assumption.
Qed.

Lemma run_well_keyed ops : ∀ store, well_keyed store → well_keyed (run ops store).
Proof.
  induction ops as [|op ops IH]; intros store Hwk; simpl; [assumption|].
  apply IH, apply_well_keyed, Hwk.
Qed.

Lemma run_counted ops : ∀ store, counted store → counted (run ops store).
Proof.
  induction ops as [|op ops IH]; intros store Hc; simpl; [assumption|].
  apply IH, apply_counted, Hc.
Qed.

Lemma run_grows ops : ∀ store k s,
  well_keyed store → store !! k = Some s → keeps k ops →
  ∃ s', run ops store !! k = Some s' ∧ grows s s'.
Proof.
  induction ops as [|op ops IH]; intros store k s Hwk Hs Hkeep; simpl.
  - exists s. split; [assumption|apply grows_refl].
  - apply Forall_cons in Hkeep as [Hop Hkeep].
    destruct (apply_grows store op k s Hwk Hs Hop) as (s1 & Hs1 & Hg1).
    destruct (IH (apply store op) k s1 (apply_well_keyed _ _ Hwk) Hs1 Hkeep)
      as (s' & Hs' & Hg').
    exists s'. split; [assumption|]. eapply grows_trans; eassumption.
Qed.

Lemma well_keyed_empty : well_keyed ∅ ∧ counted ∅.
Proof.
  split; intros k s Hk; rewrite lookup_empty in Hk; discriminate.
Qed.

Lemma call_well_keyed store c : well_keyed store → well_keyed (call store c).
Proof.
  intros Hwk. destruct c as [op|session now]; [apply apply_well_keyed, Hwk|].
  simpl. intros j t Hj. destruct (decide (sessionId session = j)) as [<-|Hne].
  - rewrite lookup_insert_eq in Hj. injection Hj as <-. reflexivity.
  - rewrite lookup_insert_ne in Hj by assumption. eauto.
Qed.

Lemma call_counted store c : hands_counted c → counted store → counted (call store c).
Proof.
  intros Hh Hc. destruct c as [op|session now]; [apply apply_counted, Hc|].
  simpl in *. intros j t Hj. destruct (decide (sessionId session = j)) as [<-|Hne].
  - rewrite lookup_insert_eq in Hj. injection Hj as <-. exact Hh.
  - rewrite lookup_insert_ne in Hj by assumption. eauto.
Qed.

Lemma run_calls_well_keyed calls :
  ∀ store, well_keyed store → well_keyed (run_calls calls store).
Proof.
  induction calls as [|c calls IH]; intros store Hwk; simpl; [assumption|].
  apply IH, call_well_keyed, Hwk.
Qed.

Lemma run_calls_counted calls :
  Forall hands_counted calls →
  ∀ store, counted store → counted (run_calls calls store).
Proof.
  induction 1 as [|c calls Hh _ IH]; intros store Hc; simpl; [assumption|].
  apply IH, call_counted; assumption.
Qed.

(** X1. Along any sequence of calls from outside, to the seven
    methods that go through the dict or to [update_session] directly,
    every session stays stored under its own [sessionId]. Its
    [totalMessages] stays equal to the number of its messages as long
    as that holds of every session handed to [update_session]
    directly; [update_session] itself stores what it is given, so a
    session for which it fails breaks the count. *)
Theorem service_keeps_store_consistent (calls : list Call) (store : sessions) :
  well_keyed store → counted store →
  well_keyed (run_calls calls store)
  ∧ (Forall hands_counted calls → counted (run_calls calls store))
  ∧ (∀ session now,
       totalMessages session ≠ Z.of_nat (length (messages session)) →
       ¬ counted (update_session (run_calls calls store) session now).1).
Proof.
  intros Hwk Hc. split; [apply run_calls_well_keyed, Hwk|].
  split; [intros Hh; apply run_calls_counted; assumption|].
  intros session now Hne Hcounted. apply Hne.
  apply (Hcounted (sessionId session) (set_updatedAt now session)).
  simpl. apply lookup_insert_eq.
Qed.

Lemma service_keeps_store_consistent_witness :
  well_keyed (run_calls sample_calls ∅)
  ∧ counted (run_calls sample_calls ∅)
  ∧ ¬ counted (update_session (run_calls sample_calls ∅)
                 (confirmed_session 4) "t7").1.
Proof.
  destruct (service_keeps_store_consistent sample_calls ∅)
    as (Hwk & Hc & Hbreak); [apply well_keyed_empty..|].
  split; [exact Hwk|]. split.
  - apply Hc. repeat constructor.
  - apply Hbreak. discriminate.
Defined.

(** X2. As long as a session is neither re-created nor deleted, no
    sequence of calls loses anything recorded in it: its messages only
    get appended to, its two scam flags and [callbackSent] stay true
    once true, [scamConfidenceScore] never decreases and the extracted
    intelligence only gains elements. *)
Theorem session_only_grows (ops : list Op) (store : sessions) (k : string)
    (s : SessionState) :
  well_keyed store → store !! k = Some s → keeps k ops →
  ∃ s', run ops store !! k = Some s'
        ∧ messages s `prefix_of` messages s'
        ∧ (scamSuspected s = true → scamSuspected s' = true)
        ∧ (scamDetected s = true → scamDetected s' = true)
        ∧ (callbackSent s = true → callbackSent s' = true)
        ∧ scamConfidenceScore s <= scamConfidenceScore s'
        ∧ intel_included (extractedIntelligence s) (extractedIntelligence s').
Proof.
  intros Hwk Hs Hkeep.
  destruct (run_grows ops store k s Hwk Hs Hkeep)
    as (s' & Hs' & _ & Hm & _ & Hsu & Hde & Hc & Hcb & Hi).
  exists s'. auto 10.
Qed.

Lemma session_only_grows_witness :
  ∃ s', run growing_ops sample_store !! "s-1" = Some s'
        ∧ (0 <= scamConfidenceScore s').
Proof.
  destruct (session_only_grows growing_ops sample_store "s-1"
              (new_session "s-1" "2025-01-01T00:00:00"))
    as (s' & Hs' & _ & _ & _ & _ & Hc & _).
  - intros k s Hk. unfold sample_store in Hk. simpl in Hk.
    destruct (decide (k = "s-1")) as [->|Hne].
    + rewrite lookup_insert_eq in Hk. injection Hk as <-. reflexivity.
    + rewrite lookup_insert_ne, lookup_empty in Hk by congruence. discriminate.
  - reflexivity.
  - unfold keeps, growing_ops. repeat constructor; simpl; intros H; try exact I;
      discriminate.
  - exists s'. split; [exact Hs'|exact Hc].
Defined.

(** X3. A call changes at most the session it addresses: every other
    session of a consistently keyed store is left exactly as it was. *)
Theorem calls_touch_only_their_session (ops : list Op) (store : sessions)
    (k : string) :
  well_keyed store → Forall (fun op => target op ≠ k) ops →
  run ops store !! k = store !! k.
Proof.
  revert store. induction ops as [|op ops IH]; intros store Hwk Hall; simpl;
    [reflexivity|].
  apply Forall_cons in Hall as [Hop Hall].
  rewrite IH by (try apply apply_well_keyed; assumption).
  apply apply_frame; assumption.
Qed.

Lemma calls_touch_only_their_session_witness :
  run [AddMessage "s-2" upi_message "t1"; Create "s-3" "t2"; Delete "s-2"]
      sample_store !! "s-1"
  = sample_store !! "s-1".
Proof.
  apply calls_touch_only_their_session.
  - intros k s Hk. unfold sample_store in Hk. simpl in Hk.
    destruct (decide (k = "s-1")) as [->|Hne].
    + rewrite lookup_insert_eq in Hk. injection Hk as <-. reflexivity.
    + rewrite lookup_insert_ne, lookup_empty in Hk by congruence. discriminate.
  - repeat constructor; simpl; discriminate.
Defined.

(** X4. [add_message], [update_scam_status], [update_intelligence] and
    [mark_callback_sent] raise exactly when the session id is unknown,
    so none of them ever creates a session. *)
Theorem mutators_raise_iff_session_absent (store : sessions) (k : string) :
  (∀ m now, raises (add_message store k m now) ↔ store !! k = None)
  ∧ (∀ su de c now, raises (update_scam_status store k su de c now)
                    ↔ store !! k = None)
  ∧ (∀ i now, raises (update_intelligence store k i now) ↔ store !! k = None)
  ∧ (∀ notes now, raises (mark_callback_sent store k notes now)
                  ↔ store !! k = None)
  ∧ (store !! k = None →
     ∀ op, target op = k →
           match op with Create _ _ | GetOrCreate _ _ => True
                       | _ => apply store op = store end).
Proof.
  destruct (store !! k) as [s|] eqn:Hs.
  - destruct (mutator_shape store k s Hs) as (H1 & H2 & H3 & H4).
    repeat split; try discriminate; intros Hr; exfalso.
    + destruct (H1 m now) as (s' & Heq & _). rewrite Heq in Hr. exact Hr.
    + destruct (H2 su de c now) as (s' & Heq & _). rewrite Heq in Hr. exact Hr.
    + destruct (H3 i now) as (s' & Heq & _). rewrite Heq in Hr. exact Hr.
    + destruct (H4 notes now) as (s' & Heq & _). rewrite Heq in Hr. exact Hr.
  - destruct (mutator_absent store k Hs) as (H1 & H2 & H3 & H4).
    repeat split; auto.
    intros _ op Hop.
    destruct op as [j now|j now|j m now|j su de c now|j i now|j notes now|j];
      simpl in Hop |- *; subst j; try exact I.
    + specialize (H1 m now). destruct (add_message store k m now);
        [contradiction|reflexivity].
    + specialize (H2 su de c now). destruct (update_scam_status store k su de c now);
        [contradiction|reflexivity].
    + specialize (H3 i now). destruct (update_intelligence store k i now);
        [contradiction|reflexivity].
    + specialize (H4 notes now). destruct (mark_callback_sent store k notes now);
        [contradiction|reflexivity].
    + unfold delete_session. rewrite Hs. reflexivity.
Qed.

(** X5. [delete_session] reports whether the id was known; afterwards
    the id is unknown, every other session is untouched, a second
    delete reports [False], and the mutating methods raise for it. *)
Theorem delete_session_forgets (store : sessions) (k : string) :
  let '(store', found) := delete_session store k in
  (found = true ↔ is_Some (store !! k))
  ∧ get_session store' k = None
  ∧ (∀ j, j ≠ k → store' !! j = store !! j)
  ∧ delete_session store' k = (store', false)
  ∧ (∀ m now, raises (add_message store' k m now))
  ∧ (∀ su de c now, raises (update_scam_status store' k su de c now)).
Proof.
  unfold delete_session, get_session.
  destruct (store !! k) as [s|] eqn:Hs.
  - assert (Hgone : delete k store !! k = None) by apply lookup_delete_eq.
    destruct (mutator_absent _ k Hgone) as (H1 & H2 & _).
    rewrite Hgone. repeat split; eauto.
    intros j Hj. apply lookup_delete_ne. congruence.
  - destruct (mutator_absent _ k Hs) as (H1 & H2 & _).
    rewrite Hs. repeat split; auto; try discriminate.
    intros [x Hx]. discriminate.
Qed.

(** X6. [get_or_create_session] returns a known session as stored and
    leaves the dict alone, so calling it again changes nothing;
    [create_session] on a known id instead rebinds the id to a fresh
    session without messages. *)
Theorem get_or_create_keeps_existing (store : sessions) (k now now' : string) :
  let '(store1, s1) := get_or_create_session store k now in
  store1 !! k = Some s1
  ∧ (∀ s, store !! k = Some s → store1 = store ∧ s1 = s)
  ∧ (store !! k = None → s1 = new_session k now)
  ∧ get_or_create_session store1 k now' = (store1, s1)
  ∧ (create_session store1 k now').1 !! k = Some (new_session k now').
Proof.
  unfold get_or_create_session, get_session, create_session.
  destruct (store !! k) as [s|] eqn:Hs; simpl.
  - rewrite Hs. repeat split; try congruence; try discriminate.
    apply lookup_insert_eq.
  - rewrite lookup_insert_eq. repeat split; try discriminate.
    apply lookup_insert_eq.
Qed.

(** X7. Two successive [update_scam_status] calls on a session leave
    its flags and score as a single call with the disjunction of the
    flags and the larger confidence would. *)
Theorem update_scam_status_twice (store : sessions) (k : string) (s : SessionState)
    su1 de1 c1 su2 de2 c2 now1 now2 :
  store !! k = Some s → sessionId s = k →
  ∃ store1 s1 store2 s2 store' s',
    update_scam_status store k su1 de1 c1 now1 = Ok (store1, s1)
    ∧ update_scam_status store1 k su2 de2 c2 now2 = Ok (store2, s2)
    ∧ update_scam_status store k (su1 || su2) (de1 || de2) (Qmax c1 c2) now2
      = Ok (store', s')
    ∧ scamSuspected s2 = scamSuspected s'
    ∧ scamDetected s2 = scamDetected s'
    ∧ scamConfidenceScore s2 == scamConfidenceScore s'
    ∧ scamSuspected s2 = su1 || su2 || scamSuspected s
    ∧ scamDetected s2 = de1 || de2 || scamDetected s
    ∧ scamConfidenceScore s2 == Qmax (Qmax c1 c2) (scamConfidenceScore s).
Proof.
  intros Hs Hid.
  destruct (SessionFacts.update_scam_status_found store k s su1 de1 c1 now1 Hs)
    as (s1 & Hrun1 & Hsu1 & Hde1 & Hc1 & Hid1 & _).
  assert (Hs1 : <[sessionId s := s1]> store !! k = Some s1)
    by (rewrite Hid; apply lookup_insert_eq).
  destruct (SessionFacts.update_scam_status_found _ k s1 su2 de2 c2 now2 Hs1)
    as (s2 & Hrun2 & Hsu2 & Hde2 & Hc2 & _).
  destruct (SessionFacts.update_scam_status_found store k s (su1 || su2) (de1 || de2)
              (Qmax c1 c2) now2 Hs)
    as (s' & Hrun' & Hsu' & Hde' & Hc' & _).
  eexists _, s1, _, s2, _, s'.
  split; [exact Hrun1|]. split; [exact Hrun2|]. split; [exact Hrun'|].
  rewrite Hsu2, Hde2, Hc2, Hsu1, Hde1, Hc1, Hsu', Hde', Hc'.
  assert (Hmax : Qmax c2 (Qmax c1 (scamConfidenceScore s))
                 == Qmax (Qmax c1 c2) (scamConfidenceScore s)).
  { generalize (scamConfidenceScore s). intros c. qminmax. }
  repeat split; try exact Hmax;
    destruct su1, su2, de1, de2, (scamSuspected s), (scamDetected s); reflexivity.
Qed.

Lemma update_scam_status_twice_witness :
  ∃ store2 s2,
    update_scam_status
      (after (update_scam_status sample_store "s-1" true false 0.4 "t1") sample_store)
      "s-1" false true 0.9 "t2" = Ok (store2, s2)
    ∧ scamSuspected s2 = true ∧ scamDetected s2 = true.
Proof.
  destruct (update_scam_status_twice sample_store "s-1"
              (new_session "s-1" "2025-01-01T00:00:00")
              true false 0.4 false true 0.9 "t1" "t2" eq_refl eq_refl)
    as (store1 & s1 & store2 & s2 & _ & _ & H1 & H2 & _ & _ & _ & _ & Hsu & Hde & _).
  rewrite H1. simpl. exists store2, s2. auto.
Defined.

End StoreFacts.

(** ** From the session verdict to the callback *)

Module CallbackFlow.

Import ScamDetector SessionService CallbackService SessionOps Samples.

(** X8. Whatever session is analysed, recording the verdict of
    [analyze_session] with [update_scam_status] keeps "detected
    implies suspected": a confirmed verdict is always also a suspected
    one, because 0.51 is above 0.3. *)
Theorem verdict_keeps_detected_implies_suspected {F} (d : t F)
    (analysed : SessionState) (store : sessions) (k now : string) (s : SessionState) :
  store !! k = Some s →
  (scamDetected s = true → scamSuspected s = true) →
  let v := analyze_session d analysed in
  (v.1.2 = true → v.1.1.2 = true)
  ∧ ∃ store' s',
      update_scam_status store k v.1.1.2 v.1.2 v.1.1.1 now = Ok (store', s')
      ∧ (scamDetected s' = true → scamSuspected s' = true)
      ∧ scamConfidenceScore s' == Qmax v.1.1.1 (scamConfidenceScore s).
Proof.
  intros Hs Hinv v.
  assert (Hv : v.1.2 = true → v.1.1.2 = true).
  { subst v. rewrite SessionScore.analyze_session_unfold. cbn [fst snd].
    rewrite andb_true_iff, !Qle_bool_iff. intros [H _]. lra. }
  split; [exact Hv|].
  destruct (SessionFacts.update_scam_status_found store k s v.1.1.2 v.1.2 v.1.1.1
              now Hs) as (s' & Hrun & Hsu & Hde & Hc & _).
  eexists _, s'. split; [exact Hrun|]. rewrite Hsu, Hde, Hc.
  split; [|reflexivity].
  rewrite !orb_true_iff. intros [H|H]; auto.
Qed.

Lemma verdict_keeps_detected_implies_suspected_witness :
  ∃ store' s',
    update_scam_status sample_store "s-1"
      (analyze_session sample_detector two_message_session).1.1.2
      (analyze_session sample_detector two_message_session).1.2
      (analyze_session sample_detector two_message_session).1.1.1 "t1"
    = Ok (store', s')
    ∧ (scamDetected s' = true → scamSuspected s' = true).
Proof.
  destruct (verdict_keeps_detected_implies_suspected sample_detector
              two_message_session sample_store "s-1" "t1"
              (new_session "s-1" "2025-01-01T00:00:00") eq_refl)
    as (_ & store' & s' & Hrun & Hinv & _).
  - simpl. discriminate.
  - exists store', s'. auto.
Defined.

(** X9. [send_callback] refuses locally, with its two fixed reasons
    and without attempting a request, when the callback was already
    sent or the scam is not confirmed; otherwise it attempts exactly
    one request, carrying the session's id, flag, message count and
    intelligence, and reports success exactly for a 200 response,
    every failure coming with an error message. *)
Theorem send_callback_outcomes (post : CallbackPayload → HttpOutcome)
    (session : SessionState) (agent_notes : string) :
  let r := send_callback post session agent_notes in
  (callbackSent session = true →
   r = ((false, Some "Callback already sent for this session"), []))
  ∧ (callbackSent session = false → scamDetected session = false →
     r = ((false, Some "Cannot send callback - scam not confirmed"), []))
  ∧ (callbackSent session = false → scamDetected session = true →
     ∃ payload, r.2 = [payload]
       ∧ p_sessionId payload = sessionId session
       ∧ p_scamDetected payload = true
       ∧ p_totalMessagesExchanged payload = totalMessages session
       ∧ p_extractedIntelligence payload = extractedIntelligence session
       ∧ (r.1.1 = true ↔ ∃ body, post payload = Response 200 body))
  ∧ (r.1.1 = true → r.1.2 = None
                    ∧ callbackSent session = false ∧ scamDetected session = true)
  ∧ (r.1.1 = false → is_Some r.1.2).
Proof.
  unfold send_callback.
  destruct (callbackSent session) eqn:Hsent; simpl.
  { repeat split; try discriminate; eauto. }
  destruct (scamDetected session) eqn:Hdet; simpl.
  2: { repeat split; try discriminate; eauto. }
  split; [discriminate|]. split; [discriminate|].
  destruct (post (_build_payload session agent_notes)) as [code body| |msg|msg] eqn:Hpost;
    [destruct (Z.eqb_spec code 200) as [->|Hne]|..]; simpl.
  all: split; [intros _ _; eexists; split; [reflexivity|];
               rewrite Hpost; simpl; rewrite ?Hdet;
               repeat split; auto; try discriminate; eauto;
               try (intros (b & Hb); try discriminate; injection Hb; congruence)|].
  all: split; [try discriminate; auto|]; try discriminate; eauto.
Qed.

Lemma send_callback_outcomes_witness :
  (send_callback (fun _ => Response 200 "ok") (confirmed_session 3) "").1
  = (true, None).
Proof.
  pose proof (send_callback_outcomes (fun _ => Response 200 "ok")
                (confirmed_session 3) "") as (_ & _ & H & Hok & _).
  destruct (H eq_refl eq_refl) as (payload & _ & _ & _ & _ & _ & Hiff).
  assert (Ht : (send_callback (fun _ => Response 200 "ok")
                  (confirmed_session 3) "").1.1 = true)
    by (apply Hiff; eauto).
  destruct (Hok Ht) as (Hnone & _).
  destruct (send_callback _ _ _) as [[b e] tr]. simpl in *. congruence.
Defined.

(** X10. A session for which [should_send_callback] holds is never
    refused locally by [send_callback]: exactly one request is
    attempted, for a payload that reports the scam as detected and at
    least [min_messages_for_callback] messages. *)
Theorem eligible_session_is_posted (settings : Settings)
    (post : CallbackPayload → HttpOutcome) (session : SessionState)
    (agent_notes : string) :
  should_send_callback settings session = true →
  ∃ payload,
    (send_callback post session agent_notes).2 = [payload]
    ∧ payload = _build_payload session agent_notes
    ∧ p_scamDetected payload = true
    ∧ (min_messages_for_callback settings <= p_totalMessagesExchanged payload)%Z.
Proof.
  unfold should_send_callback, send_callback.
  destruct (callbackSent session); [discriminate|].
  destruct (scamDetected session) eqn:Hdet; simpl; [|discriminate].
  destruct (Z.ltb_spec (totalMessages session) (min_messages_for_callback settings));
    [discriminate|].
  intros _. eexists. split; [reflexivity|]. simpl. auto.
Qed.

Lemma eligible_session_is_posted_witness :
  ∃ payload,
    (send_callback (fun _ => TimeoutException) (confirmed_session 5) "note").2
    = [payload]
    ∧ p_agentNotes payload = "note".
Proof.
  destruct (eligible_session_is_posted default_settings (fun _ => TimeoutException)
              (confirmed_session 5) "note" eq_refl)
    as (payload & Hp & -> & _).
  eexists. split; [exact Hp|reflexivity].
Defined.

(** X11. [callbackSent] is a latch: once [mark_callback_sent] has run
    for a session, then, whatever calls follow that neither re-create
    nor delete the session, [should_send_callback] is false for every
    setting and [send_callback] refuses without attempting a request. *)
Theorem callback_sent_is_a_latch (store : sessions) (k notes now : string)
    (s : SessionState) (ops : list Op) (settings : Settings)
    (post : CallbackPayload → HttpOutcome) (agent_notes : string) :
  well_keyed store → store !! k = Some s → keeps k ops →
  ∃ store1 s1 s',
    mark_callback_sent store k notes now = Ok (store1, s1)
    ∧ callbackSent s1 = true
    ∧ run ops store1 !! k = Some s'
    ∧ callbackSent s' = true
    ∧ should_send_callback settings s' = false
    ∧ send_callback post s' agent_notes
      = ((false, Some "Callback already sent for this session"), []).
Proof.
  intros Hwk Hs Hkeep.
  destruct (StoreFacts.mutator_shape store k s Hs) as (_ & _ & _ & H).
  destruct (H notes now) as (s1 & Hrun & Hid & _ & _ & _ & Hsent).
  pose proof (Hwk _ _ Hs) as Hk.
  assert (Hwk1 : well_keyed (<[sessionId s := s1]> store)).
  { intros j t Hj. destruct (decide (sessionId s = j)) as [<-|Hne].
    - rewrite lookup_insert_eq in Hj. congruence.
    - rewrite lookup_insert_ne in Hj by assumption. eauto. }
  assert (Hs1 : <[sessionId s := s1]> store !! k = Some s1)
    by (rewrite Hk; apply lookup_insert_eq).
  destruct (StoreFacts.run_grows ops _ k s1 Hwk1 Hs1 Hkeep)
    as (s' & Hs' & _ & _ & _ & _ & _ & _ & Hcb & _).
  specialize (Hcb Hsent).
  eexists _, s1, s'. split; [exact Hrun|]. split; [exact Hsent|].
  split; [exact Hs'|]. split; [exact Hcb|].
  unfold should_send_callback, send_callback. rewrite Hcb. auto.
Qed.

Lemma callback_sent_is_a_latch_witness :
  ∃ store1 s1 s',
    mark_callback_sent sample_store "s-1" "done" "t1" = Ok (store1, s1)
    ∧ run [AddMessage "s-1" upi_message "t2";
           UpdateScamStatus "s-1" true true 0.95 "t3"] store1 !! "s-1" = Some s'
    ∧ should_send_callback default_settings s' = false.
Proof.
  destruct (callback_sent_is_a_latch sample_store "s-1" "done" "t1"
              (new_session "s-1" "2025-01-01T00:00:00")
              [AddMessage "s-1" upi_message "t2";
               UpdateScamStatus "s-1" true true 0.95 "t3"]
              default_settings (fun _ => TimeoutException) "")
    as (store1 & s1 & s' & H1 & _ & H2 & _ & H3 & _).
  - intros k s Hk. unfold sample_store in Hk. simpl in Hk.
    destruct (decide (k = "s-1")) as [->|Hne].
    + rewrite lookup_insert_eq in Hk. injection Hk as <-. reflexivity.
    + rewrite lookup_insert_ne, lookup_empty in Hk by congruence. discriminate.
  - reflexivity.
  - repeat constructor; simpl; intros _; exact I.
  - exists store1, s1, s'. auto.
Defined.

End CallbackFlow.

(** ** Keyword evidence *)

Module EvidenceFacts.

Import ScamDetector Spec Samples.

Lemma prefix_of_take (n : nat) (l : list ascii) : Str.prefix_of (take n l) l = true.
Proof.
  revert n. induction l as [|c l IH]; intros [|n]; simpl; try reflexivity.
  rewrite decide_True by reflexivity. apply IH.
Qed.

Lemma infix_of_take (n : nat) (l : list ascii) : Str.infix_of (take n l) l = true.
Proof.
  destruct l as [|c l].
  - rewrite take_nil. reflexivity.
  - cbn [Str.infix_of]. rewrite prefix_of_take. reflexivity.
Qed.

Lemma infix_of_suffix (p l l' : list ascii) :
  l `suffix_of` l' → Str.infix_of p l = true → Str.infix_of p l' = true.
Proof.
  intros [k ->] H. induction k as [|c k IH]; simpl; [exact H|].
  change (Str.prefix_of p (c :: k ++ l) || Str.infix_of p (k ++ l) = true).
  rewrite IH. apply orb_true_r.
Qed.

Lemma step_result_suffix {R} (ok : ascii → bool) (s : list ascii)
    (k : option ascii → list ascii → option R) (x : R) :
  Re.step ok s k = Some x → ∃ p s', s' `suffix_of` s ∧ k p s' = Some x.
Proof.
  destruct s as [|c s]; simpl; [discriminate|].
  destruct (ok c); [|discriminate].
  intros H. exists (Some c), s. split; [|exact H].
  apply suffix_cons_r. reflexivity.
Qed.

Lemma star_loop_result_suffix {R} (body : Re.matcher R)
    (k : option ascii → list ascii → option R) (x : R) :
  (∀ prev s c, body prev s c = Some x →
               ∃ p s', s' `suffix_of` s ∧ c p s' = Some x) →
  ∀ n prev s, Re.star_loop body k n prev s = Some x →
              ∃ p s', s' `suffix_of` s ∧ k p s' = Some x.
Proof.
  intros Hbody. induction n as [|n IH]; intros prev s; simpl.
  - intros H. exists prev, s. split; [reflexivity|exact H].
  - destruct (body prev s _) as [y|] eqn:Hmore.
    + intros [= ->]. apply Hbody in Hmore as (p & s' & Hsuf & Hk).
      destruct (length s' <? length s)%nat; [|discriminate].
      apply IH in Hk as (p' & s'' & Hsuf' & Hk).
      exists p', s''. split; [|exact Hk]. etrans; eassumption.
    + intros H. exists prev, s. split; [reflexivity|exact H].
Qed.

(** The continuation is entered on a suffix of the input. *)
Lemma bt_result_suffix {R} (r : Re.regex) (x : R) :
  ∀ prev s (k : option ascii → list ascii → option R),
    Re.bt r prev s k = Some x → ∃ p s', s' `suffix_of` s ∧ k p s' = Some x.
Proof.
  induction r as [|c| |neg items| |r1 IH1 r2 IH2|r1 IH1 r2 IH2|r1 IH1];
    intros prev s k; simpl.
  - intros H. exists prev, s. split; [reflexivity|exact H].
  - apply step_result_suffix.
  - apply step_result_suffix.
  - apply step_result_suffix.
  - destruct (xorb _ _); [|discriminate].
    intros H. exists prev, s. split; [reflexivity|exact H].
  - intros H. apply IH1 in H as (p & s' & Hsuf & H).
    apply IH2 in H as (p' & s'' & Hsuf' & H).
    exists p', s''. split; [|exact H]. etrans; eassumption.
  - destruct (Re.bt r1 prev s k) as [y|] eqn:H1.
    + intros [= ->]. apply IH1 in H1. exact H1.
    + apply IH2.
  - apply star_loop_result_suffix. exact IH1.
Qed.

Lemma match_here_shape (r : Re.regex) prev s m rest :
  Re.match_here r prev s = Some (m, rest) →
  rest `suffix_of` s ∧ m = take (length s - length rest) s.
Proof.
  unfold Re.match_here. intros H.
  apply bt_result_suffix in H as (_ & rest' & Hsuf & [= <- <-]). auto.
Qed.

(** Every string that [findall] returns occurs in the text. *)
Lemma findall_from_infix (r : Re.regex) :
  ∀ fuel prev s k,
    k ∈ Re.findall_from fuel r prev s → Str.infix_of (Str.chars k) s = true.
Proof.
  induction fuel as [|fuel IH]; intros prev s k Hk; simpl in Hk.
  - apply elem_of_nil in Hk. contradiction.
  - destruct (Re.match_here r prev s) as [[m rest]|] eqn:Hm.
    + apply match_here_shape in Hm as [Hsuf Hmeq].
      assert (Hhead : Str.infix_of (Str.chars (Str.of_chars m)) s = true)
        by (rewrite BankFacts.chars_of_chars, Hmeq; apply infix_of_take).
      destruct m as [|c m]; [destruct s as [|c' s]|].
      * apply list_elem_of_singleton in Hk as ->. exact Hhead.
      * apply elem_of_cons in Hk as [->|Hk]; [exact Hhead|].
        apply IH in Hk. eapply infix_of_suffix; [|exact Hk].
        apply suffix_cons_r. reflexivity.
      * apply elem_of_cons in Hk as [->|Hk]; [exact Hhead|].
        apply IH in Hk. eapply infix_of_suffix; eassumption.
    + destruct s as [|c s]; [apply elem_of_nil in Hk; contradiction|].
      apply IH in Hk. eapply infix_of_suffix; [|exact Hk].
      apply suffix_cons_r. reflexivity.
Qed.

Lemma findall_infix (r : Re.regex) (text k : string) :
  k ∈ Re.findall r text → Str.contains k text = true.
Proof.
  unfold Re.findall, Str.contains. apply findall_from_infix.
Qed.

(** A pattern that is found yields at least one match. *)
Lemma findall_from_found (r : Re.regex) :
  ∀ s prev fuel,
    is_Some (Re.scan r prev s) → (length s < fuel)%nat →
    Re.findall_from fuel r prev s ≠ [].
Proof.
  induction s as [|c s IH]; intros prev fuel Hscan Hfuel;
    (destruct fuel as [|fuel]; [lia|]); simpl in *.
  - destruct (Re.match_here r prev []) as [[m rest]|]; [|destruct Hscan; discriminate].
    destruct m; discriminate.
  - destruct (Re.match_here r prev (c :: s)) as [[m rest]|].
    + destruct m; discriminate.
    + apply IH; [assumption|lia].
Qed.

Lemma findall_nonempty_of_search (r : Re.regex) (text : string) :
  Re.search r text = true → Re.findall r text ≠ [].
Proof.
  unfold Re.search, Re.findall. intros H. apply bool_decide_eq_true in H.
  apply findall_from_found; [assumption|lia].
Qed.

Lemma count_zero_iff (text : string) (patterns : list Re.regex) :
  _count_pattern_matches text patterns = O ↔
  ∀ p, p ∈ patterns → Re.search p text = false.
Proof.
  unfold _count_pattern_matches. rewrite length_zero_iff_nil. split.
  - intros Hnil p Hp. destruct (Re.search p text) eqn:E; [|reflexivity].
    assert (Hin : p ∈ filter (fun p => Re.search p text = true) patterns)
      by (apply list_elem_of_filter; auto).
    rewrite Hnil in Hin. apply elem_of_nil in Hin. contradiction.
  - intros Hall. induction patterns as [|p l IH]; [reflexivity|].
    rewrite filter_cons_False.
    + apply IH. intros q Hq. apply Hall. right. exact Hq.
    + rewrite (Hall p) by left. discriminate.
Qed.

Lemma Qsum_zero_each (l : list Q) :
  Forall (fun x => 0 <= x) l → Qsum l == 0 → Forall (fun x => x == 0) l.
Proof.
  induction 1 as [|x l Hx Hl IH]; simpl; intros Hsum; [constructor|].
  pose proof (SessionScore.Qsum_nonneg l Hl) as Hnn.
  constructor; [lra|]. apply IH. lra.
Qed.

Lemma families_table {F} (d : t F) :
  Forall (fun fam : list Re.regex * Q * Q => 0.05 <= fam.1.2 ∧ 0.05 <= fam.2)
    (families d).
Proof.
  unfold families. repeat constructor; simpl; lra.
Qed.

Section WithFeatures.

Context {F : Type}.

Lemma family_score_zero_iff (text : string) (fam : list Re.regex * Q * Q) :
  0.05 <= fam.1.2 → 0.05 <= fam.2 →
  (family_score text fam == 0 ↔ _count_pattern_matches text fam.1.1 = O)
  ∧ 0 <= family_score text fam
  ∧ ((0 < _count_pattern_matches text fam.1.1)%nat → 0.05 <= family_score text fam).
Proof.
  destruct fam as [[patterns w] cap]. simpl. intros Hw Hcap.
  set (n := _count_pattern_matches text patterns).
  assert (Hpos : (0 < n)%nat → 0.05 <= Qmin (count_Q n * w) cap).
  { intros Hn. assert (1 <= count_Q n).
    { unfold count_Q. change 1 with (inject_Z 1). rewrite <- Zle_Qle. lia. }
    assert (1 * w <= count_Q n * w) by (apply Qmult_le_compat_r; lra).
    qminmax. }
  split; [|split; [|exact Hpos]].
  - split.
    + intros Hz. destruct n as [|n]; [reflexivity|].
      assert (0.05 <= Qmin (count_Q (S n) * w) cap) by (apply Hpos; lia). lra.
    + intros ->. change (count_Q 0) with 0. qminmax.
  - destruct n as [|n]; [change (count_Q 0) with 0; qminmax|].
    assert (0.05 <= Qmin (count_Q (S n) * w) cap) by (apply Hpos; lia). lra.
Qed.

Lemma rule_score_zero_iff (d : t F) (text : string) :
  (rule_pass d text).1 == 0 ↔ unmatched d text.
Proof.
  rewrite DetectorFacts.rule_pass_score. unfold capped_family_sum, unmatched.
  pose proof (families_table d) as Htab.
  split.
  - intros Hsum fam Hfam.
    assert (Hz : Forall (fun x => x == 0) (map (family_score text) (families d))).
    { apply Qsum_zero_each; [|exact Hsum].
      apply Forall_fmap, Forall_forall. intros f Hf. simpl.
      rewrite Forall_forall in Htab. destruct (Htab f Hf) as [Hw Hc].
      apply (family_score_zero_iff text f Hw Hc). }
    rewrite Forall_fmap, Forall_forall in Hz. specialize (Hz fam Hfam). simpl in Hz.
    rewrite Forall_forall in Htab. destruct (Htab fam Hfam) as [Hw Hc].
    apply (family_score_zero_iff text fam Hw Hc). exact Hz.
  - intros Hall.
    assert (Hz : Forall (fun x => x == 0) (map (family_score text) (families d))).
    { apply Forall_fmap, Forall_forall. intros f Hf. simpl.
      rewrite Forall_forall in Htab. destruct (Htab f Hf) as [Hw Hc].
      apply (family_score_zero_iff text f Hw Hc). apply Hall, Hf. }
    induction Hz as [|x l Hx _ IH]; simpl; [reflexivity|]. lra.
Qed.

Lemma keywords_nil_iff (d : t F) (text : string) :
  remove_dups (rule_pass d text).2 = [] ↔ unmatched d text.
Proof.
  unfold unmatched. split.
  - intros Hnil fam Hfam. apply count_zero_iff. intros p Hp.
    destruct (Re.search p text) eqn:E; [exfalso|reflexivity].
    apply findall_nonempty_of_search in E.
    destruct (Re.findall p text) as [|k ks] eqn:Hf; [contradiction|].
    assert (Hk : k ∈ remove_dups (rule_pass d text).2).
    { rewrite elem_of_remove_dups, DetectorFacts.rule_pass_keywords,
        RuleScore.elem_of_concat.
      exists (_extract_matched_keywords text fam.1.1). split.
      - apply list_elem_of_fmap. eauto.
      - apply RuleScore.elem_of_extracted. exists p. split; [assumption|].
        rewrite Hf. left. }
    rewrite Hnil in Hk. apply elem_of_nil in Hk. contradiction.
  - intros Hall.
    assert (Hnil : (rule_pass d text).2 = []).
    { rewrite DetectorFacts.rule_pass_keywords.
      assert (Hfam : Forall (fun fam : list Re.regex * Q * Q =>
                               _extract_matched_keywords text fam.1.1 = [])
                       (families d)).
      { apply Forall_forall. intros fam Hfam.
        apply DetectorFacts.count_zero_no_keywords, Hall, Hfam. }
      clear Hall. induction Hfam as [|fam l Hf _ IH]; simpl; [reflexivity|].
      rewrite Hf. exact IH. }
    rewrite Hnil. reflexivity.
Qed.

(** X12. A message gets rule score 0 exactly when no pattern of any
    family is found in it, which is exactly when no keyword is
    returned; the returned score is then the classifier score alone
    (cut to [[0,1]]), and as soon as one pattern is found the rule
    score is at least 0.05. *)
Theorem rule_score_zero_iff_no_evidence (d : t F) (message : Message) :
  let text := Str.lower (text message) in
  let rule_score := (rule_pass d text).1 in
  (rule_score == 0 ↔ unmatched d text)
  ∧ ((analyze_message d message).2 = [] ↔ unmatched d text)
  ∧ (rule_score == 0 →
     (analyze_message d message).1 == Qmin (Qmax 0 (ml_pass d text)) 1)
  ∧ (¬ rule_score == 0 → 0.05 <= rule_score).
Proof.
  intros text rule_score. subst rule_score.
  rewrite DetectorFacts.analyze_message_unfold. fold text. cbn [fst snd].
  split; [apply rule_score_zero_iff|]. split; [apply keywords_nil_iff|]. split.
  - intros Hz. generalize dependent (rule_pass d text).1. intros r Hz.
    generalize (ml_pass d text). intros m. qminmax.
  - intros Hnz.
    assert (Hex : ∃ fam, fam ∈ families d
                         ∧ (0 < _count_pattern_matches text fam.1.1)%nat).
    { destruct (decide (Forall (fun fam : list Re.regex * Q * Q =>
                                  _count_pattern_matches text fam.1.1 = O)
                          (families d))) as [Hall|Hsome].
      - exfalso. apply Hnz, rule_score_zero_iff. intros fam Hfam.
        rewrite Forall_forall in Hall. apply Hall, Hfam.
      - apply not_Forall_Exists in Hsome; [|intros x; apply _].
        apply Exists_exists in Hsome as (fam & Hfam & Hn).
        exists fam. split; [assumption|]. simpl in Hn. lia. }
    destruct Hex as (fam & Hfam & Hn).
    rewrite DetectorFacts.rule_pass_score. unfold capped_family_sum.
    pose proof (families_table d) as Htab. rewrite Forall_forall in Htab.
    assert (Hnn : Forall (fun x => 0 <= x) (map (family_score text) (families d))).
    { apply Forall_fmap, Forall_forall. intros f Hf. simpl.
      destruct (Htab f Hf) as [Hw Hc]. apply (family_score_zero_iff text f Hw Hc). }
    assert (Hbig : 0.05 <= family_score text fam).
    { destruct (Htab fam Hfam) as [Hw Hc].
      apply (family_score_zero_iff text fam Hw Hc), Hn. }
    apply list_elem_of_fmap_2 with (f := family_score text) in Hfam.
    change (family_score text fam ∈ map (family_score text) (families d)) in Hfam.
    revert Hnn Hfam. generalize (map (family_score text) (families d)).
    intros l Hnn Hin. induction Hnn as [|x l Hx Hl IH]; simpl.
    + apply elem_of_nil in Hin. contradiction.
    + pose proof (SessionScore.Qsum_nonneg l Hl).
      apply elem_of_cons in Hin as [<-|Hin]; [lra|].
      specialize (IH Hin). unfold Qsum in *. lra.
Qed.

(** X13. Every keyword that [analyze_message] returns occurs, as it
    is, in the lowercased text of the message. *)
Theorem keywords_occur_in_text (d : t F) (message : Message) (k : string) :
  k ∈ (analyze_message d message).2 →
  Str.contains k (Str.lower (text message)) = true.
Proof.
  rewrite DetectorFacts.analyze_message_unfold. cbn [snd].
  rewrite elem_of_remove_dups, DetectorFacts.rule_pass_keywords,
    RuleScore.elem_of_concat.
  intros (l & Hl & Hk). apply list_elem_of_fmap in Hl as (fam & -> & _).
  apply RuleScore.elem_of_extracted in Hk as (p & _ & Hk).
  apply findall_infix in Hk. exact Hk.
Qed.

End WithFeatures.

Lemma rule_score_zero_iff_no_evidence_witness :
  (analyze_message sample_detector (scammer_says "Hello, how are you?")).2 = [].
Proof.
  apply (rule_score_zero_iff_no_evidence sample_detector
           (scammer_says "Hello, how are you?")).
  apply (rule_score_zero_iff_no_evidence sample_detector
           (scammer_says "Hello, how are you?")).
  vm_compute. reflexivity.
Defined.

Lemma keywords_occur_in_text_witness :
  Str.contains "upi id"
    (Str.lower "Share your UPI ID to reactivate your blocked account") = true.
Proof.
  apply (keywords_occur_in_text sample_detector
           (scammer_says "Share your UPI ID to reactivate your blocked account")).
  vm_compute. repeat (first [left; reflexivity | right]).
Defined.

End EvidenceFacts.

(** ** The session verdict and the scam type *)

Module VerdictFacts.

Import ScamDetector Spec Samples.

Lemma lower_char_idem (c : ascii) :
  Str.lower_char (Str.lower_char c) = Str.lower_char c.
Proof.
  destruct c as [[] [] [] [] [] [] [] []]; reflexivity.
Qed.

Lemma lower_idem (s : string) : Str.lower (Str.lower s) = Str.lower s.
Proof.
  unfold Str.lower. rewrite BankFacts.chars_of_chars, map_map. f_equal.
  apply map_ext. intros c. apply lower_char_idem.
Qed.

Lemma any_in_ext (triggers a b : list string) :
  (∀ k, k ∈ a ↔ k ∈ b) → any_in triggers a = any_in triggers b.
Proof.
  intros Hab. unfold any_in. induction triggers as [|x l IH]; simpl; [reflexivity|].
  rewrite IH. f_equal. unfold Str.mem. apply bool_decide_ext, Hab.
Qed.

Lemma any_in_false (triggers a : list string) :
  any_in triggers a = false ↔ Forall (fun k => k ∉ a) triggers.
Proof.
  unfold any_in. induction triggers as [|x l IH]; simpl.
  - split; [constructor|reflexivity].
  - rewrite orb_false_iff, IH, Forall_cons. unfold Str.mem.
    rewrite bool_decide_eq_false. reflexivity.
Qed.

(** X14. [get_scam_type] depends only on which lowercased keywords are
    present: order, repetition and letter case of the keywords do not
    matter. A banking trigger wins over every other category, and the
    answer is "General Scam" exactly when none of the nineteen trigger
    words is among the lowercased keywords. *)
Theorem scam_type_by_lowercased_membership (keywords : list string) :
  (∀ keywords', (∀ k, k ∈ map Str.lower keywords ↔ k ∈ map Str.lower keywords') →
                get_scam_type keywords' = get_scam_type keywords)
  ∧ get_scam_type (map Str.lower keywords) = get_scam_type keywords
  ∧ ((∃ k, k ∈ ["bank"; "account"; "blocked"; "suspended"]
           ∧ k ∈ map Str.lower keywords) →
     get_scam_type keywords = "Banking Fraud")
  ∧ (get_scam_type keywords = "General Scam" ↔
     Forall (fun k => k ∉ map Str.lower keywords) scam_type_triggers).
Proof.
  assert (Hext : ∀ keywords',
            (∀ k, k ∈ map Str.lower keywords ↔ k ∈ map Str.lower keywords') →
            get_scam_type keywords' = get_scam_type keywords).
  { intros keywords' Hsame. unfold get_scam_type.
    rewrite !(any_in_ext _ (map Str.lower keywords') (map Str.lower keywords));
      [reflexivity|..]; intros k; symmetry; apply Hsame. }
  split; [exact Hext|]. split; [|split].
  - apply Hext. intros k. rewrite map_map.
    erewrite (map_ext (fun x => Str.lower (Str.lower x))); [reflexivity|].
    intros x. apply lower_idem.
  - intros (k & Hk & Hin). unfold get_scam_type.
    destruct (any_in ["bank"; "account"; "blocked"; "suspended"]
                (map Str.lower keywords)) eqn:E; [reflexivity|].
    apply any_in_false in E. rewrite Forall_forall in E.
    exfalso. exact (E k Hk Hin).
  - unfold get_scam_type, scam_type_triggers.
    destruct (any_in ["bank"; "account"; "blocked"; "suspended"] _) eqn:E1;
      [|destruct (any_in ["otp"; "pin"; "password"; "cvv"] _) eqn:E2;
        [|destruct (any_in ["prize"; "lottery"; "winner"; "reward"] _) eqn:E3;
          [|destruct (any_in ["upi"; "paytm"; "gpay"; "phonepe"] _) eqn:E4;
            [|destruct (any_in ["kyc"; "aadhaar"; "pan"] _) eqn:E5]]]].
    6: { apply any_in_false in E1, E2, E3, E4, E5.
         split; [intros _|reflexivity].
         change (Forall (fun k => k ∉ map Str.lower keywords)
                   (["bank"; "account"; "blocked"; "suspended"]
                    ++ ["otp"; "pin"; "password"; "cvv"]
                    ++ ["prize"; "lottery"; "winner"; "reward"]
                    ++ ["upi"; "paytm"; "gpay"; "phonepe"]
                    ++ ["kyc"; "aadhaar"; "pan"])%list).
         rewrite !Forall_app. auto. }
    all: split; [discriminate|]; intros Hall; exfalso.
    all: change (Forall (fun k => k ∉ map Str.lower keywords)
                   (["bank"; "account"; "blocked"; "suspended"]
                    ++ ["otp"; "pin"; "password"; "cvv"]
                    ++ ["prize"; "lottery"; "winner"; "reward"]
                    ++ ["upi"; "paytm"; "gpay"; "phonepe"]
                    ++ ["kyc"; "aadhaar"; "pan"])%list) in Hall.
    all: rewrite !Forall_app in Hall;
      destruct Hall as (H1 & H2 & H3 & H4 & H5);
      apply any_in_false in H1, H2, H3, H4, H5; congruence.
Qed.

Lemma scam_type_by_lowercased_membership_witness :
  get_scam_type ["OTP"; "Your BANK"; "Bank"] = "Banking Fraud".
Proof.
  apply (scam_type_by_lowercased_membership ["OTP"; "Your BANK"; "Bank"]).
  exists "bank". split; [left|]. simpl. right. right. left.
Defined.

Section WithFeatures.

Context {F : Type}.

Lemma session_loop_filter (d : t F) (msgs : list Message) :
  ∀ acc, fold_left (session_step d) msgs acc
         = fold_left (session_step d) (filter (fun m => from_scammer m = true) msgs) acc.
Proof.
  induction msgs as [|m msgs IH]; intros acc; [reflexivity|].
  destruct (from_scammer m) eqn:Hm.
  - rewrite filter_cons_True by assumption. simpl. apply IH.
  - rewrite filter_cons_False by congruence. simpl. rewrite <- IH.
    f_equal. destruct acc as [[total kws] n]. unfold session_step. rewrite Hm.
    reflexivity.
Qed.

(** X15. [analyze_session] reads only the messages whose lowered
    sender is "scammer": two sessions with the same scammer messages
    get the same verdict, whatever else they contain. Without any
    scammer message the score is 0, the session is neither suspected
    nor confirmed and there are no keywords. *)
Theorem session_verdict_reads_scammer_only (d : t F) (a : SessionState) :
  (∀ b, filter (fun m => from_scammer m = true) (messages a)
        = filter (fun m => from_scammer m = true) (messages b) →
        analyze_session d a = analyze_session d b)
  ∧ (filter (fun m => from_scammer m = true) (messages a) = [] →
     (analyze_session d a).1.1.1 == 0
     ∧ (analyze_session d a).1.1.2 = false
     ∧ (analyze_session d a).1.2 = false
     ∧ (analyze_session d a).2 = []).
Proof.
  split.
  - intros b Hsame. unfold analyze_session, session_loop.
    rewrite (session_loop_filter d (messages a)),
      (session_loop_filter d (messages b)), Hsame. reflexivity.
  - intros Hnone. unfold analyze_session, session_loop.
    rewrite session_loop_filter, Hnone. simpl.
    split; [vm_compute; reflexivity|]. auto.
Qed.

End WithFeatures.

Lemma session_verdict_reads_scammer_only_witness :
  (analyze_session sample_detector
     {| sessionId := "s-9";
        messages := [{| sender := "user"; text := "Share your UPI ID";
                        timestamp := "t" |}];
        totalMessages := 1; scamSuspected := false; scamDetected := false;
        scamConfidenceScore := 0; extractedIntelligence := Intel.empty;
        callbackSent := false; agentNotes := ""; updatedAt := "t" |}).1.1.2
  = false.
Proof.
  apply (session_verdict_reads_scammer_only sample_detector). reflexivity.
Defined.

End VerdictFacts.

(** ** The filters of the intelligence extractor *)

Module ExtractorFacts.

Import IntelligenceExtractor Spec Samples.

Lemma of_chars_chars (s : string) : Str.of_chars (Str.chars s) = s.
Proof. apply string_of_list_ascii_of_string. Qed.

Lemma append_new_fold valid f (xs : list string) :
  ∀ acc, NoDup acc →
    NoDup (fold_left (append_new valid f) xs acc)
    ∧ ∀ y, y ∈ fold_left (append_new valid f) xs acc ↔
           y ∈ acc ∨ ∃ x, x ∈ xs ∧ valid x = true ∧ y = f x.
Proof.
  induction xs as [|x xs IH]; intros acc Hnd; simpl.
  - split; [assumption|]. intros y. split; [auto|].
    intros [?|(x & Hx & _)]; [assumption|]. apply elem_of_nil in Hx. contradiction.
  - assert (Hstep : NoDup (append_new valid f acc x)
                    ∧ ∀ y, y ∈ append_new valid f acc x ↔
                           y ∈ acc ∨ (valid x = true ∧ y = f x)).
    { unfold append_new, Str.mem. destruct (valid x) eqn:Hv.
      - case_bool_decide as Hin.
        + split; [assumption|]. intros y. split; [auto|].
          intros [?|[_ ->]]; assumption.
        + split.
          * apply NoDup_app. split; [assumption|]. split; [|apply NoDup_singleton].
            intros z Hz Hz'. apply list_elem_of_singleton in Hz'. subst. contradiction.
          * intros y. rewrite elem_of_app, list_elem_of_singleton. split.
            -- intros [?| ->]; auto.
            -- intros [?|[_ ->]]; auto.
      - split; [assumption|]. intros y. split; [auto|].
        intros [?|[? _]]; [assumption|discriminate]. }
    destruct Hstep as [Hnd' Hel].
    destruct (IH _ Hnd') as [Hnd'' Hel'].
    split; [assumption|]. intros y. rewrite Hel', Hel. split.
    + intros [[?|[Hv ->]]|(x' & Hx' & Hv & ->)]; [auto| |].
      * right. exists x. split; [left|]. auto.
      * right. exists x'. split; [right; assumption|]. auto.
    + intros [?|(x' & Hx' & Hv & ->)]; [auto|].
      apply elem_of_cons in Hx' as [->|Hx']; [auto|].
      right. exists x'. auto.
Qed.

Lemma filter_phone_numbers_as_loop (matches : list string) :
  _filter_phone_numbers matches
  = fold_left (append_new (fun m => phone_valid (phone_clean m))
                 (fun m => "+91" +:+ phone_clean m)) matches [].
Proof. reflexivity. Qed.

Lemma strip_phone_clean (m : string) :
  Forall (fun c => ¬ phone_separator c) (Str.chars (strip_phone m)).
Proof.
  unfold strip_phone. rewrite BankFacts.chars_of_chars.
  apply Forall_forall. intros c Hc. apply list_elem_of_filter in Hc as [Hc _].
  exact Hc.
Qed.

Lemma phone_clean_no_separator (m : string) :
  Forall (fun c => ¬ phone_separator c) (Str.chars (phone_clean m)).
Proof.
  pose proof (strip_phone_clean m) as H. unfold phone_clean, drop_chars.
  destruct (_ && _); [|destruct (_ && _)];
    rewrite ?BankFacts.chars_of_chars; try apply Forall_drop; exact H.
Qed.

(** X16. [_filter_phone_numbers] keeps a match exactly when, with
    separators and "+" removed and a leading "91" or "0" dropped from
    a number longer than ten characters, ten characters remain of
    which the first is 6, 7, 8 or 9; what it stores is "+91" followed
    by those ten characters, thirteen characters without separator,
    and it stores no number twice. *)
Theorem filter_phone_numbers_normalises (matches : list string) :
  NoDup (_filter_phone_numbers matches)
  ∧ ∀ p, p ∈ _filter_phone_numbers matches ↔
      ∃ m, m ∈ matches
           ∧ phone_valid (phone_clean m) = true
           ∧ p = "+91" +:+ phone_clean m
           ∧ Str.len p = 13%nat
           ∧ Str.startswith p "+91" = true
           ∧ Forall (fun c => ¬ phone_separator c) (Str.chars (phone_clean m)).
Proof.
  rewrite filter_phone_numbers_as_loop.
  destruct (append_new_fold (fun m => phone_valid (phone_clean m))
              (fun m => "+91" +:+ phone_clean m) matches [] NoDup_nil_2)
    as [Hnd Hel].
  split; [exact Hnd|]. intros p. rewrite Hel. split.
  - intros [Hnil|(m & Hm & Hv & ->)]; [apply elem_of_nil in Hnil; contradiction|].
    exists m. split; [assumption|]. split; [assumption|]. split; [reflexivity|].
    assert (Hlen : Str.len (phone_clean m) = 10%nat).
    { unfold phone_valid in Hv. apply andb_true_iff in Hv as [Hl _].
      apply Nat.eqb_eq in Hl. exact Hl. }
    split; [|split].
    + unfold Str.len in *. rewrite BankFacts.chars_append, length_app, Hlen.
      reflexivity.
    + unfold Str.startswith. rewrite BankFacts.chars_append. reflexivity.
    + apply phone_clean_no_separator.
  - intros (m & Hm & Hv & -> & _). right. exists m. auto.
Qed.

Lemma phone_clean_plain (d : string) :
  Str.len d = 10%nat →
  Forall (fun c => ¬ phone_separator c) (Str.chars d) →
  strip_phone d = d ∧ phone_clean d = d.
Proof.
  intros Hlen Hsep.
  assert (Hstrip : strip_phone d = d).
  { unfold strip_phone.
    rewrite (BankFacts.filter_all (fun c => ¬ phone_separator c)) by exact Hsep.
    apply of_chars_chars. }
  split; [exact Hstrip|].
  unfold phone_clean. rewrite Hstrip, Hlen. simpl. rewrite !andb_false_r. reflexivity.
Qed.

Lemma strip_phone_prefixed (pre d : string) :
  Forall (fun c => ¬ phone_separator c) (Str.chars d) →
  Str.chars (strip_phone (pre +:+ d))
  = (filter (fun c => ¬ phone_separator c) (Str.chars pre) ++ Str.chars d)%list.
Proof.
  intros Hsep. unfold strip_phone.
  rewrite BankFacts.chars_of_chars, BankFacts.chars_append.
  rewrite filter_app, (BankFacts.filter_all (fun c => ¬ phone_separator c) (Str.chars d))
    by exact Hsep.
  reflexivity.
Qed.

Lemma phone_clean_of_stripped (m d : string) :
  Str.len d = 10%nat →
  (Str.chars (strip_phone m) = ("9" :: "1" :: Str.chars d)%char
   ∨ Str.chars (strip_phone m) = ("0" :: Str.chars d)%char) →
  phone_clean m = d.
Proof.
  unfold Str.len. intros Hlen [H|H];
    unfold phone_clean, Str.startswith, Str.len, drop_chars; rewrite H; simpl;
    rewrite Hlen; simpl; apply of_chars_chars.
Qed.

Lemma phone_spellings_clean (d : string) :
  Str.len d = 10%nat →
  Forall (fun c => ¬ phone_separator c) (Str.chars d) →
  Forall (fun m => phone_clean m = d) (phone_spellings d).
Proof.
  intros Hlen Hsep. unfold phone_spellings.
  repeat apply Forall_cons_2; try apply Forall_nil_2.
  - apply phone_clean_plain; assumption.
  - apply phone_clean_of_stripped; [assumption|]. left.
    rewrite strip_phone_prefixed by assumption. reflexivity.
  - apply phone_clean_of_stripped; [assumption|]. left.
    rewrite strip_phone_prefixed by assumption. reflexivity.
  - apply phone_clean_of_stripped; [assumption|]. left.
    rewrite strip_phone_prefixed by assumption. reflexivity.
  - apply phone_clean_of_stripped; [assumption|]. left.
    rewrite strip_phone_prefixed by assumption. reflexivity.
  - apply phone_clean_of_stripped; [assumption|]. left.
    rewrite strip_phone_prefixed by assumption. reflexivity.
  - apply phone_clean_of_stripped; [assumption|]. right.
    rewrite strip_phone_prefixed by assumption. reflexivity.
Qed.

(** X17. The spellings of one mobile number ([d], "+91"[d],
    "+91-"[d], "+91 "[d], "91"[d], "91-"[d], "0"[d]) all normalise to
    the same entry: whatever non-empty mixture of them is found,
    [_filter_phone_numbers] returns the single number "+91"[d]. *)
Theorem phone_spellings_collapse (d : string) (matches : list string) :
  phone_valid d = true →
  Forall (fun c => ¬ phone_separator c) (Str.chars d) →
  matches ≠ [] → Forall (fun m => m ∈ phone_spellings d) matches →
  _filter_phone_numbers matches = ["+91" +:+ d].
Proof.
  intros Hvalid Hsep Hne Hall.
  assert (Hlen : Str.len d = 10%nat).
  { unfold phone_valid in Hvalid. apply andb_true_iff in Hvalid as [Hl _].
    apply Nat.eqb_eq in Hl. exact Hl. }
  pose proof (phone_spellings_clean d Hlen Hsep) as Hclean.
  rewrite Forall_forall in Hclean.
  assert (Hstep : ∀ m, m ∈ phone_spellings d →
            phone_step [] m = ["+91" +:+ d]
            ∧ phone_step ["+91" +:+ d] m = ["+91" +:+ d]).
  { intros m Hm.
    change (append_new (fun m => phone_valid (phone_clean m))
              (fun m => "+91" +:+ phone_clean m) [] m = ["+91" +:+ d]
            ∧ append_new (fun m => phone_valid (phone_clean m))
                (fun m => "+91" +:+ phone_clean m) ["+91" +:+ d] m = ["+91" +:+ d]).
    unfold append_new. rewrite (Hclean m Hm), Hvalid. unfold Str.mem.
    split.
    - rewrite bool_decide_eq_false_2; [reflexivity|]. apply not_elem_of_nil.
    - rewrite bool_decide_eq_true_2; [reflexivity|]. left. }
  unfold _filter_phone_numbers.
  destruct matches as [|m matches]; [contradiction|].
  apply Forall_cons in Hall as [Hm Hall]. simpl.
  rewrite (proj1 (Hstep m Hm)). clear Hm Hne.
  induction Hall as [|m' l Hm' _ IH]; simpl; [reflexivity|].
  rewrite (proj2 (Hstep m' Hm')). exact IH.
Qed.

Lemma phone_spellings_collapse_witness :
  _filter_phone_numbers
    ["+91-9876543210"; "919876543210"; "09876543210"; "9876543210"]
  = ["+919876543210"].
Proof.
  apply (phone_spellings_collapse "9876543210").
  - reflexivity.
  - apply Forall_forall. intros c Hc.
    repeat (apply elem_of_cons in Hc as [->|Hc];
            [intros [H|[H|H]]; discriminate|]).
    apply elem_of_nil in Hc. contradiction.
  - discriminate.
  - repeat constructor; unfold phone_spellings; simpl;
      repeat (first [left; reflexivity | right]).
Defined.

(** *** UPI ids *)

Lemma fold_left_append {A} (step : list string → A → list string)
    (valid : A → bool) (f : A → string) :
  (∀ acc x, step acc x = if valid x then (acc ++ [f x])%list else acc) →
  ∀ xs acc,
    fold_left step xs acc = (acc ++ map f (filter (fun x => valid x = true) xs))%list.
Proof.
  intros Hstep xs. induction xs as [|x xs IH]; intros acc; simpl.
  - rewrite app_nil_r. reflexivity.
  - rewrite IH, Hstep. destruct (valid x) eqn:Hv.
    + rewrite filter_cons_True by exact Hv. simpl. rewrite <- app_assoc. reflexivity.
    + rewrite filter_cons_False by (rewrite Hv; discriminate). reflexivity.
Qed.

Lemma upi_step_valid (acc : list string) (m : string) :
  upi_step acc m = if upi_valid m then (acc ++ [Str.lower m])%list else acc.
Proof.
  unfold upi_step, upi_valid.
  destruct (Str.contains "@" m); [|reflexivity].
  destruct (split "@" m) as [|a [|b [|c l]]]; try reflexivity.
  cbn beta iota zeta. rewrite andb_true_l.
  destruct (existsb _ _ || _); [|reflexivity].
  rewrite andb_true_l. destruct (Str.mem _ _); reflexivity.
Qed.

Lemma lower_char_at (c : ascii) : Str.lower_char c = "@"%char ↔ c = "@"%char.
Proof.
  destruct c as [[] [] [] [] [] [] [] []]; vm_compute; split; congruence.
Qed.

Lemma split_chars_lower (s cur : list ascii) :
  split_chars "@" (map Str.lower_char cur) (map Str.lower_char s)
  = map (map Str.lower_char) (split_chars "@" cur s).
Proof.
  revert cur. induction s as [|c s IH]; intros cur; simpl.
  - rewrite map_rev. reflexivity.
  - destruct (decide (c = "@"%char)) as [->|Hc].
    + rewrite decide_True by reflexivity. simpl. rewrite map_rev. f_equal.
      apply (IH []).
    + rewrite decide_False by (rewrite lower_char_at; exact Hc).
      apply (IH (c :: cur)).
Qed.

Lemma split_lower (m : string) :
  split "@" (Str.lower m) = map Str.lower (split "@" m).
Proof.
  unfold split, Str.lower. rewrite BankFacts.chars_of_chars.
  pose proof (split_chars_lower (Str.chars m) []) as H.
  change (map Str.lower_char []) with (@nil ascii) in H. rewrite H, !map_map.
  apply map_ext. intros l. rewrite BankFacts.chars_of_chars. reflexivity.
Qed.

Lemma split_chars_no_sep (sep : ascii) (s cur : list ascii) :
  Str.infix_of [sep] s = false → split_chars sep cur s = [(rev cur ++ s)%list].
Proof.
  revert cur. induction s as [|c s IH]; intros cur; simpl.
  - intros _. rewrite app_nil_r. reflexivity.
  - destruct (decide (sep = c)) as [->|Hc]; [discriminate|].
    simpl. intros H. rewrite decide_False by congruence.
    rewrite (IH (c :: cur) H). simpl. rewrite <- app_assoc. reflexivity.
Qed.

Lemma contains_at_of_split (m a b : string) :
  split "@" m = [a; b] → Str.contains "@" m = true.
Proof.
  intros Hsplit. destruct (Str.contains "@" m) eqn:Hc; [reflexivity|].
  unfold split in Hsplit. rewrite (split_chars_no_sep "@" _ [] Hc) in Hsplit.
  discriminate.
Qed.

Lemma upi_valid_like (m : string) : upi_valid m = true ↔ upi_like (Str.lower m).
Proof.
  unfold upi_valid, upi_like. rewrite split_lower. split.
  - intros H. apply andb_true_iff in H as [_ H].
    destruct (split "@" m) as [|a [|b [|c l]]]; try discriminate.
    apply andb_true_iff in H as [Hs He].
    exists (Str.lower a), (Str.lower b). split; [reflexivity|].
    split; [exact Hs|]. apply negb_true_iff in He.
    unfold Str.mem in He. apply bool_decide_eq_false in He. exact He.
  - intros (name & handle & Hsplit & Hs & He).
    destruct (split "@" m) as [|a [|b [|c l]]] eqn:Hm; try discriminate.
    rewrite (contains_at_of_split m a b Hm). simpl in Hsplit.
    injection Hsplit as _ Hb. rewrite Hb, Hs. simpl.
    apply negb_true_iff. unfold Str.mem. apply bool_decide_eq_false. exact He.
Qed.

Lemma filter_upi_ids_as_filter (matches : list string) :
  _filter_upi_ids matches
  = remove_dups (map Str.lower (filter (fun m => upi_valid m = true) matches)).
Proof.
  unfold _filter_upi_ids.
  rewrite (fold_left_append upi_step upi_valid Str.lower upi_step_valid).
  reflexivity.
Qed.

(** X18. [_filter_upi_ids] reports exactly the lower-cased matches
    that have one "@" whose handle contains a known UPI suffix or has
    at most ten characters and is none of the five e-mail domains; it
    reports every id in lower case and none twice. *)
Theorem filter_upi_ids_reports (matches : list string) :
  NoDup (_filter_upi_ids matches)
  ∧ ∀ u, u ∈ _filter_upi_ids matches ↔
      (∃ m, m ∈ matches ∧ u = Str.lower m) ∧ Str.lower u = u ∧ upi_like u.
Proof.
  rewrite filter_upi_ids_as_filter. split; [apply NoDup_remove_dups|].
  intros u. rewrite elem_of_remove_dups. split.
  - intros Hu. apply list_elem_of_fmap in Hu as (m & -> & Hm).
    apply list_elem_of_filter in Hm as [Hv Hm].
    split; [eauto|]. split; [apply VerdictFacts.lower_idem|].
    apply upi_valid_like. exact Hv.
  - intros [(m & Hm & ->) [_ Hlike]].
    apply list_elem_of_fmap. exists m. split; [reflexivity|].
    apply list_elem_of_filter. split; [|exact Hm].
    apply upi_valid_like. exact Hlike.
Qed.

(** *** Links *)

Lemma link_step_safe (acc : list string) (m : string) :
  link_step acc m = if negb (link_safe m) then (acc ++ [link_norm m])%list else acc.
Proof.
  unfold link_step, link_safe, link_norm.
  destruct (existsb _ safe_domains); reflexivity.
Qed.

Lemma filter_links_as_filter (matches : list string) :
  _filter_links matches
  = remove_dups (map link_norm (filter (fun m => negb (link_safe m) = true) matches)).
Proof.
  unfold _filter_links.
  rewrite (fold_left_append link_step (fun m => negb (link_safe m)) link_norm
             link_step_safe).
  reflexivity.
Qed.

Lemma chars_inj (a b : string) : Str.chars a = Str.chars b → a = b.
Proof.
  intros H. rewrite <- (of_chars_chars a), <- (of_chars_chars b), H. reflexivity.
Qed.

Lemma lower_append (a b : string) :
  Str.lower (a +:+ b) = Str.lower a +:+ Str.lower b.
Proof.
  apply chars_inj. unfold Str.lower.
  rewrite BankFacts.chars_append, !BankFacts.chars_of_chars,
    BankFacts.chars_append, map_app, !BankFacts.chars_of_chars.
  reflexivity.
Qed.

Lemma safe_domain_not_across_scheme (d : string) (l : list ascii) :
  d ∈ safe_domains →
  Str.infix_of (Str.chars d) (Str.chars "http://" ++ l) = Str.infix_of (Str.chars d) l.
Proof.
  intros Hd. unfold safe_domains in Hd.
  repeat (apply elem_of_cons in Hd as [->|Hd]; [vm_compute; reflexivity|]).
  apply elem_of_nil in Hd. contradiction.
Qed.

Lemma link_safe_scheme (m : string) : link_safe ("http://" +:+ m) = link_safe m.
Proof.
  unfold link_safe. rewrite lower_append.
  change (Str.lower "http://") with "http://".
  assert (H : ∀ ds, (∀ d, d ∈ ds → d ∈ safe_domains) →
            existsb (fun d => Str.contains d ("http://" +:+ Str.lower m)) ds
            = existsb (fun d => Str.contains d (Str.lower m)) ds).
  { induction ds as [|d ds IH]; intros Hds; simpl; [reflexivity|].
    rewrite IH by (intros d' Hd'; apply Hds; right; exact Hd').
    f_equal. unfold Str.contains. rewrite BankFacts.chars_append.
    apply safe_domain_not_across_scheme, Hds. left. }
  apply H. auto.
Qed.

Lemma link_norm_scheme (m : string) : Str.startswith (link_norm m) "http" = true.
Proof.
  unfold link_norm. destruct (Str.startswith m "http") eqn:H; [exact H|].
  unfold Str.startswith. rewrite BankFacts.chars_append. reflexivity.
Qed.

Lemma link_norm_safe (m : string) : link_safe (link_norm m) = link_safe m.
Proof.
  unfold link_norm. destruct (Str.startswith m "http"); [reflexivity|].
  apply link_safe_scheme.
Qed.

Lemma elem_of_filter_links (matches : list string) (l : string) :
  l ∈ _filter_links matches ↔ ∃ m, m ∈ matches ∧ link_safe m = false ∧ l = link_norm m.
Proof.
  rewrite filter_links_as_filter, elem_of_remove_dups. split.
  - intros Hl. apply list_elem_of_fmap in Hl as (m & -> & Hm).
    apply list_elem_of_filter in Hm as [Hv Hm]. apply negb_true_iff in Hv. eauto.
  - intros (m & Hm & Hv & ->). apply list_elem_of_fmap. exists m.
    split; [reflexivity|]. apply list_elem_of_filter. split; [|exact Hm].
    apply negb_true_iff. exact Hv.
Qed.

(** X19. [_filter_links] reports a link for exactly the matches in
    which no safe domain occurs in any letter case, with "http://" put
    in front unless the match starts with "http". Every reported link
    starts with "http" and still mentions no safe domain, so that
    filtering the reported links again reports the same links. *)
Theorem filter_links_reports (matches : list string) :
  NoDup (_filter_links matches)
  ∧ (∀ l, l ∈ _filter_links matches ↔
       ∃ m, m ∈ matches ∧ link_safe m = false ∧ l = link_norm m)
  ∧ (∀ l, l ∈ _filter_links matches →
       Str.startswith l "http" = true ∧ link_safe l = false)
  ∧ (∀ l, l ∈ _filter_links (_filter_links matches) ↔ l ∈ _filter_links matches).
Proof.
  assert (Hout : ∀ l, l ∈ _filter_links matches →
            Str.startswith l "http" = true ∧ link_safe l = false).
  { intros l Hl. apply elem_of_filter_links in Hl as (m & _ & Hv & ->).
    split; [apply link_norm_scheme|]. rewrite link_norm_safe. exact Hv. }
  split; [unfold _filter_links; apply NoDup_remove_dups|].
  split; [apply elem_of_filter_links|]. split; [exact Hout|].
  intros l. rewrite (elem_of_filter_links (_filter_links matches)). split.
  - intros (m & Hm & _ & ->). destruct (Hout m Hm) as [Hs _].
    unfold link_norm. rewrite Hs. exact Hm.
  - intros Hl. destruct (Hout l Hl) as [Hs Hv]. exists l.
    split; [exact Hl|]. split; [exact Hv|]. unfold link_norm. rewrite Hs. reflexivity.
Qed.

(** *** Session-level extraction *)

Lemma extract_from_session_fold (msgs : list Message) (acc : ExtractedIntelligence) :
  fold_left session_step msgs acc
  = fold_left Intel.merge
      (map extract_from_message (filter (fun m => from_scammer m = true) msgs)) acc.
Proof.
  revert acc. induction msgs as [|m msgs IH]; intros acc; simpl; [reflexivity|].
  rewrite IH. unfold session_step at 1. destruct (from_scammer m) eqn:Hm.
  - rewrite filter_cons_True by exact Hm. reflexivity.
  - rewrite filter_cons_False by (rewrite Hm; discriminate). reflexivity.
Qed.

Lemma elem_of_merged_field (field : ExtractedIntelligence → gset string) :
  (∀ a b, field (Intel.merge a b) = field a ∪ field b) →
  ∀ (l : list ExtractedIntelligence) acc x,
    x ∈ field (fold_left Intel.merge l acc) ↔ x ∈ field acc ∨ ∃ i, i ∈ l ∧ x ∈ field i.
Proof.
  intros Hfield l. induction l as [|i l IH]; intros acc x; simpl.
  - split; [auto|]. intros [?|(i & Hi & _)]; [assumption|].
    apply elem_of_nil in Hi. contradiction.
  - rewrite IH, Hfield, elem_of_union. split.
    + intros [[?|?]|(j & Hj & Hx)]; [auto| |].
      * right. exists i. split; [left|assumption].
      * right. exists j. split; [right; assumption|assumption].
    + intros [?|(j & Hj & Hx)]; [auto|].
      apply elem_of_cons in Hj as [->|Hj]; [auto|]. right. eauto.
Qed.

Lemma elem_of_session_field (field : ExtractedIntelligence → gset string)
    (session : SessionState) (x : string) :
  (∀ a b, field (Intel.merge a b) = field a ∪ field b) →
  field Intel.empty = ∅ →
  x ∈ field (extract_from_session session) ↔
  ∃ m, m ∈ messages session ∧ from_scammer m = true ∧ x ∈ field (extract_from_message m).
Proof.
  intros Hfield Hempty. unfold extract_from_session.
  rewrite extract_from_session_fold, (elem_of_merged_field field Hfield), Hempty.
  split.
  - intros [Hx|(i & Hi & Hx)]; [apply elem_of_empty in Hx; contradiction|].
    apply list_elem_of_fmap in Hi as (m & -> & Hm).
    apply list_elem_of_filter in Hm as [Hs Hm]. eauto.
  - intros (m & Hm & Hs & Hx). right. exists (extract_from_message m).
    split; [|exact Hx]. apply list_elem_of_fmap. exists m. split; [reflexivity|].
    apply list_elem_of_filter. auto.
Qed.

(** X20. In each of its five fields, the intelligence that
    [extract_from_session] returns holds exactly what
    [extract_from_message] finds in some message of the scammer: the
    messages of others add nothing, and neither the order of the
    messages nor their repetition matters. *)
Theorem session_intelligence_is_union (session : SessionState) :
  Forall (fun field : ExtractedIntelligence → gset string =>
            ∀ x, x ∈ field (extract_from_session session) ↔
                 ∃ m, m ∈ messages session ∧ from_scammer m = true
                      ∧ x ∈ field (extract_from_message m))
    intel_fields.
Proof.
  unfold intel_fields.
  repeat apply Forall_cons_2; try apply Forall_nil_2;
    intros x; apply elem_of_session_field; reflexivity.
Qed.

(** X21. A keyword is in the intelligence of a session exactly when it
    is a word of [SUSPICIOUS_KEYWORDS] that occurs, letter case apart,
    in the text of some message of the scammer. *)
Theorem session_keywords_occur_in_scammer_text (session : SessionState) (k : string) :
  k ∈ suspiciousKeywords (extract_from_session session) ↔
  k ∈ SUSPICIOUS_KEYWORDS
  ∧ ∃ m, m ∈ messages session ∧ from_scammer m = true
         ∧ Str.contains k (Str.lower (text m)) = true.
Proof.
  rewrite (elem_of_session_field suspiciousKeywords session k)
    by reflexivity.
  split.
  - intros (m & Hm & Hs & Hk). unfold extract_from_message in Hk.
    cbn [suspiciousKeywords] in Hk. unfold _extract_keywords in Hk.
    rewrite elem_of_list_to_set, elem_of_remove_dups in Hk.
    apply list_elem_of_filter in Hk as [Hc Hk]. eauto 6.
  - intros [Hk (m & Hm & Hs & Hc)]. exists m. split; [exact Hm|].
    split; [exact Hs|]. unfold extract_from_message.
    cbn [suspiciousKeywords]. unfold _extract_keywords.
    rewrite elem_of_list_to_set, elem_of_remove_dups.
    apply list_elem_of_filter. auto.
Qed.

(** *** Agent notes *)

Lemma note_tactic_ext (kw1 kw2 : gset string) (triggers : list string)
    (name : string) (tactics : list string) :
  (∀ k, k ∈ triggers → k ∈ kw1 ↔ k ∈ kw2) →
  note_tactic kw1 triggers name tactics = note_tactic kw2 triggers name tactics.
Proof.
  intros H. unfold note_tactic.
  assert (He : existsb (fun k => bool_decide (k ∈ kw1)) triggers
               = existsb (fun k => bool_decide (k ∈ kw2)) triggers).
  { induction triggers as [|t l IH]; simpl; [reflexivity|].
    rewrite IH by (intros k Hk; apply H; right; exact Hk).
    f_equal. apply bool_decide_ext, H. left. }
  rewrite He. reflexivity.
Qed.

Lemma triggers_listed (l : list string) :
  forallb (fun k => bool_decide (k ∈ tactic_triggers)) l = true →
  ∀ k, k ∈ l → k ∈ tactic_triggers.
Proof.
  intros H k Hk. rewrite forallb_forall in H.
  apply list_elem_of_In in Hk. apply H in Hk.
  apply bool_decide_eq_true in Hk. exact Hk.
Qed.

(** X22. The notes that [generate_agent_notes] writes depend on the
    session only through the number of messages, the number of UPI
    ids, phone numbers, links and bank accounts, and which of the
    twenty-four trigger words are among its keywords: no extracted
    artifact and no other keyword reaches the notes. *)
Theorem agent_notes_show_counts_only (s1 s2 : SessionState) (scam_type : string) :
  totalMessages s1 = totalMessages s2 →
  size (upiIds (extractedIntelligence s1)) = size (upiIds (extractedIntelligence s2)) →
  size (phoneNumbers (extractedIntelligence s1))
    = size (phoneNumbers (extractedIntelligence s2)) →
  size (phishingLinks (extractedIntelligence s1))
    = size (phishingLinks (extractedIntelligence s2)) →
  size (bankAccounts (extractedIntelligence s1))
    = size (bankAccounts (extractedIntelligence s2)) →
  (∀ k, k ∈ tactic_triggers →
     k ∈ suspiciousKeywords (extractedIntelligence s1)
     ↔ k ∈ suspiciousKeywords (extractedIntelligence s2)) →
  generate_agent_notes s1 scam_type = generate_agent_notes s2 scam_type.
Proof.
  intros Hn Hu Hp Hl Hb Hk. unfold generate_agent_notes, note_count.
  rewrite Hn, Hu, Hp, Hl, Hb.
  assert (Ht : ∀ triggers name tactics,
            forallb (fun k => bool_decide (k ∈ tactic_triggers)) triggers = true →
            note_tactic (suspiciousKeywords (extractedIntelligence s1))
              triggers name tactics
            = note_tactic (suspiciousKeywords (extractedIntelligence s2))
                triggers name tactics).
  { intros triggers name tactics Hsub. apply note_tactic_ext.
    intros k Hin. apply Hk, (triggers_listed triggers Hsub k Hin). }
  rewrite !Ht by reflexivity. reflexivity.
Qed.

Lemma agent_notes_show_counts_only_witness :
  generate_agent_notes (noted_session "fraud.one@ybl" "verify") "bank_fraud"
  = generate_agent_notes (noted_session "other@paytm" "claim") "bank_fraud".
Proof.
  apply agent_notes_show_counts_only; try reflexivity.
  intros k Hk. simpl. rewrite !elem_of_union, !elem_of_singleton.
  split; (intros [->| ->]; [left; reflexivity|]);
    exfalso; apply (bool_decide_pack _) in Hk; vm_compute in Hk; exact Hk.
Defined.

End ExtractorFacts.

(** ** The review queue *)

Module QueueFacts.

Import ReviewQueue QueueOps.

Local Open Scope list_scope.

Section WithValues.

Context {V : Type}.

Implicit Types (svc : ReviewQueueService V) (item : ReviewQueueItem V).





Lemma mark_first_some sid decision notes (q q' : list (ReviewQueueItem V)) item' :
  mark_first sid decision notes q = Some (q', item') →
  ∃ l1 item l2,
    q = (l1 ++ item :: l2)%list
    ∧ Forall (fun x => ¬ pending_for sid x) l1
    ∧ pending_for sid item
    ∧ item' = marked item decision notes
    ∧ q' = (l1 ++ item' :: l2)%list.
Proof.
  revert q'. induction q as [|x q IH]; intros q'; simpl; [discriminate|].
  destruct (Str.eqb (session_id x) sid && negb (reviewed x)) eqn:Hx.
  - intros [= <- <-]. exists [], x, q.
    apply andb_true_iff in Hx as [Hs Hr]. apply negb_true_iff in Hr.
    unfold Str.eqb in Hs. apply bool_decide_eq_true in Hs.
    split; [reflexivity|]. split; [constructor|]. split; [split; assumption|].
    split; reflexivity.
  - destruct (mark_first sid decision notes q) as [[q'' it]|] eqn:Hq; [|discriminate].
    intros [= <- <-].
    destruct (IH q'' eq_refl) as (l1 & item & l2 & -> & Hl1 & Hp & -> & ->).
    exists (x :: l1), item, l2. split; [reflexivity|].
    split; [|split; [exact Hp|split; reflexivity]].
    constructor; [|exact Hl1]. intros [Hs Hr].
    apply andb_false_iff in Hx as [Hx|Hx].
    + unfold Str.eqb in Hx. apply bool_decide_eq_false in Hx. contradiction.
    + rewrite Hr in Hx. discriminate.
Qed.

Lemma mark_first_none sid decision notes (q : list (ReviewQueueItem V)) :
  mark_first sid decision notes q = None ↔
  Forall (fun item => ¬ pending_for sid item) q.
Proof.
  split.
  - induction q as [|x q IH]; simpl; [constructor|].
    destruct (Str.eqb (session_id x) sid && negb (reviewed x)) eqn:Hx; [discriminate|].
    destruct (mark_first sid decision notes q) as [[q'' it]|]; [discriminate|].
    intros _. constructor; [|apply IH; reflexivity]. intros [Hs Hr].
    apply andb_false_iff in Hx as [Hx|Hx].
    + unfold Str.eqb in Hx. apply bool_decide_eq_false in Hx. contradiction.
    + rewrite Hr in Hx. discriminate.
  - intros Hall. destruct (mark_first sid decision notes q) as [[q' item']|] eqn:Hm;
      [|reflexivity].
    apply mark_first_some in Hm as (l1 & item & l2 & -> & _ & Hp & _).
    apply Forall_app in Hall as [_ Hall]. apply Forall_cons in Hall as [Hn _].
    contradiction.
Qed.

Lemma filter_reviewed_marked (l1 l2 : list (ReviewQueueItem V)) item decision notes :
  reviewed item = false →
  filter (fun x : ReviewQueueItem V => reviewed x = true) (l1 ++ marked item decision notes :: l2)
  ≡ₚ marked item decision notes :: filter (fun x : ReviewQueueItem V => reviewed x = true) (l1 ++ item :: l2).
Proof.
  intros Hr. rewrite !filter_app, filter_cons_True by reflexivity.
  rewrite (filter_cons_False _ item) by (rewrite Hr; discriminate).
  symmetry. apply Permutation_middle.
Qed.





(** X24. [mark_reviewed] reports [True] exactly when the queue holds an
    unreviewed item of the session; it then marks the oldest such item
    and no other, appends it to the reviewed items and lowers the
    number of pending items by one, without changing the length of
    the queue; when it reports [False] nothing has changed. *)
Theorem mark_reviewed_marks_oldest_pending svc (sid decision : string)
    (notes : option string) :
  let r := mark_reviewed svc sid decision notes in
  (r.1 = true ↔ ∃ item, item ∈ queue svc ∧ pending_for sid item)
  ∧ (r.1 = false → r.2 = svc)
  ∧ (r.1 = true →
     ∃ l1 item l2,
       queue svc = (l1 ++ item :: l2)%list
       ∧ Forall (fun x => ¬ pending_for sid x) l1
       ∧ pending_for sid item
       ∧ queue r.2 = (l1 ++ marked item decision notes :: l2)%list
       ∧ reviewed_items r.2
         = (reviewed_items svc ++ [marked item decision notes])%list
       ∧ get_queue_size r.2 = get_queue_size svc
       ∧ pending_review (get_stats r.2) = (pending_review (get_stats svc) - 1)%Z).
Proof.
  cbn zeta. unfold mark_reviewed.
  destruct (mark_first sid decision notes (queue svc)) as [[q' item']|] eqn:Hm; simpl.
  - apply mark_first_some in Hm as (l1 & item & l2 & Hq & Hl1 & Hp & -> & ->).
    split.
    { split; [|reflexivity]. intros _. exists item. split; [|exact Hp].
      rewrite Hq. apply elem_of_app. right. left. }
    split; [discriminate|]. intros _. exists l1, item, l2.
    split; [exact Hq|]. split; [exact Hl1|]. split; [exact Hp|].
    split; [reflexivity|]. split; [reflexivity|].
    unfold get_queue_size, get_stats. simpl. rewrite Hq.
    pose proof (Permutation_length
                  (filter_reviewed_marked l1 l2 item decision notes (proj2 Hp)))
      as Hlen.
    rewrite !length_app in *. simpl in *. split; [reflexivity|]. lia.
  - apply mark_first_none in Hm. split.
    { split; [discriminate|]. intros (item & Hin & Hp).
      rewrite Forall_forall in Hm. exfalso. exact (Hm item Hin Hp). }
    split; [reflexivity|discriminate].
Qed.

Lemma omap_length_le {A B} (f : A → option B) (l : list A) :
  (length (omap f l) <= length l)%nat.
Proof.
  induction l as [|x l IH]; simpl; [lia|].
  destruct (f x); simpl; unfold omap in IH; lia.
Qed.

(** X25. [get_feedback_data] returns at most [limit] entries, for the
    most recently reviewed items, when [limit] is positive; with
    [limit] 0 the slice [reviewed_items[-0:]] is the whole list, so
    that the reviews of all stored items are returned. An entry is
    returned only for a reviewed item whose decision is not the empty
    string, and carries that decision as ground truth. *)
Theorem feedback_limit_zero_is_no_limit svc (limit : Z) :
  (0 < limit)%Z →
  (Z.of_nat (length (get_feedback_data svc limit)) <= limit)%Z
  ∧ get_feedback_data svc limit
    = omap feedback_of
        (drop (length (reviewed_items svc) - Z.to_nat limit) (reviewed_items svc))
  ∧ get_feedback_data svc 0 = omap feedback_of (reviewed_items svc)
  ∧ (∀ entry, entry ∈ get_feedback_data svc 0 →
       f_ground_truth entry ≠ ""
       ∧ ∃ item, item ∈ reviewed_items svc
                 ∧ reviewed item = true
                 ∧ final_decision item = Some (f_ground_truth entry)
                 ∧ f_text entry = message_text item
                 ∧ f_predicted_label entry = risk_level item).
Proof.
  intros Hl. unfold get_feedback_data, slice_from.
  destruct (0 <=? - limit)%Z eqn:Hz; [apply Z.leb_le in Hz; lia|].
  rewrite Z.opp_involutive. simpl. rewrite drop_0.
  split.
  { etransitivity; [apply inj_le, omap_length_le|]. rewrite length_drop. lia. }
  split; [reflexivity|]. split; [reflexivity|].
  intros entry Hin. apply list_elem_of_omap in Hin as (item & Hin & Hf).
  unfold feedback_of in Hf.
  destruct (final_decision item) as [d|] eqn:Hd; [|discriminate].
  destruct (reviewed item) eqn:Hr; [|discriminate]. simpl in Hf.
  destruct (Str.eqb d "") eqn:He; [discriminate|]. simpl in Hf.
  injection Hf as <-. simpl. split.
  - unfold Str.eqb in He. apply bool_decide_eq_false in He. exact He.
  - exists item. auto 6.
Qed.

End WithValues.


Lemma feedback_limit_zero_is_no_limit_witness :
  let svc := run QueueSamples.review_ops QueueSamples.small_queue in
  (Z.of_nat (length (get_feedback_data svc 1)) <= 1)%Z
  ∧ get_feedback_data svc 1
    = omap feedback_of
        (drop (length (reviewed_items svc) - Z.to_nat 1) (reviewed_items svc))
  ∧ get_feedback_data svc 0 = omap feedback_of (reviewed_items svc)
  ∧ (∀ entry, entry ∈ get_feedback_data svc 0 →
       f_ground_truth entry ≠ ""
       ∧ ∃ item, item ∈ reviewed_items svc
                 ∧ reviewed item = true
                 ∧ final_decision item = Some (f_ground_truth entry)
                 ∧ f_text entry = message_text item
                 ∧ f_predicted_label entry = risk_level item).
Proof.
  apply (feedback_limit_zero_is_no_limit
           (run QueueSamples.review_ops QueueSamples.small_queue) 1).
  lia.
Defined.

End QueueFacts.

(** ** The feedback loop *)

Module LoopFacts.

Import FeedbackLoop LoopOps.

Local Open Scope list_scope.

Lemma find_app {A} (p : A → bool) (l l' : list A) :
  find p (l ++ l') = match find p l with Some x => Some x | None => find p l' end.
Proof.
  induction l as [|x l IH]; simpl; [reflexivity|]. destruct (p x); [reflexivity|].
  exact IH.
Qed.

Lemma find_none {A} (p : A → bool) (l : list A) :
  find p l = None ↔ Forall (fun x => p x = false) l.
Proof.
  induction l as [|x l IH]; simpl.
  - split; [constructor|reflexivity].
  - destruct (p x) eqn:Hx.
    + split; [discriminate|]. intros H. apply Forall_cons in H as [H _]. congruence.
    + rewrite IH. split; [intros H; constructor; assumption|].
      intros H. apply Forall_cons in H as [_ H]. exact H.
Qed.

Lemma elem_of_rev {A} (x : A) (l : list A) : x ∈ rev l ↔ x ∈ l.
Proof. rewrite !list_elem_of_In. symmetry. apply in_rev. Qed.

Lemma find_decision_none (sid : string) (log : list DecisionRecord.t) :
  find_decision sid log = None ↔
  Forall (fun d => DecisionRecord.session_id d ≠ sid) log.
Proof.
  unfold find_decision. rewrite find_none, !Forall_forall. unfold Str.eqb. split.
  - intros H d Hd. apply (bool_decide_eq_false_1 _), H, elem_of_rev, Hd.
  - intros H d Hd. apply bool_decide_eq_false_2, H, elem_of_rev, Hd.
Qed.

Lemma find_decision_last (sid : string) (l1 l2 : list DecisionRecord.t)
    (d : DecisionRecord.t) :
  DecisionRecord.session_id d = sid →
  Forall (fun d' => DecisionRecord.session_id d' ≠ sid) l2 →
  find_decision sid (l1 ++ d :: l2) = Some d.
Proof.
  intros Hd Hl2. apply find_decision_none in Hl2. unfold find_decision in *.
  rewrite rev_app_distr. simpl. rewrite <- app_assoc, find_app, Hl2. simpl.
  unfold Str.eqb. rewrite bool_decide_eq_true_2 by exact Hd. reflexivity.
Qed.

Lemma init_empty (dir : string) (mkdir : Result unit) (svc : FeedbackLoopService) :
  init dir mkdir = Ok svc → decision_log svc = [] ∧ feedback_buffer svc = [].
Proof.
  unfold init. destruct mkdir as [[]|e]; simpl; [|discriminate].
  intros [= <-]. split; reflexivity.
Qed.

Lemma flush_decisions_shape (svc : FeedbackLoopService) (written : bool) :
  decision_log svc ≠ [] →
  decision_log (_flush_decisions svc written)
  = (if written then [] else decision_log svc)
  ∧ feedback_buffer (_flush_decisions svc written) = feedback_buffer svc.
Proof.
  unfold _flush_decisions. destruct (decision_log svc) as [|d l] eqn:Hlog;
    [contradiction|].
  intros _. destruct written; simpl; rewrite ?Hlog; split; reflexivity.
Qed.

Lemma flush_feedback_shape (svc : FeedbackLoopService) (written : bool) :
  feedback_buffer svc ≠ [] →
  feedback_buffer (_flush_feedback svc written)
  = (if written then [] else feedback_buffer svc)
  ∧ decision_log (_flush_feedback svc written) = decision_log svc.
Proof.
  unfold _flush_feedback. destruct (feedback_buffer svc) as [|f l] eqn:Hbuf;
    [contradiction|].
  intros _. destruct written; simpl; rewrite ?Hbuf; split; reflexivity.
Qed.

Lemma Some_eq {A} (a b : A) : Some a = Some b → a = b.
Proof. intros [= ->]. reflexivity. Qed.

Lemma Ok_eq {A} (a b : A) : Ok a = Ok b → a = b.
Proof. intros [= ->]. reflexivity. Qed.

Lemma snoc_not_nil {A} (l : list A) (x : A) : l ++ [x] ≠ [].
Proof. intros H. apply app_eq_nil in H as [_ H]. discriminate. Qed.

Lemma log_decision_shape (round4 : Q → Q) svc sid text level score conf expl ctx
    now written svc' :
  log_decision round4 svc sid text level score conf expl ctx now written = Ok svc' →
  feedback_buffer svc' = feedback_buffer svc
  ∧ ∃ d, DecisionRecord.session_id d = sid
         ∧ decision_log svc'
           = if (100 <=? length (decision_log svc ++ [d]))%nat && written
             then [] else decision_log svc ++ [d].
Proof.
  unfold log_decision.
  destruct (path expl ["signals"; "ml"; "score"]) as [v1|]; [|discriminate].
  destruct (path expl ["signals"; "rules"; "score"]) as [v2|]; [|discriminate].
  destruct (path expl ["signals"; "intent"; "score"]) as [v3|]; [|discriminate].
  destruct (path expl ["signals"; "ml"; "weight"]) as [v4|]; [|discriminate].
  destruct (path expl ["signals"; "rules"]) as [v5|]; [|discriminate]. cbn [bind].
  destruct (get v5 "keywords" (VList [])) as [v6|]; [|discriminate].
  destruct (path expl ["signals"; "intent"; "details"]) as [v7|]; [|discriminate].
  cbn [bind].
  destruct (get v7 "components" (VDict [])) as [v8|]; [|discriminate].
  destruct (get expl "decision_logic" (VStr "")) as [v9|]; [|discriminate].
  cbn [bind decision_log feedback_buffer feedback_dir].
  match goal with
  | |- context [decision_log svc ++ [?r]] => set (d := r)
  end.
  intros H. apply Ok_eq in H. subst svc'.
  destruct (100 <=? length (decision_log svc ++ [d]))%nat eqn:Hfull.
  - match goal with
    | |- context [_flush_decisions ?s written] =>
        destruct (flush_decisions_shape s written (snoc_not_nil _ _)) as [Hl Hb]
    end.
    rewrite Hl, Hb. cbn [feedback_buffer decision_log].
    split; [reflexivity|]. exists d. split; [reflexivity|].
    rewrite Hfull. destruct written; reflexivity.
  - cbn [feedback_buffer decision_log]. split; [reflexivity|]. exists d.
    split; [reflexivity|]. rewrite Hfull. reflexivity.
Qed.

Lemma add_feedback_shape svc sid truth source notes now written :
  let svc' := add_feedback svc sid truth source notes now written in
  decision_log svc' = decision_log svc
  ∧ match find_decision sid (decision_log svc) with
    | None => svc' = svc
    | Some d =>
        feedback_buffer svc'
        = if (50 <=? length (feedback_buffer svc) + 1)%nat && written
          then []
          else feedback_buffer svc ++ [feedback_record d sid truth source notes now]
    end.
Proof.
  cbn zeta. unfold add_feedback.
  destruct (find_decision sid (decision_log svc)) as [d|]; [|split; reflexivity].
  cbn [feedback_buffer]. rewrite length_app. cbn [length].
  destruct (50 <=? length (feedback_buffer svc) + 1)%nat.
  - match goal with
    | |- context [_flush_feedback ?s written] =>
        destruct (flush_feedback_shape s written (snoc_not_nil _ _)) as [Hb Hl]
    end.
    rewrite Hl, Hb. cbn [feedback_buffer decision_log andb].
    split; [reflexivity|]. destruct written; reflexivity.
  - cbn [feedback_buffer decision_log andb]. split; reflexivity.
Qed.

Lemma feedback_record_ok (d : DecisionRecord.t) sid truth source notes now :
  DecisionRecord.session_id d = sid →
  record_ok (feedback_record d sid truth source notes now).
Proof.
  intros Hd. unfold record_ok, feedback_record. simpl.
  split; [|split; [reflexivity|symmetry; exact Hd]].
  unfold Str.eqb. apply bool_decide_eq_true.
Qed.

Lemma find_decision_some (sid : string) (log : list DecisionRecord.t)
    (d : DecisionRecord.t) :
  find_decision sid log = Some d → DecisionRecord.session_id d = sid ∧ d ∈ log.
Proof.
  unfold find_decision. intros H. apply find_some in H as [Hin Hs].
  unfold Str.eqb in Hs. apply bool_decide_eq_true in Hs. split; [exact Hs|].
  apply elem_of_rev, list_elem_of_In. exact Hin.
Qed.

Lemma apply_buffer_ok (round4 : Q → Q) svc (op : Op) :
  Forall record_ok (feedback_buffer svc) →
  Forall record_ok (feedback_buffer (apply round4 svc op)).
Proof.
  intros Hok. destruct op; simpl.
  - destruct (log_decision _ _ _ _ _ _ _ _ _ _ _) as [svc'|e] eqn:Hlog;
      simpl; [|exact Hok].
    apply log_decision_shape in Hlog as [-> _]. exact Hok.
  - pose proof (add_feedback_shape svc session_id ground_truth_label
                  feedback_source notes now written) as [_ H].
    destruct (find_decision session_id (decision_log svc)) as [d|] eqn:Hd.
    + rewrite H. destruct (_ && _); [constructor|].
      apply Forall_app. split; [exact Hok|]. constructor; [|constructor].
      apply feedback_record_ok. apply find_decision_some in Hd as [Hd _]. exact Hd.
    + rewrite H. exact Hok.
Qed.

Lemma run_buffer_ok (round4 : Q → Q) (ops : list Op) svc :
  Forall record_ok (feedback_buffer svc) →
  Forall record_ok (feedback_buffer (run round4 ops svc)).
Proof.
  revert svc. induction ops as [|op ops IH]; intros svc Hok; [exact Hok|].
  apply IH, apply_buffer_ok, Hok.
Qed.

Lemma error_counts (buffer : list FeedbackRecord.t) :
  Forall record_ok buffer →
  (count_if (fun f => negb (FeedbackRecord.was_correct f)
                      && Str.eqb (FeedbackRecord.predicted_label f) "scam") buffer
   + count_if (fun f => negb (FeedbackRecord.was_correct f)
                        && Str.eqb (FeedbackRecord.ground_truth_label f) "scam")
       buffer
   + count_if FeedbackRecord.was_correct buffer
   <= Z.of_nat (length buffer))%Z.
Proof.
  unfold count_if. induction 1 as [|f l Hf _ IH]; simpl; [lia|].
  destruct Hf as (Hc & _ & _).
  destruct (FeedbackRecord.was_correct f) eqn:Hw.
  - rewrite (filter_cons_True (fun x => FeedbackRecord.was_correct x = true))
      by exact Hw.
    rewrite !filter_cons_False by (rewrite Hw; simpl; discriminate).
    simpl. lia.
  - rewrite (filter_cons_False (fun x => FeedbackRecord.was_correct x = true))
      by (rewrite Hw; discriminate).
    unfold Str.eqb in *.
    destruct (bool_decide (FeedbackRecord.predicted_label f = "scam")) eqn:Hp;
      destruct (bool_decide (FeedbackRecord.ground_truth_label f = "scam")) eqn:Hg.
    + apply bool_decide_eq_true in Hp, Hg.
      assert (false = true) by (apply Hc; congruence). discriminate.
    + rewrite (filter_cons_True _ f) by (rewrite Hw, Hp; reflexivity).
      rewrite (filter_cons_False _ f) by (rewrite Hw, Hg; simpl; discriminate).
      simpl. lia.
    + rewrite (filter_cons_False _ f) by (rewrite Hw, Hp; simpl; discriminate).
      rewrite (filter_cons_True _ f) by (rewrite Hw, Hg; reflexivity).
      simpl. lia.
    + rewrite (filter_cons_False _ f) by (rewrite Hw, Hp; simpl; discriminate).
      rewrite (filter_cons_False _ f) by (rewrite Hw, Hg; simpl; discriminate).
      simpl. lia.
Qed.

(** X26. However the feedback loop is used, every record of its
    feedback buffer is marked correct exactly when its predicted label
    is its ground truth, and carries the label and the session of the
    decision it quotes. Hence no feedback counts both as a false
    positive and as a false negative: the false positives, the false
    negatives and the correct ones together never exceed the feedback
    received; and the accuracy is [None] exactly when the buffer is
    empty. *)
Theorem error_counts_are_disjoint (round4 : Q → Q) (dir : string)
    (mkdir : Result unit) (svc0 : FeedbackLoopService) (ops : list Op) :
  init dir mkdir = Ok svc0 →
  let svc := run round4 ops svc0 in
  let stats := get_stats round4 svc in
  Forall record_ok (feedback_buffer svc)
  ∧ (0 <= false_positives stats)%Z
  ∧ (0 <= false_negatives stats)%Z
  ∧ (false_positives stats + false_negatives stats
     + count_if FeedbackRecord.was_correct (feedback_buffer svc)
     <= total_feedback_received stats)%Z
  ∧ (accuracy stats = None ↔ feedback_buffer svc = []).
Proof.
  intros Hinit. apply init_empty in Hinit as [_ Hbuf]. cbn zeta.
  assert (Hok : Forall record_ok (feedback_buffer (run round4 ops svc0))).
  { apply run_buffer_ok. rewrite Hbuf. constructor. }
  split; [exact Hok|]. unfold get_stats. cbn.
  split; [unfold count_if; lia|]. split; [unfold count_if; lia|].
  split; [apply error_counts, Hok|].
  destruct (feedback_buffer (run round4 ops svc0)) as [|f l]; simpl.
  - split; reflexivity.
  - split; discriminate.
Qed.

(** X27. [add_feedback] never touches the decision log. It records
    nothing when the log holds no decision of the session; otherwise
    the one record it appends quotes the most recently logged decision
    of the session, and is marked correct exactly when that decision's
    risk level is the ground truth given. The buffer is emptied
    instead when it has reached fifty records and the file was
    written. *)
Theorem feedback_quotes_latest_decision (svc : FeedbackLoopService)
    (sid truth source : string) (notes : option string) (now : string)
    (written : bool) :
  let svc' := add_feedback svc sid truth source notes now written in
  decision_log svc' = decision_log svc
  ∧ (Forall (fun d => DecisionRecord.session_id d ≠ sid) (decision_log svc) →
     svc' = svc)
  ∧ (∀ l1 d l2,
       decision_log svc = l1 ++ d :: l2 →
       DecisionRecord.session_id d = sid →
       Forall (fun d' => DecisionRecord.session_id d' ≠ sid) l2 →
       let record := feedback_record d sid truth source notes now in
       feedback_buffer svc'
       = (if (50 <=? length (feedback_buffer svc) + 1)%nat && written
          then [] else feedback_buffer svc ++ [record])
       ∧ FeedbackRecord.original_decision record = d
       ∧ (FeedbackRecord.was_correct record = true
          ↔ DecisionRecord.risk_level d = truth)).
Proof.
  pose proof (add_feedback_shape svc sid truth source notes now written) as [Hlog H].
  cbn zeta in *. split; [exact Hlog|]. split.
  - intros Hnone. apply find_decision_none in Hnone. rewrite Hnone in H. exact H.
  - intros l1 d l2 Hsplit Hd Hl2.
    rewrite Hsplit, (find_decision_last sid l1 l2 d Hd Hl2) in H.
    split; [exact H|]. split; [reflexivity|].
    simpl. unfold Str.eqb. apply bool_decide_eq_true.
Qed.

Lemma apply_bounded (round4 : Q → Q) svc (op : Op) :
  written_of op = true →
  (length (decision_log svc) < 100)%nat →
  (length (feedback_buffer svc) < 50)%nat →
  (length (decision_log (apply round4 svc op)) < 100)%nat
  ∧ (length (feedback_buffer (apply round4 svc op)) < 50)%nat.
Proof.
  intros Hw Hd Hf. destruct op; simpl in Hw; subst written; simpl.
  - destruct (log_decision _ _ _ _ _ _ _ _ _ _ _) as [svc'|e] eqn:Hlog;
      simpl; [|split; assumption].
    apply log_decision_shape in Hlog as [-> (d & _ & ->)].
    split; [|exact Hf]. rewrite andb_true_r.
    destruct (100 <=? length (decision_log svc ++ [d]))%nat eqn:Hfull; simpl; [lia|].
    apply Nat.leb_gt in Hfull. exact Hfull.
  - pose proof (add_feedback_shape svc session_id ground_truth_label
                  feedback_source notes now true) as [Hlog H].
    cbn zeta in *. rewrite Hlog. split; [exact Hd|].
    destruct (find_decision session_id (decision_log svc)) as [d|].
    + rewrite H, andb_true_r.
      destruct (50 <=? length (feedback_buffer svc) + 1)%nat eqn:Hfull; simpl; [lia|].
      apply Nat.leb_gt in Hfull. rewrite length_app. simpl. exact Hfull.
    + rewrite H. exact Hf.
Qed.

(** X28. As long as every flush manages to write its file, the
    decision log never holds a hundred records after a call, and the
    feedback buffer never fifty. *)
Theorem buffers_bounded_when_writes_succeed (round4 : Q → Q) (dir : string)
    (mkdir : Result unit) (svc0 : FeedbackLoopService) (ops : list Op) :
  init dir mkdir = Ok svc0 →
  Forall (fun op => written_of op = true) ops →
  (length (decision_log (run round4 ops svc0)) < 100)%nat
  ∧ (length (feedback_buffer (run round4 ops svc0)) < 50)%nat.
Proof.
  intros Hinit Hops. apply init_empty in Hinit as [Hlog Hbuf].
  assert (H : (length (decision_log svc0) < 100)%nat
              ∧ (length (feedback_buffer svc0) < 50)%nat).
  { rewrite Hlog, Hbuf. simpl. lia. }
  clear Hlog Hbuf. revert svc0 H.
  induction Hops as [|op ops Hop _ IH]; intros svc0 [Hd Hf]; [split; assumption|].
  simpl. apply IH, apply_bounded; assumption.
Qed.

(** X29. The hundredth decision empties the log when the file is
    written, and [add_feedback] only searches the log: from then on
    feedback for any session logged so far, the one of the hundredth
    decision included, is dropped without a record. *)
Theorem flushed_decisions_take_no_feedback (round4 : Q → Q)
    (svc svc' : FeedbackLoopService) (sid text level : string) (score : Q)
    (conf : string) (expl ctx : Value) (now : string) :
  (99 <= length (decision_log svc))%nat →
  log_decision round4 svc sid text level score conf expl ctx now true = Ok svc' →
  decision_log svc' = []
  ∧ feedback_buffer svc' = feedback_buffer svc
  ∧ ∀ sid' truth source notes now' written,
      add_feedback svc' sid' truth source notes now' written = svc'.
Proof.
  intros Hlen Hlog. apply log_decision_shape in Hlog as [Hbuf (d & _ & Hd)].
  rewrite andb_true_r in Hd.
  destruct (100 <=? length (decision_log svc ++ [d]))%nat eqn:Hfull.
  - split; [exact Hd|]. split; [exact Hbuf|]. intros sid' truth source notes now' written.
    unfold add_feedback. rewrite Hd. reflexivity.
  - apply Nat.leb_gt in Hfull. rewrite length_app in Hfull. simpl in Hfull. lia.
Qed.

(** X30. On a feedback loop that was only used through the service,
    a training sample of [get_retraining_data] is flagged as an error
    exactly when its label differs from its predicted label; its text
    and label come from a record of the buffer whose predicted score
    is not below the threshold, and without [include_correct] every
    sample returned is such an error. *)
Theorem retraining_data_are_errors (round4 : Q → Q) (dir : string)
    (mkdir : Result unit) (svc0 : FeedbackLoopService) (ops : list Op)
    (include_correct : bool) (min_score_threshold : Q) (sample : TrainingSample) :
  init dir mkdir = Ok svc0 →
  let svc := run round4 ops svc0 in
  sample ∈ get_retraining_data svc include_correct min_score_threshold →
  (t_was_error sample = true ↔ t_label sample ≠ t_predicted_label sample)
  ∧ (include_correct = false → t_was_error sample = true)
  ∧ ∃ f, f ∈ feedback_buffer svc
         ∧ sample = training_sample f
         ∧ min_score_threshold <= FeedbackRecord.predicted_score f.
Proof.
  intros Hinit. apply init_empty in Hinit as [_ Hbuf]. cbn zeta.
  assert (Hok : Forall record_ok (feedback_buffer (run round4 ops svc0))).
  { apply run_buffer_ok. rewrite Hbuf. constructor. }
  unfold get_retraining_data. intros Hin.
  apply list_elem_of_omap in Hin as (f & Hf & Hs).
  rewrite Forall_forall in Hok. destruct (Hok f Hf) as (Hc & _ & _).
  destruct (negb include_correct && FeedbackRecord.was_correct f) eqn:Hskip;
    [discriminate|].
  destruct (Qlt_bool (FeedbackRecord.predicted_score f) min_score_threshold) eqn:Hlt;
    [discriminate|].
  apply Some_eq in Hs. subst sample. unfold training_sample. cbn.
  split; [|split].
  - rewrite negb_true_iff. split.
    + intros Hw Heq. symmetry in Heq. apply Hc in Heq. congruence.
    + intros Hne. destruct (FeedbackRecord.was_correct f); [|reflexivity].
      exfalso. apply Hne. symmetry. apply Hc. reflexivity.
  - intros ->. simpl in Hskip. rewrite Hskip. reflexivity.
  - exists f. split; [exact Hf|]. split; [reflexivity|].
    unfold Qlt_bool in Hlt. apply negb_false_iff, Qle_bool_iff in Hlt. exact Hlt.
Qed.

Lemma error_counts_are_disjoint_witness :
  let svc := run LoopSamples.sample_round4 LoopSamples.loop_ops LoopSamples.fresh_loop in
  let stats := get_stats LoopSamples.sample_round4 svc in
  Forall record_ok (feedback_buffer svc)
  ∧ (0 <= false_positives stats)%Z
  ∧ (0 <= false_negatives stats)%Z
  ∧ (false_positives stats + false_negatives stats
     + count_if FeedbackRecord.was_correct (feedback_buffer svc)
     <= total_feedback_received stats)%Z
  ∧ (accuracy stats = None ↔ feedback_buffer svc = []).
Proof.
  apply (error_counts_are_disjoint LoopSamples.sample_round4 "feedback_data" (Ok tt)
           LoopSamples.fresh_loop LoopSamples.loop_ops).
  reflexivity.
Defined.

Lemma buffers_bounded_when_writes_succeed_witness :
  (length (decision_log
             (run LoopSamples.sample_round4 LoopSamples.loop_ops
                LoopSamples.fresh_loop)) < 100)%nat
  ∧ (length (feedback_buffer
               (run LoopSamples.sample_round4 LoopSamples.loop_ops
                  LoopSamples.fresh_loop)) < 50)%nat.
Proof.
  apply (buffers_bounded_when_writes_succeed LoopSamples.sample_round4
           "feedback_data" (Ok tt)).
  - reflexivity.
  - repeat constructor.
Defined.

Lemma flushed_decisions_take_no_feedback_witness :
  ∃ svc',
    log_decision LoopSamples.sample_round4 LoopSamples.nearly_full_loop "s-1"
      "Share the OTP now" "scam" 0.8 "high" LoopSamples.sample_explanation VNone
      "2025-01-01T01:00:00" true = Ok svc'
    ∧ decision_log svc' = []
    ∧ feedback_buffer svc' = []
    ∧ ∀ sid' truth source notes now' written,
        add_feedback svc' sid' truth source notes now' written = svc'.
Proof.
  eexists. split; [reflexivity|].
  apply (flushed_decisions_take_no_feedback LoopSamples.sample_round4
           LoopSamples.nearly_full_loop _ "s-1" "Share the OTP now" "scam" 0.8
           "high" LoopSamples.sample_explanation VNone "2025-01-01T01:00:00").
  - apply Nat.leb_le. reflexivity.
  - reflexivity.
Defined.

Lemma retraining_data_are_errors_witness :
  let svc :=
    run LoopSamples.sample_round4 LoopSamples.loop_ops LoopSamples.fresh_loop in
  let sample := LoopSamples.error_sample in
  (t_was_error sample = true ↔ t_label sample ≠ t_predicted_label sample)
  ∧ (false = false → t_was_error sample = true)
  ∧ ∃ f, f ∈ feedback_buffer svc
         ∧ sample = training_sample f
         ∧ 0.5 <= FeedbackRecord.predicted_score f.
Proof.
  apply (retraining_data_are_errors LoopSamples.sample_round4 "feedback_data"
           (Ok tt) LoopSamples.fresh_loop LoopSamples.loop_ops false 0.5
           LoopSamples.error_sample).
  - reflexivity.
  - vm_compute. left.
Defined.

End LoopFacts.
